(** * EKS Sandbox Tool: a shallow embedding of the lifecycle orchestrator

    The Go sources embedded here are
    - [src/unnamed/part_001]: the AWS helper functions ([IamOperations],
      [CheckClusterTag], [DeleteVPC], [getLatestVersion], ...);
    - [src/main.go]: the current [main] (create / delete dispatch);
    - [src/unnamed/part_000] and [src/unnamed/part_002]: the two earlier
      [main] functions that offer the "reuse existing resources" path,
      together with the [CreateEKSCluster] of [src/aws2.js].

    Every interaction with the outside world (AWS SDK request, survey
    prompt, configuration load, clock) is a [Call]; a Go function is a
    finite interaction tree [Prog A] over these calls.  [run] executes a
    program against an arbitrary gateway (an oracle over a world state)
    and records the trace of calls with their responses.  Output printed
    with [fmt.Printf]/[fmt.Println] is not modelled. *)

From Stdlib Require OrderedTypeEx.
From stdpp Require Import base option list gmap strings sorting.

Local Open Scope stdpp_scope.

(** ** Go errors *)

(** [EntityAlreadyExistsException] is the typed IAM error that
    [errors.As] recognises; [ApiError] is any other failure reported by a
    call; [Errorf] is the error built by [fmt.Errorf(prefix ++ ": %v", err)]
    (formatting with [%v] does not wrap, so the cause's type is lost);
    [ErrorString] is [fmt.Errorf] without arguments. *)
Inductive error : Type :=
| EntityAlreadyExistsException (msg : string)
| ApiError (msg : string)
| Errorf (prefix : string) (cause : error)
| ErrorString (msg : string).

(** [errors.As(err, &alreadyExists)] with
    [alreadyExists *iamtypes.EntityAlreadyExistsException]. *)
Definition errors_As_EntityAlreadyExists (err : error) : bool :=
  match err with
  | EntityAlreadyExistsException _ => true
  | _ => false
  end.

(** A Go pair [(value, err)]: [Ok v] stands for [err == nil]. *)
Inductive result (A : Type) : Type :=
| Ok (a : A)
| Err (e : error).
Arguments Ok {A} a.
Arguments Err {A} e.

Definition is_Ok {A} (r : result A) : bool :=
  match r with Ok _ => true | Err _ => false end.

(** ** SDK data, as far as the code reads or writes it.
    A Go pointer field is an [option]; [aws.ToString] maps [nil] to the
    empty string. *)

Definition aws_ToString (p : option string) : string := default "" p.

Definition Tags := list (string * string).

Record Filter := { Name : string; Values : list string }.

Record GetCallerIdentityOutput :=
  { Account : option string; Arn : option string }.

Record Vpc := { VpcId : option string }.
Record CreateVpcOutput := { CreateVpc_Vpc : option Vpc }.
Record DescribeVpcsInput := { VpcIds : list string }.
Record DescribeVpcsOutput := { Vpcs : list Vpc }.

Record Subnet := { SubnetId : option string }.
Record CreateSubnetOutput := { CreateSubnet_Subnet : option Subnet }.
Record DescribeSubnetsOutput := { Subnets : list Subnet }.

Record InternetGateway := { InternetGatewayId : option string }.
Record CreateInternetGatewayOutput :=
  { CreateInternetGateway_InternetGateway : option InternetGateway }.
Record DescribeInternetGatewaysOutput :=
  { InternetGateways : list InternetGateway }.

Record RouteTableAssociation := { Main : option bool }.
Record RouteTable :=
  { RouteTableId : option string; Associations : list RouteTableAssociation }.
Record CreateRouteTableOutput := { CreateRouteTable_RouteTable : option RouteTable }.
Record DescribeRouteTablesInput :=
  { DescribeRouteTables_Filters : list Filter; RouteTableIds : list string }.
Record DescribeRouteTablesOutput := { RouteTables : list RouteTable }.

Record SecurityGroup := { GroupId : option string; GroupName : option string }.
Record CreateSecurityGroupOutput := { CreateSecurityGroup_GroupId : option string }.
Record DescribeSecurityGroupsInput :=
  { DescribeSecurityGroups_Filters : list Filter; GroupIds : list string }.
Record DescribeSecurityGroupsOutput := { SecurityGroups : list SecurityGroup }.

Record NetworkInterfaceAttachment := { AttachmentId : option string }.
Record NetworkInterface :=
  { NetworkInterfaceId : option string;
    Attachment : option NetworkInterfaceAttachment }.
Record DescribeNetworkInterfacesOutput :=
  { NetworkInterfaces : list NetworkInterface }.

(** [eks.CreateClusterInput]; [AuthenticationMode] and
    [BootstrapClusterCreatorAdminPermissions] are the fields of
    [AccessConfig]; the three auto-mode blocks are the [Enabled] flags of
    [ComputeConfig], [KubernetesNetworkConfig] and [StorageConfig]; [None]
    stands for a block left [nil]. *)
Record CreateClusterInput :=
  { CreateCluster_Name : string;
    CreateCluster_Version : string;
    RoleArn : string;
    SubnetIds : list string;
    SecurityGroupIds : list string;
    AuthenticationMode : option string;
    BootstrapClusterCreatorAdminPermissions : option bool;
    CreateCluster_Tags : gmap string string;
    ComputeConfig : option bool;
    ElasticLoadBalancing : option bool;
    BlockStorage : option bool }.

(** [types.Cluster.Tags] is a Go map; [None] is the nil map. *)
Record Cluster := { Cluster_Tags : option (gmap string string) }.
Record DescribeClusterOutput := { DescribeCluster_Cluster : option Cluster }.
Record ClusterVersionInformation := { ClusterVersion : option string }.
Record DescribeClusterVersionsOutput :=
  { ClusterVersions : list ClusterVersionInformation }.
Record ListClustersOutput := { Clusters : list string }.

(** ** Calls to the outside world

    SDK operations carry the request fields the code sets; the prefix is
    the Go package of the client ([ec2_CreateSubnet] is
    [ec2Client.CreateSubnet]).  The [survey_] calls are [survey.AskOne] on
    the four prompt types; [time_Now] is
    [time.Now().Format("2006-01-02")]. *)
Inductive Call : Type :=
| config_LoadDefaultConfig (region : string)
| time_Now
| survey_Select (message : string) (options : list string)
| survey_Input (message default : string) (required : bool)
| survey_Confirm (message : string) (default : bool)
| survey_MultiSelect (message : string) (options : list string)
| sts_GetCallerIdentity
| iam_CreateRole (roleName assumeRolePolicyDocument : string)
| iam_AttachRolePolicy (roleName policyArn : string)
| ec2_CreateVpc (cidrBlock : string) (tags : Tags)
| ec2_CreateSubnet (vpcId cidrBlock availabilityZone : string) (tags : Tags)
| ec2_CreateInternetGateway (tags : Tags)
| ec2_AttachInternetGateway (internetGatewayId vpcId : string)
| ec2_CreateRouteTable (vpcId : string) (tags : Tags)
| ec2_CreateRoute (routeTableId destinationCidrBlock gatewayId : string)
| ec2_AssociateRouteTable (routeTableId subnetId : string)
| ec2_ModifySubnetAttribute (subnetId : string) (mapPublicIpOnLaunch : bool)
| ec2_CreateSecurityGroup (groupName description vpcId : string) (tags : Tags)
| ec2_DescribeVpcs (input : DescribeVpcsInput)
| ec2_DescribeSubnets (filters : list Filter)
| ec2_DescribeInternetGateways (filters : list Filter)
| ec2_DescribeRouteTables (input : DescribeRouteTablesInput)
| ec2_DescribeSecurityGroups (input : DescribeSecurityGroupsInput)
| ec2_DescribeNetworkInterfaces (filters : list Filter)
| ec2_DetachNetworkInterface (attachmentId : option string) (force : bool)
| ec2_DeleteNetworkInterface (networkInterfaceId : option string)
| ec2_DetachInternetGateway (internetGatewayId vpcId : string)
| ec2_DeleteInternetGateway (internetGatewayId : string)
| ec2_DeleteSubnet (subnetId : string)
| ec2_DeleteRouteTable (routeTableId : string)
| ec2_DeleteSecurityGroup (groupId : string)
| ec2_DeleteVpc (vpcId : string)
| eks_CreateCluster (input : CreateClusterInput)
| eks_DescribeClusterVersions (includeAll : bool)
| eks_ListClusters
| eks_DescribeCluster (name : string)
| eks_DeleteCluster (name : string)
| eks_CreateAddon (clusterName addonName : string).

(** What each call hands back to the program. *)
Definition Response (c : Call) : Type :=
  match c with
  | config_LoadDefaultConfig _ => result unit
  | time_Now => string
  | survey_Select _ _ => result string
  | survey_Input _ _ _ => result string
  | survey_Confirm _ _ => result bool
  | survey_MultiSelect _ _ => result (list string)
  | sts_GetCallerIdentity => result GetCallerIdentityOutput
  | ec2_CreateVpc _ _ => result CreateVpcOutput
  | ec2_CreateSubnet _ _ _ _ => result CreateSubnetOutput
  | ec2_CreateInternetGateway _ => result CreateInternetGatewayOutput
  | ec2_CreateRouteTable _ _ => result CreateRouteTableOutput
  | ec2_CreateSecurityGroup _ _ _ _ => result CreateSecurityGroupOutput
  | ec2_DescribeVpcs _ => result DescribeVpcsOutput
  | ec2_DescribeSubnets _ => result DescribeSubnetsOutput
  | ec2_DescribeInternetGateways _ => result DescribeInternetGatewaysOutput
  | ec2_DescribeRouteTables _ => result DescribeRouteTablesOutput
  | ec2_DescribeSecurityGroups _ => result DescribeSecurityGroupsOutput
  | ec2_DescribeNetworkInterfaces _ => result DescribeNetworkInterfacesOutput
  | eks_DescribeClusterVersions _ => result DescribeClusterVersionsOutput
  | eks_ListClusters => result ListClustersOutput
  | eks_DescribeCluster _ => result DescribeClusterOutput
  | iam_CreateRole _ _ | iam_AttachRolePolicy _ _
  | ec2_AttachInternetGateway _ _ | ec2_CreateRoute _ _ _
  | ec2_AssociateRouteTable _ _ | ec2_ModifySubnetAttribute _ _
  | ec2_DetachNetworkInterface _ _ | ec2_DeleteNetworkInterface _
  | ec2_DetachInternetGateway _ _ | ec2_DeleteInternetGateway _
  | ec2_DeleteSubnet _ | ec2_DeleteRouteTable _
  | ec2_DeleteSecurityGroup _ | ec2_DeleteVpc _
  | eks_CreateCluster _ | eks_DeleteCluster _ | eks_CreateAddon _ _ =>
      result unit
  end.

(** A recorded interaction: the call and what it returned. *)
Record Event := Ev { ev_call : Call; ev_resp : Response ev_call }.

(** ** Programs

    [Ret] returns to the caller, [Fatal] is [log.Fatalf] (the process
    exits at once), [Panic] is a Go runtime panic, [Vis] performs a call
    and continues with its response. *)
Inductive Prog (A : Type) : Type :=
| Ret (a : A)
| Fatal (e : error)
| Panic (reason : string)
| Vis (c : Call) (k : Response c -> Prog A).
Arguments Ret {A} a.
Arguments Fatal {A} e.
Arguments Panic {A} reason.
Arguments Vis {A} c k.

Fixpoint bind {A B} (p : Prog A) (f : A -> Prog B) : Prog B :=
  match p with
  | Ret a => f a
  | Fatal e => Fatal e
  | Panic m => Panic m
  | Vis c k => Vis c (fun r => bind (k r) f)
  end.

Definition call (c : Call) : Prog (Response c) := Vis c Ret.

Global Instance Prog_ret : MRet Prog := @Ret.
Global Instance Prog_bind : MBind Prog := fun A B f p => bind p f.

(** [log.Fatalf(prefix ++ ": %v", err)]. *)
Definition log_Fatalf {A} (prefix : string) (err : error) : Prog A :=
  Fatal (Errorf prefix err).

Definition nil_dereference : string :=
  "invalid memory address or nil pointer dereference".
Definition index_out_of_range : string := "index out of range".

(** [*p] and [p.field] on a pointer [p]. *)
Definition deref {A} (p : option A) : Prog A :=
  match p with
  | Some a => Ret a
  | None => Panic nil_dereference
  end.

(** [for _, x := range xs { body }] inside a function returning [error]:
    [body] yields [Err e] when the function returns [e] from inside the
    loop, and [Ok tt] when the iteration ends (also by [continue]). *)
Fixpoint for_range {X} (xs : list X) (body : X -> Prog (result unit))
  : Prog (result unit) :=
  match xs with
  | [] => Ret (Ok tt)
  | x :: rest =>
      r ← body x;
      match r with
      | Ok _ => for_range rest body
      | Err e => Ret (Err e)
      end
  end.

(** ** Running a program against a gateway *)

Inductive Outcome (A : Type) : Type :=
| Returned (a : A)
| Exited (e : error)
| Panicked (reason : string).
Arguments Returned {A} a.
Arguments Exited {A} e.
Arguments Panicked {A} reason.

(** A gateway answers every call from its current world state. *)
Definition Gateway (W : Type) : Type := forall c : Call, W -> Response c * W.

Record Run (A W : Type) : Type :=
  MkRun { outcome : Outcome A; trace : list Event; world : W }.
Arguments MkRun {A W} outcome trace world.
Arguments outcome {A W} r.
Arguments trace {A W} r.
Arguments world {A W} r.

Fixpoint run {A W} (p : Prog A) (gw : Gateway W) (w : W) : Run A W :=
  match p with
  | Ret a => MkRun (Returned a) [] w
  | Fatal e => MkRun (Exited e) [] w
  | Panic m => MkRun (Panicked m) [] w
  | Vis c k =>
      let '(r, w') := gw c w in
      let rest := run (k r) gw w' in
      MkRun (outcome rest) (Ev c r :: trace rest) (world rest)
  end.

(** Weakest precondition over all possible responses.  [wp p h Q] says:
    started after the history [h] of earlier events, whatever the outside
    world answers, the outcome of [p] and the history extended by the
    events of [p] satisfy [Q]. *)
Fixpoint wp {A} (p : Prog A) (h : list Event)
    (Q : Outcome A -> list Event -> Prop) : Prop :=
  match p with
  | Ret a => Q (Returned a) h
  | Fatal e => Q (Exited e) h
  | Panic m => Q (Panicked m) h
  | Vis c k => forall r : Response c, wp (k r) (h ++ [Ev c r]) Q
  end.

(** The postcondition that [p ≫= f] imposes on [p]. *)
Definition after {A B} (f : A -> Prog B) (Q : Outcome B -> list Event -> Prop)
  : Outcome A -> list Event -> Prop :=
  fun o h =>
    match o with
    | Returned a => wp (f a) h Q
    | Exited e => Q (Exited e) h
    | Panicked m => Q (Panicked m) h
    end.

(** ** The AWS helpers of [src/unnamed/part_001] *)

(** [GetAWSAccountDetails]: the account id and the caller's ARN. *)
Definition GetAWSAccountDetails (region : string) : Prog (result (string * string)) :=
  cfg ← call (config_LoadDefaultConfig region);
  match cfg with
  | Err err => Ret (Err (Errorf "unable to load AWS configuration" err))
  | Ok _ =>
      output ← call sts_GetCallerIdentity;
      match output with
      | Err err => Ret (Err (Errorf "failed to get caller identity" err))
      | Ok output =>
          Ret (Ok (aws_ToString (Account output), aws_ToString (Arn output)))
      end
  end.

(** The trust policy document of [IamOperations] (a JSON text, written
    here without its quotation marks and line breaks). *)
Definition assumeRolePolicy : string :=
  "{ Version: 2012-10-17, Statement: [ { Effect: Allow, Principal: { Service: eks.amazonaws.com }, Action: sts:AssumeRole } ] }".

Definition policies : list string :=
  [ "arn:aws:iam::aws:policy/AmazonEKSClusterPolicy";
    "arn:aws:iam::aws:policy/AmazonEKSVPCResourceController" ].

(** The loop of [IamOperations] over [policies]. *)
Definition attachPolicies (roleName : string) : Prog (result unit) :=
  for_range policies (fun policyArn =>
    attached ← call (iam_AttachRolePolicy roleName policyArn);
    match attached with
    | Err err =>
        Ret (Err (Errorf ("failed to attach policy " +:+ policyArn
                            +:+ " to role " +:+ roleName) err))
    | Ok _ => Ret (Ok tt)
    end).

(** [IamOperations]: create the role, tolerating that it exists already,
    then attach the two managed policies. *)
Definition IamOperations (region roleName : string) : Prog (result unit) :=
  cfg ← call (config_LoadDefaultConfig region);
  match cfg with
  | Err err => Ret (Err (Errorf "unable to load AWS configuration" err))
  | Ok _ =>
      created ← call (iam_CreateRole roleName assumeRolePolicy);
      match created with
      | Err err =>
          if negb (errors_As_EntityAlreadyExists err)
          then Ret (Err (Errorf ("failed to create role " +:+ roleName) err))
          else attachPolicies roleName
      | Ok _ => attachPolicies roleName
      end
  end.

(** [CreateVPC] creates a VPC with the given CIDR and name. *)
Definition CreateVPC (region cidr name : string) : Prog (result string) :=
  cfg ← call (config_LoadDefaultConfig region);
  match cfg with
  | Err err => Ret (Err err)
  | Ok _ =>
      output ← call (ec2_CreateVpc cidr
                       [("Name", name); ("CreatedBy", "EKS-Sandbox-Tool")]);
      match output with
      | Err err => Ret (Err err)
      | Ok output =>
          vpc ← deref (CreateVpc_Vpc output);
          Ret (Ok (aws_ToString (VpcId vpc)))
      end
  end.

(** [CreateSubnet] creates a subnet in the availability zone
    [region + azSuffix]. *)
Definition CreateSubnet (region vpcID cidr name azSuffix : string)
  : Prog (result string) :=
  cfg ← call (config_LoadDefaultConfig region);
  match cfg with
  | Err err => Ret (Err err)
  | Ok _ =>
      output ← call (ec2_CreateSubnet vpcID cidr (region +:+ azSuffix)
                       [("Name", name); ("CreatedBy", "EKS-Sandbox-Tool")]);
      match output with
      | Err err => Ret (Err err)
      | Ok output =>
          subnet ← deref (CreateSubnet_Subnet output);
          Ret (Ok (aws_ToString (SubnetId subnet)))
      end
  end.

(** [CreateInternetGateway] creates a gateway and attaches it to the VPC. *)
Definition CreateInternetGateway (region name vpcID : string)
  : Prog (result string) :=
  cfg ← call (config_LoadDefaultConfig region);
  match cfg with
  | Err err => Ret (Err err)
  | Ok _ =>
      igwOutput ← call (ec2_CreateInternetGateway
                          [("Name", name); ("CreatedBy", "EKS-Sandbox-Tool")]);
      match igwOutput with
      | Err err => Ret (Err err)
      | Ok igwOutput =>
          igw ← deref (CreateInternetGateway_InternetGateway igwOutput);
          let igwID := aws_ToString (InternetGatewayId igw) in
          attached ← call (ec2_AttachInternetGateway igwID vpcID);
          match attached with
          | Err err => Ret (Err err)
          | Ok _ => Ret (Ok igwID)
          end
      end
  end.

(** [CreateRouteTable] creates a route table in the VPC. *)
Definition CreateRouteTable (region vpcID name : string) : Prog (result string) :=
  cfg ← call (config_LoadDefaultConfig region);
  match cfg with
  | Err err => Ret (Err err)
  | Ok _ =>
      output ← call (ec2_CreateRouteTable vpcID
                       [("Name", name); ("CreatedBy", "EKS-Sandbox-Tool")]);
      match output with
      | Err err => Ret (Err err)
      | Ok output =>
          rtb ← deref (CreateRouteTable_RouteTable output);
          Ret (Ok (aws_ToString (RouteTableId rtb)))
      end
  end.

(** [CreateRoute] creates a route to the internet gateway; it returns the
    SDK's error unchanged. *)
Definition CreateRoute (region routeTableID cidr igwID : string)
  : Prog (result unit) :=
  cfg ← call (config_LoadDefaultConfig region);
  match cfg with
  | Err err => Ret (Err err)
  | Ok _ => call (ec2_CreateRoute routeTableID cidr igwID)
  end.

(** [AssociateRouteTable] associates a route table with a subnet. *)
Definition AssociateRouteTable (region routeTableID subnetID : string)
  : Prog (result unit) :=
  cfg ← call (config_LoadDefaultConfig region);
  match cfg with
  | Err err => Ret (Err err)
  | Ok _ => call (ec2_AssociateRouteTable routeTableID subnetID)
  end.

(** [CreateSecurityGroup] creates a security group in the VPC. *)
Definition CreateSecurityGroup (region vpcID name description : string)
  : Prog (result string) :=
  cfg ← call (config_LoadDefaultConfig region);
  match cfg with
  | Err err => Ret (Err err)
  | Ok _ =>
      output ← call (ec2_CreateSecurityGroup name description vpcID
                       [("Name", name); ("CreatedBy", "EKS-Sandbox-Tool")]);
      match output with
      | Err err => Ret (Err err)
      | Ok output => Ret (Ok (aws_ToString (CreateSecurityGroup_GroupId output)))
      end
  end.

(** [CreateEKSCluster]: the role ARN is built from the account id; the
    cluster is tagged with its provenance, the isolated-hosting
    classification and the owning VPC; [autoMode] switches on managed
    compute, load balancing and block storage. *)
Definition CreateEKSCluster (region clusterName accountID : string)
    (subnetIDs securityGroupIDs : list string) (k8sVersion vpcId : string)
    (autoMode : bool) : Prog (result unit) :=
  cfg ← call (config_LoadDefaultConfig region);
  match cfg with
  | Err err => Ret (Err err)
  | Ok _ =>
      let roleArn := "arn:aws:iam::" +:+ accountID +:+ ":role/EKSClusterRole" in
      let tags : gmap string string :=
        <["CreatedBy" := "EKS-Sandbox-Tool"]>
          (<["HostingVPC" := "isolated"]> (<["VpcId" := vpcId]> ∅)) in
      let clusterInput :=
        {| CreateCluster_Name := clusterName;
           CreateCluster_Version := k8sVersion;
           RoleArn := roleArn;
           SubnetIds := subnetIDs;
           SecurityGroupIds := securityGroupIDs;
           AuthenticationMode := Some "API_AND_CONFIG_MAP";
           BootstrapClusterCreatorAdminPermissions := Some true;
           CreateCluster_Tags := tags;
           ComputeConfig := if autoMode then Some true else None;
           ElasticLoadBalancing := if autoMode then Some true else None;
           BlockStorage := if autoMode then Some true else None |} in
      created ← call (eks_CreateCluster clusterInput);
      match created with
      | Err err => Ret (Err (Errorf "failed to create EKS cluster" err))
      | Ok _ => Ret (Ok tt)
      end
  end.

Definition vpc_id_filter (vpcID : string) : list Filter :=
  [ {| Name := "vpc-id"; Values := [vpcID] |} ].

(** [ListVPCs] returns the ids of all VPCs. *)
Definition ListVPCs (region : string) : Prog (result (list string)) :=
  cfg ← call (config_LoadDefaultConfig region);
  match cfg with
  | Err err => Ret (Err err)
  | Ok _ =>
      output ← call (ec2_DescribeVpcs {| VpcIds := [] |});
      match output with
      | Err err => Ret (Err err)
      | Ok output => Ret (Ok (map (fun vpc => aws_ToString (VpcId vpc)) (Vpcs output)))
      end
  end.

(** [ListSubnets] returns the subnet ids of a VPC. *)
Definition ListSubnets (region vpcID : string) : Prog (result (list string)) :=
  cfg ← call (config_LoadDefaultConfig region);
  match cfg with
  | Err err => Ret (Err err)
  | Ok _ =>
      output ← call (ec2_DescribeSubnets (vpc_id_filter vpcID));
      match output with
      | Err err => Ret (Err err)
      | Ok output =>
          Ret (Ok (map (fun subnet => aws_ToString (SubnetId subnet)) (Subnets output)))
      end
  end.

(** [ListInternetGateways] returns the gateways attached to a VPC. *)
Definition ListInternetGateways (region vpcID : string)
  : Prog (result (list string)) :=
  cfg ← call (config_LoadDefaultConfig region);
  match cfg with
  | Err err => Ret (Err err)
  | Ok _ =>
      output ← call (ec2_DescribeInternetGateways
                       [ {| Name := "attachment.vpc-id"; Values := [vpcID] |} ]);
      match output with
      | Err err => Ret (Err err)
      | Ok output =>
          Ret (Ok (map (fun igw => aws_ToString (InternetGatewayId igw))
                     (InternetGateways output)))
      end
  end.

(** [ListRouteTables] returns the route-table ids of a VPC. *)
Definition ListRouteTables (region vpcID : string) : Prog (result (list string)) :=
  cfg ← call (config_LoadDefaultConfig region);
  match cfg with
  | Err err => Ret (Err err)
  | Ok _ =>
      output ← call (ec2_DescribeRouteTables
                       {| DescribeRouteTables_Filters := vpc_id_filter vpcID;
                          RouteTableIds := [] |});
      match output with
      | Err err => Ret (Err err)
      | Ok output =>
          Ret (Ok (map (fun rtb => aws_ToString (RouteTableId rtb)) (RouteTables output)))
      end
  end.

(** [ListSecurityGroups] returns the security-group ids of a VPC. *)
Definition ListSecurityGroups (region vpcID : string)
  : Prog (result (list string)) :=
  cfg ← call (config_LoadDefaultConfig region);
  match cfg with
  | Err err => Ret (Err err)
  | Ok _ =>
      output ← call (ec2_DescribeSecurityGroups
                       {| DescribeSecurityGroups_Filters := vpc_id_filter vpcID;
                          GroupIds := [] |});
      match output with
      | Err err => Ret (Err err)
      | Ok output =>
          Ret (Ok (map (fun sg => aws_ToString (GroupId sg)) (SecurityGroups output)))
      end
  end.

(** ** Version Resolver *)

(** Go's [a > b] on strings: byte-wise lexicographic comparison. *)
Definition string_gt (a b : string) : bool := String.ltb b a.

(** [sort.Slice(xs, less)] belongs to Go's standard library.  It is
    modelled by the insertion sort that the library runs on short slices:
    each element in turn is swapped leftwards while [less] says it goes
    before its left neighbour.  [insert_left] works on the already sorted
    prefix, kept in reverse. *)
Fixpoint insert_left {X} (less : X -> X -> bool) (x : X) (rprefix : list X) : list X :=
  match rprefix with
  | [] => [x]
  | y :: rest => if less x y then y :: insert_left less x rest else x :: rprefix
  end.

Definition sort_Slice {X} (less : X -> X -> bool) (xs : list X) : list X :=
  reverse (fold_left (fun rprefix x => insert_left less x rprefix) xs []).

(** [getLatestVersion] sorts the versions with [versions[i] > versions[j]]
    as the order and returns [versions[0]]; [None] is the index-out-of-range
    panic on an empty slice. *)
Definition getLatestVersion (versions : list string) : option string :=
  head (sort_Slice string_gt versions).

(** [GetLatestEKSVersion] fetches all available versions and returns the
    latest one. *)
Definition GetLatestEKSVersion (region : string) : Prog (result string) :=
  cfg ← call (config_LoadDefaultConfig region);
  match cfg with
  | Err err => Ret (Err (Errorf "unable to load AWS configuration" err))
  | Ok _ =>
      output ← call (eks_DescribeClusterVersions true);
      match output with
      | Err err => Ret (Err (Errorf "failed to fetch EKS cluster versions" err))
      | Ok output =>
          if Nat.eqb (length (ClusterVersions output)) 0
          then Ret (Err (ErrorString "no available EKS versions found"))
          else
            let versions := omap ClusterVersion (ClusterVersions output) in
            if Nat.eqb (length versions) 0
            then Ret (Err (ErrorString "no valid EKS versions found in the response"))
            else
              match getLatestVersion versions with
              | Some latest => Ret (Ok latest)
              | None => Panic index_out_of_range
              end
      end
  end.

(** ** Cluster queries and deletion *)

Definition ListEKSClusters (region : string) : Prog (result (list string)) :=
  cfg ← call (config_LoadDefaultConfig region);
  match cfg with
  | Err err => Ret (Err (Errorf "unable to load AWS configuration" err))
  | Ok _ =>
      output ← call eks_ListClusters;
      match output with
      | Err err => Ret (Err (Errorf "failed to list EKS clusters" err))
      | Ok output => Ret (Ok (Clusters output))
      end
  end.

(** [CheckClusterTag] (the Tag Guard): does the cluster carry
    [tagName] with value [tagValue]? *)
Definition CheckClusterTag (region clusterName tagName tagValue : string)
  : Prog (result bool) :=
  cfg ← call (config_LoadDefaultConfig region);
  match cfg with
  | Err err => Ret (Err (Errorf "unable to load AWS configuration" err))
  | Ok _ =>
      output ← call (eks_DescribeCluster clusterName);
      match output with
      | Err err => Ret (Err (Errorf "failed to describe EKS cluster" err))
      | Ok output =>
          cluster ← deref (DescribeCluster_Cluster output);
          match Cluster_Tags cluster with
          | Some tags =>
              match tags !! tagName with
              | Some val => if String.eqb val tagValue then Ret (Ok true) else Ret (Ok false)
              | None => Ret (Ok false)
              end
          | None => Ret (Ok false)
          end
      end
  end.

Definition DeleteEKSCluster (region clusterName : string) : Prog (result unit) :=
  cfg ← call (config_LoadDefaultConfig region);
  match cfg with
  | Err err => Ret (Err (Errorf "unable to load AWS configuration" err))
  | Ok _ =>
      deleted ← call (eks_DeleteCluster clusterName);
      match deleted with
      | Err err => Ret (Err (Errorf "failed to delete EKS cluster" err))
      | Ok _ => Ret (Ok tt)
      end
  end.

(** [GetVPCIDFromCluster] reads the ["VpcId"] tag of the cluster. *)
Definition GetVPCIDFromCluster (region clusterName : string) : Prog (result string) :=
  cfg ← call (config_LoadDefaultConfig region);
  match cfg with
  | Err err => Ret (Err (Errorf "unable to load AWS configuration" err))
  | Ok _ =>
      clusterOutput ← call (eks_DescribeCluster clusterName);
      match clusterOutput with
      | Err err =>
          Ret (Err (Errorf ("failed to describe EKS cluster " +:+ clusterName) err))
      | Ok clusterOutput =>
          match DescribeCluster_Cluster clusterOutput ≫= Cluster_Tags with
          | None =>
              Ret (Err (ErrorString ("cluster " +:+ clusterName
                                       +:+ " does not have tags or is malformed")))
          | Some tags =>
              match tags !! "VpcId" with
              | None =>
                  Ret (Err (ErrorString ("vpc-id tag not found on cluster "
                                           +:+ clusterName)))
              | Some vpcID => Ret (Ok vpcID)
              end
          end
      end
  end.

Definition EnableAutoAssignPublicIP (region : string) (subnets : list string)
  : Prog (result unit) :=
  cfg ← call (config_LoadDefaultConfig region);
  match cfg with
  | Err err => Ret (Err (Errorf "unable to load AWS configuration" err))
  | Ok _ =>
      for_range subnets (fun subnetID =>
        modified ← call (ec2_ModifySubnetAttribute subnetID true);
        match modified with
        | Err err =>
            Ret (Err (Errorf ("unable to enable auto-assign public IPv4 for subnet "
                                +:+ subnetID) err))
        | Ok _ => Ret (Ok tt)
        end)
  end.

Definition addons : list string := ["coredns"; "kube-proxy"; "vpc-cni"].

(** [InstallAddons] installs coredns, kube-proxy and vpc-cni. *)
Definition InstallAddons (region clusterName : string) : Prog (result unit) :=
  cfg ← call (config_LoadDefaultConfig region);
  match cfg with
  | Err err => Ret (Err (Errorf "unable to load AWS configuration" err))
  | Ok _ =>
      for_range addons (fun addon =>
        created ← call (eks_CreateAddon clusterName addon);
        match created with
        | Err err => Ret (Err (Errorf ("failed to install addon " +:+ addon) err))
        | Ok _ => Ret (Ok tt)
        end)
  end.

(** ** Network teardown: [DeleteVPC]

    The bodies of the five loops of [DeleteVPC] are given names of their
    own; [DeleteVPC] below chains them in the order of the source. *)

(** Loop over [eniOutput.NetworkInterfaces]: forced detach, then delete.
    [eni.Attachment.AttachmentId] dereferences the attachment pointer;
    [*eni.NetworkInterfaceId] is dereferenced when an error is reported. *)
Definition detachAndDeleteInterface (eni : NetworkInterface) : Prog (result unit) :=
  attachment ← deref (Attachment eni);
  detached ← call (ec2_DetachNetworkInterface (AttachmentId attachment) true);
  match detached with
  | Err err =>
      id ← deref (NetworkInterfaceId eni);
      Ret (Err (Errorf ("unable to detach network interface " +:+ id) err))
  | Ok _ =>
      deleted ← call (ec2_DeleteNetworkInterface (NetworkInterfaceId eni));
      match deleted with
      | Err err =>
          id ← deref (NetworkInterfaceId eni);
          Ret (Err (Errorf ("unable to delete network interface " +:+ id) err))
      | Ok _ => Ret (Ok tt)
      end
  end.

(** Loop over [igws]: detach from the VPC, then delete. *)
Definition detachAndDeleteGateway (vpcID igwID : string) : Prog (result unit) :=
  detached ← call (ec2_DetachInternetGateway igwID vpcID);
  match detached with
  | Err err => Ret (Err (Errorf ("unable to detach Internet Gateway " +:+ igwID) err))
  | Ok _ =>
      deleted ← call (ec2_DeleteInternetGateway igwID);
      match deleted with
      | Err err => Ret (Err (Errorf ("unable to delete Internet Gateway " +:+ igwID) err))
      | Ok _ => Ret (Ok tt)
      end
  end.

(** Loop over [subnets]. *)
Definition deleteSubnet (subnetID : string) : Prog (result unit) :=
  deleted ← call (ec2_DeleteSubnet subnetID);
  match deleted with
  | Err err => Ret (Err (Errorf ("unable to delete subnet " +:+ subnetID) err))
  | Ok _ => Ret (Ok tt)
  end.

(** The inner loop over [Associations]:
    [association.Main != nil && *association.Main]. *)
Definition isMainRouteTable (rtb : RouteTable) : bool :=
  existsb (fun association =>
             match Main association with Some true => true | _ => false end)
          (Associations rtb).

Definition describe_route_table (rtbID : string) : Call :=
  ec2_DescribeRouteTables
    {| DescribeRouteTables_Filters := []; RouteTableIds := [rtbID] |}.

(** Loop over [routeTables]: describe the table, skip it ([continue]) when
    it is the main one, delete it otherwise.  [rtbOutput.RouteTables[0]]
    panics on an empty answer. *)
Definition deleteRouteTableUnlessMain (rtbID : string) : Prog (result unit) :=
  rtbOutput ← call (describe_route_table rtbID);
  match rtbOutput with
  | Err err => Ret (Err (Errorf ("unable to describe route table " +:+ rtbID) err))
  | Ok rtbOutput =>
      match RouteTables rtbOutput with
      | [] => Panic index_out_of_range
      | rtb :: _ =>
          if isMainRouteTable rtb then Ret (Ok tt)
          else
            deleted ← call (ec2_DeleteRouteTable rtbID);
            match deleted with
            | Err err =>
                Ret (Err (Errorf ("unable to delete route table " +:+ rtbID) err))
            | Ok _ => Ret (Ok tt)
            end
      end
  end.

Definition describe_security_group (sgID : string) : Call :=
  ec2_DescribeSecurityGroups
    {| DescribeSecurityGroups_Filters := []; GroupIds := [sgID] |}.

(** [len(sgOutput.SecurityGroups) > 0 &&
     *sgOutput.SecurityGroups[0].GroupName == "default"]. *)
Definition isDefault (sgOutput : DescribeSecurityGroupsOutput) : Prog bool :=
  match SecurityGroups sgOutput with
  | [] => Ret false
  | sg :: _ => name ← deref (GroupName sg); Ret (String.eqb name "default")
  end.

(** Loop over [securityGroups]: describe the group, skip it ([continue])
    when it is the default one, delete it otherwise. *)
Definition deleteSecurityGroupUnlessDefault (sgID : string) : Prog (result unit) :=
  sgOutput ← call (describe_security_group sgID);
  match sgOutput with
  | Err err => Ret (Err (Errorf ("unable to describe security group " +:+ sgID) err))
  | Ok sgOutput =>
      skip ← isDefault sgOutput;
      if skip : bool then Ret (Ok tt)
      else
        deleted ← call (ec2_DeleteSecurityGroup sgID);
        match deleted with
        | Err err =>
            Ret (Err (Errorf ("unable to delete security group " +:+ sgID) err))
        | Ok _ => Ret (Ok tt)
        end
  end.

(** [if err != nil { return err }] around a step returning [error]. *)
Definition and_then (step : Prog (result unit)) (rest : Prog (result unit))
  : Prog (result unit) :=
  r ← step;
  match r with
  | Ok _ => rest
  | Err e => Ret (Err e)
  end.

(** [output, err := f(...); if err != nil { return fmt.Errorf(prefix, err) }]. *)
Definition wrapped {A} (prefix : string) (p : Prog (result A))
    (rest : A -> Prog (result unit)) : Prog (result unit) :=
  r ← p;
  match r with
  | Ok a => rest a
  | Err err => Ret (Err (Errorf prefix err))
  end.

(** [DeleteVPC] deletes a VPC and what depends on it. *)
Definition DeleteVPC (region vpcID : string) : Prog (result unit) :=
  wrapped "unable to load AWS configuration"
    (call (config_LoadDefaultConfig region)) (fun _ =>
  wrapped "unable to describe network interfaces"
    (call (ec2_DescribeNetworkInterfaces (vpc_id_filter vpcID))) (fun eniOutput =>
  and_then (for_range (NetworkInterfaces eniOutput) detachAndDeleteInterface) (
  wrapped "unable to describe VPC"
    (call (ec2_DescribeVpcs {| VpcIds := [vpcID] |})) (fun _ =>
  wrapped "unable to list Internet Gateways"
    (ListInternetGateways region vpcID) (fun igws =>
  and_then (for_range igws (detachAndDeleteGateway vpcID)) (
  wrapped "unable to list subnets"
    (ListSubnets region vpcID) (fun subnets =>
  and_then (for_range subnets deleteSubnet) (
  wrapped "unable to list route tables"
    (ListRouteTables region vpcID) (fun routeTables =>
  and_then (for_range routeTables deleteRouteTableUnlessMain) (
  wrapped "unable to list security groups"
    (ListSecurityGroups region vpcID) (fun securityGroups =>
  and_then (for_range securityGroups deleteSecurityGroupUnlessDefault) (
  wrapped ("unable to delete VPC " +:+ vpcID)
    (call (ec2_DeleteVpc vpcID)) (fun _ =>
  Ret (Ok tt)))))))))))))).

(** [v, err := f(...); if err != nil { log.Fatalf(prefix ++ ": %v", err) }]. *)
Definition or_fatal {A B} (prefix : string) (p : Prog (result A))
    (rest : A -> Prog B) : Prog B :=
  r ← p;
  match r with
  | Ok a => rest a
  | Err err => log_Fatalf prefix err
  end.

(** ** [src/main.go] *)
Module MainGo.

Definition dangerMessage : string :=
  "This cluster does not appear to be created by this tool. Are you sure you want to delete it? Danger!!".

Definition deleteVpcMessage : string :=
  "Do you want to delte VPC and all dependent objects in it? Default: Yes".

(** [case "Create Cluster":] *)
Definition createCluster : Prog unit :=
  or_fatal "Error"
    (call (survey_Input "Enter the AWS region default:" "eu-west-2" false))
    (fun region =>
  or_fatal "Error"
    (call (survey_Input "Enter the name of the EKS cluster:" "" true))
    (fun clusterName =>
  let clusterName := "Sandbox-" +:+ clusterName in
  or_fatal "Error fetching latest EKS version" (GetLatestEKSVersion region)
    (fun latestVersion =>
  or_fatal "Error"
    (call (survey_Input "Enter the Kubernetes version default:" latestVersion false))
    (fun k8sVersion =>
  or_fatal "Error"
    (call (survey_Confirm
             "Do you want to enable auto mode for the cluster? Default: Yes" false))
    (fun autoMode =>
  or_fatal "Error fetching AWS Account ID" (GetAWSAccountDetails region)
    (fun '(accountID, callerID) =>
  or_fatal "Error creating or attaching policies to EKSClusterRole"
    (IamOperations region "EKSClusterRole") (fun _ =>
  currentDate ← call time_Now;
  let vpcName := "Sandbox-EKS-VPC-" +:+ currentDate in
  or_fatal "Error creating VPC" (CreateVPC region "10.0.0.0/16" vpcName)
    (fun vpcID =>
  or_fatal "Error creating Subnet 1"
    (CreateSubnet region vpcID "10.0.1.0/24" "EKS-Subnet-1" "a") (fun subnet1 =>
  or_fatal "Error creating Subnet 2"
    (CreateSubnet region vpcID "10.0.2.0/24" "EKS-Subnet-2" "b") (fun subnet2 =>
  let subnets := [subnet1; subnet2] in
  or_fatal "Error enabling auto-assign public IPv4"
    (EnableAutoAssignPublicIP region subnets) (fun _ =>
  or_fatal "Error creating Internet Gateway"
    (CreateInternetGateway region "EKS-IGW" vpcID) (fun igwID =>
  or_fatal "Error creating Route Table"
    (CreateRouteTable region vpcID "EKS-Route-Table") (fun routeTableID =>
  CreateRoute region routeTableID "0.0.0.0/0" igwID;;
  AssociateRouteTable region routeTableID subnet1;;
  AssociateRouteTable region routeTableID subnet2;;
  or_fatal "Error creating Security Group"
    (CreateSecurityGroup region vpcID "EKS-SG" "EKS Security Group") (fun sgID =>
  let securityGroups := [sgID] in
  or_fatal "Error creating EKS Cluster"
    (CreateEKSCluster region clusterName accountID subnets securityGroups
                      k8sVersion vpcID autoMode) (fun _ =>
  or_fatal "Error"
    (call (survey_Confirm
             "Do you want to install CoreDNS, Kubeproxy, VPC_CNI  addons ? Default: Yes"
             false))
    (fun createAddons =>
  if createAddons : bool
  then or_fatal "Error installing addons" (InstallAddons region clusterName)
         (fun _ => Ret tt)
  else Ret tt)))))))))))))))).

(** [case "Delete Cluster":], from the isolated-hosting check on (the
    code after the danger confirmation). *)
Definition afterWarning (region selectedCluster : string) : Prog unit :=
  or_fatal "Error checking cluster tags"
    (CheckClusterTag region selectedCluster "HostingVPC" "isolated")
    (fun isIsolatedVpc =>
  if isIsolatedVpc : bool then
    or_fatal "Error getting VpcId from cluster tags"
      (GetVPCIDFromCluster region selectedCluster) (fun vpcId =>
    or_fatal "Error" (call (survey_Confirm deleteVpcMessage true))
      (fun confirmDeleteVPC =>
    if confirmDeleteVPC : bool then
      or_fatal "Error deleting cluster" (DeleteEKSCluster region selectedCluster)
        (fun _ =>
      or_fatal "Error deleting VPC" (DeleteVPC region vpcId) (fun _ => Ret tt))
    else
      or_fatal "Error deleting cluster" (DeleteEKSCluster region selectedCluster)
        (fun _ => Ret tt)))
  else Ret tt).

(** [case "Delete Cluster":] *)
Definition deleteCluster : Prog unit :=
  or_fatal "Error"
    (call (survey_Input "Enter the AWS region (default: eu-west-2):" "eu-west-2" false))
    (fun region =>
  or_fatal "Error fetching clusters" (ListEKSClusters region) (fun clusters =>
  if Nat.eqb (length clusters) 0 then Ret tt
  else
  or_fatal "Error"
    (call (survey_Select "Select the cluster to delete:" clusters))
    (fun selectedCluster =>
  or_fatal "Error checking cluster tags"
    (CheckClusterTag region selectedCluster "CreatedBy" "EKS-Sandbox-Tool")
    (fun isCreatedByTool =>
  if negb isCreatedByTool then
    or_fatal "Error" (call (survey_Confirm dangerMessage false))
      (fun confirmDelete =>
    if negb confirmDelete then Ret tt
    else afterWarning region selectedCluster)
  else afterWarning region selectedCluster)))).

Definition main : Prog unit :=
  or_fatal "Error"
    (call (survey_Select "What action do you want to perform?"
             ["Create Cluster"; "Delete Cluster"]))
    (fun action =>
  if String.eqb action "Create Cluster" then createCluster
  else if String.eqb action "Delete Cluster" then deleteCluster
  else Ret tt).

End MainGo.


(** ** The helpers shared by [src/unnamed/part_000] and
    [src/unnamed/part_002] (the text is the same in both files) *)

(** [selectExistingResource]: fetch the candidates and let the operator
    pick one. *)
Definition selectExistingResource (name : string)
    (fetchFunc : Prog (result (list string))) : Prog string :=
  or_fatal ("Error fetching " +:+ name) fetchFunc (fun options =>
  or_fatal ("Error selecting " +:+ name)
    (call (survey_Select ("Select an existing " +:+ name +:+ ":") options))
    (fun selected => Ret selected)).

Definition selectSubnetsMessage : string := "Select subnets to use:".

(** [selectMultipleSubnets]. *)
Definition selectMultipleSubnets (region vpcID : string)
  : Prog (result (list string)) :=
  subnets ← ListSubnets region vpcID;
  match subnets with
  | Err err => Ret (Err err)
  | Ok subnets =>
      selectedSubnets ← call (survey_MultiSelect selectSubnetsMessage subnets);
      match selectedSubnets with
      | Err err => Ret (Err err)
      | Ok selectedSubnets => Ret (Ok selectedSubnets)
      end
  end.

(** [selectMultipleSecurityGroups]. *)
Definition selectMultipleSecurityGroups (region vpcID : string)
  : Prog (result (list string)) :=
  sgs ← ListSecurityGroups region vpcID;
  match sgs with
  | Err err => Ret (Err err)
  | Ok sgs =>
      selectedSGs ← call (survey_MultiSelect "Select security groups to use:" sgs);
      match selectedSGs with
      | Err err => Ret (Err err)
      | Ok selectedSGs => Ret (Ok selectedSGs)
      end
  end.

(** The "use existing resources" branch, the same text in both files:
    pick a VPC, at least two subnets, and the security groups. *)
Definition useExisting (region : string)
    (rest : string -> list string -> list string -> Prog unit) : Prog unit :=
  vpcID ← selectExistingResource "VPC" (ListVPCs region);
  or_fatal "Error selecting subnets" (selectMultipleSubnets region vpcID)
    (fun selectedSubnets =>
  if Nat.ltb (length selectedSubnets) 2
  then Fatal (ErrorString "At least two subnets are required for EKS.")
  else
  let subnets := selectedSubnets in
  or_fatal "Error selecting security groups"
    (selectMultipleSecurityGroups region vpcID) (fun selectedSecurityGroups =>
  let securityGroups := selectedSecurityGroups in
  rest vpcID subnets securityGroups)).

(** ** [src/aws2.js]: the earlier [CreateEKSCluster] that
    [src/unnamed/part_000] calls. *)
Module Aws2.

Definition CreateEKSCluster (region clusterName accountID : string)
    (subnetIDs securityGroupIDs : list string) (k8sVersion : string)
  : Prog (result unit) :=
  cfg ← call (config_LoadDefaultConfig region);
  match cfg with
  | Err err => Ret (Err err)
  | Ok _ =>
      let roleArn := "arn:aws:iam::" +:+ accountID +:+ ":role/EKSClusterRole" in
      let tags : gmap string string := <["CreatedBy" := "EKS-Sandbox-Tool"]> ∅ in
      created ← call (eks_CreateCluster
                        {| CreateCluster_Name := clusterName;
                           CreateCluster_Version := k8sVersion;
                           RoleArn := roleArn;
                           SubnetIds := subnetIDs;
                           SecurityGroupIds := securityGroupIDs;
                           AuthenticationMode := None;
                           BootstrapClusterCreatorAdminPermissions := None;
                           CreateCluster_Tags := tags;
                           ComputeConfig := None;
                           ElasticLoadBalancing := None;
                           BlockStorage := None |});
      match created with
      | Err err => Ret (Err (Errorf "failed to create EKS cluster" err))
      | Ok _ => Ret (Ok tt)
      end
  end.

End Aws2.

(** ** [src/unnamed/part_000]: the creation-only [main] *)
Module Part000.

Definition reuseMessage : string := "Do you want to use existing AWS resources?".

(** The "create new resources" branch. *)
Definition createNew (region : string)
    (rest : string -> list string -> list string -> Prog unit) : Prog unit :=
  currentDate ← call time_Now;
  let vpcName := "Sandbox-EKS-VPC-" +:+ currentDate in
  or_fatal "Error creating VPC" (CreateVPC region "10.0.0.0/16" vpcName)
    (fun vpcID =>
  or_fatal "Error creating Subnet 1"
    (CreateSubnet region vpcID "10.0.1.0/24" "EKS-Subnet-1" "a") (fun subnet1 =>
  or_fatal "Error creating Subnet 2"
    (CreateSubnet region vpcID "10.0.2.0/24" "EKS-Subnet-2" "b") (fun subnet2 =>
  let subnets := [subnet1; subnet2] in
  or_fatal "Error creating Internet Gateway"
    (CreateInternetGateway region "EKS-IGW" vpcID) (fun igwID =>
  or_fatal "Error creating Route Table"
    (CreateRouteTable region vpcID "EKS-Route-Table") (fun routeTableID =>
  or_fatal "Error creating Security Group"
    (CreateSecurityGroup region vpcID "EKS-SG" "EKS Security Group") (fun sgID =>
  let securityGroups := [sgID] in
  rest vpcID subnets securityGroups)))))).

Definition main : Prog unit :=
  or_fatal "Error"
    (call (survey_Input "Enter the AWS region default:" "eu-west-2" false))
    (fun region =>
  or_fatal "Error"
    (call (survey_Input "Enter the name of the EKS cluster:" "" true))
    (fun clusterName =>
  let clusterName := "Sandbox-" +:+ clusterName in
  or_fatal "Error fetching latest EKS version" (GetLatestEKSVersion region)
    (fun latestVersion =>
  or_fatal "Error"
    (call (survey_Input "Enter the Kubernetes version default:" latestVersion false))
    (fun k8sVersion =>
  or_fatal "Error" (call (survey_Confirm reuseMessage false))
    (fun useExistingResources =>
  or_fatal "Error fetching AWS Account ID" (GetAWSAccountDetails region)
    (fun '(accountID, callerID) =>
  or_fatal "Error creating or attaching policies to EKSClusterRole"
    (IamOperations region "EKSClusterRole") (fun _ =>
  let createEKSCluster (vpcID : string) (subnets securityGroups : list string) :=
    or_fatal "Error creating EKS Cluster"
      (Aws2.CreateEKSCluster region clusterName accountID subnets securityGroups
                             k8sVersion) (fun _ => Ret tt) in
  if useExistingResources : bool then useExisting region createEKSCluster
  else createNew region createEKSCluster))))))).

End Part000.

(** ** [src/unnamed/part_002]: the [main] with both the reuse path and
    the delete action.  The nine-argument [CreateEKSCluster] it calls is
    in none of the source files, so it is a parameter here; the other
    helpers are those of [src/unnamed/part_001]. *)
Module Part002.
Section WithCreateEKSCluster.

Variable CreateEKSCluster :
  string -> string -> string -> list string -> list string -> string ->
  bool -> string -> Prog (result unit).

Definition reuseMessage : string :=
  "Do you want to create a cluster in existing VPC and subnets etc..? (Recommended No)".

Definition deleteVpcMessage : string :=
  "This cluster seems to be using isolated VPC . Do you want to delte VPC and all dependent objects in it?".

(** The "create new resources" branch. *)
Definition createNew (region : string)
    (rest : string -> list string -> list string -> Prog unit) : Prog unit :=
  currentDate ← call time_Now;
  let vpcName := "Sandbox-EKS-VPC-" +:+ currentDate in
  or_fatal "Error creating VPC" (CreateVPC region "10.0.0.0/16" vpcName)
    (fun vpcID =>
  or_fatal "Error creating Subnet 1"
    (CreateSubnet region vpcID "10.0.1.0/24" "EKS-Subnet-1" "a") (fun subnet1 =>
  or_fatal "Error creating Subnet 2"
    (CreateSubnet region vpcID "10.0.2.0/24" "EKS-Subnet-2" "b") (fun subnet2 =>
  let subnets := [subnet1; subnet2] in
  or_fatal "Error enabling auto-assign public IPv4"
    (EnableAutoAssignPublicIP region subnets) (fun _ =>
  or_fatal "Error creating Internet Gateway"
    (CreateInternetGateway region "EKS-IGW" vpcID) (fun igwID =>
  or_fatal "Error creating Route Table"
    (CreateRouteTable region vpcID "EKS-Route-Table") (fun routeTableID =>
  CreateRoute region routeTableID "0.0.0.0/0" igwID;;
  AssociateRouteTable region routeTableID subnet1;;
  AssociateRouteTable region routeTableID subnet2;;
  or_fatal "Error creating Security Group"
    (CreateSecurityGroup region vpcID "EKS-SG" "EKS Security Group") (fun sgID =>
  let securityGroups := [sgID] in
  rest vpcID subnets securityGroups))))))).

(** [case "Create Cluster":] *)
Definition createCluster : Prog unit :=
  or_fatal "Error"
    (call (survey_Input "Enter the AWS region default:" "eu-west-2" false))
    (fun region =>
  or_fatal "Error"
    (call (survey_Input "Enter the name of the EKS cluster:" "" true))
    (fun clusterName =>
  let clusterName := "Sandbox-" +:+ clusterName in
  or_fatal "Error fetching latest EKS version" (GetLatestEKSVersion region)
    (fun latestVersion =>
  or_fatal "Error"
    (call (survey_Input "Enter the Kubernetes version default:" latestVersion false))
    (fun k8sVersion =>
  or_fatal "Error" (call (survey_Confirm reuseMessage false))
    (fun useExistingResources =>
  or_fatal "Error fetching AWS Account ID" (GetAWSAccountDetails region)
    (fun '(accountID, callerID) =>
  or_fatal "Error creating or attaching policies to EKSClusterRole"
    (IamOperations region "EKSClusterRole") (fun _ =>
  let createEKSCluster (vpcID : string) (subnets securityGroups : list string) :=
    or_fatal "Error creating EKS Cluster"
      (CreateEKSCluster region clusterName accountID subnets securityGroups
                        k8sVersion useExistingResources vpcID) (fun _ => Ret tt) in
  if useExistingResources : bool then useExisting region createEKSCluster
  else createNew region createEKSCluster))))))).

(** [case "Delete Cluster":] here the cluster is deleted on every path
    that passes the danger confirmation.  The text of the danger
    confirmation is the one of [src/main.go]. *)
Definition deleteCluster : Prog unit :=
  or_fatal "Error"
    (call (survey_Input "Enter the AWS region (default: eu-west-2):" "eu-west-2" false))
    (fun region =>
  or_fatal "Error fetching clusters" (ListEKSClusters region) (fun clusters =>
  if Nat.eqb (length clusters) 0 then Ret tt
  else
  or_fatal "Error"
    (call (survey_Select "Select the cluster to delete:" clusters))
    (fun selectedCluster =>
  or_fatal "Error checking cluster tags"
    (CheckClusterTag region selectedCluster "CreatedBy" "EKS-Sandbox-Tool")
    (fun isCreatedByTool =>
  let deleteTheCluster : Prog unit :=
    or_fatal "Error deleting cluster" (DeleteEKSCluster region selectedCluster)
      (fun _ => Ret tt) in
  let afterWarning : Prog unit :=
    or_fatal "Error checking cluster tags"
      (CheckClusterTag region selectedCluster "HostingVPC" "isolated")
      (fun isIsolatedVpc =>
    if isIsolatedVpc : bool then
      or_fatal "Error getting VpcId from cluster tags"
        (GetVPCIDFromCluster region selectedCluster) (fun vpcId =>
      or_fatal "Error" (call (survey_Confirm deleteVpcMessage false))
        (fun confirmDeleteVPC =>
      if confirmDeleteVPC : bool then
        or_fatal "Error deleting VPC" (DeleteVPC region vpcId)
          (fun _ => deleteTheCluster)
      else deleteTheCluster))
    else deleteTheCluster) in
  if negb isCreatedByTool then
    or_fatal "Error" (call (survey_Confirm MainGo.dangerMessage false))
      (fun confirmDelete =>
    if negb confirmDelete then Ret tt else afterWarning)
  else afterWarning)))).

Definition main : Prog unit :=
  or_fatal "Error"
    (call (survey_Select "What action do you want to perform?"
             ["Create Cluster"; "Delete Cluster"]))
    (fun action =>
  if String.eqb action "Create Cluster" then createCluster
  else if String.eqb action "Delete Cluster" then deleteCluster
  else Ret tt).

End WithCreateEKSCluster.
End Part002.
(** * Specification vocabulary *)

(** ** Equality of calls and events is decidable *)

Global Instance error_eq_dec : EqDecision error.
Proof. solve_decision. Defined.
Global Instance result_eq_dec {A} `{EqDecision A} : EqDecision (result A).
Proof. solve_decision. Defined.
Global Instance Filter_eq_dec : EqDecision Filter.
Proof. solve_decision. Defined.
Global Instance DescribeVpcsInput_eq_dec : EqDecision DescribeVpcsInput.
Proof. solve_decision. Defined.
Global Instance DescribeRouteTablesInput_eq_dec : EqDecision DescribeRouteTablesInput.
Proof. solve_decision. Defined.
Global Instance DescribeSecurityGroupsInput_eq_dec :
  EqDecision DescribeSecurityGroupsInput.
Proof. solve_decision. Defined.
Global Instance CreateClusterInput_eq_dec : EqDecision CreateClusterInput.
Proof. solve_decision. Defined.
Global Instance Call_eq_dec : EqDecision Call.
Proof. solve_decision. Defined.


(** ** Classifying calls *)

(** Detach and delete requests. *)
Definition deleting (c : Call) : bool :=
  match c with
  | ec2_DetachNetworkInterface _ _ | ec2_DeleteNetworkInterface _
  | ec2_DetachInternetGateway _ _ | ec2_DeleteInternetGateway _
  | ec2_DeleteSubnet _ | ec2_DeleteRouteTable _
  | ec2_DeleteSecurityGroup _ | ec2_DeleteVpc _
  | eks_DeleteCluster _ => true
  | _ => false
  end.

(** Requests that change remote state: everything but configuration
    loading, the clock, the prompts and the describe/list requests. *)
Definition mutating (c : Call) : bool :=
  match c with
  | config_LoadDefaultConfig _ | time_Now
  | survey_Select _ _ | survey_Input _ _ _ | survey_Confirm _ _
  | survey_MultiSelect _ _
  | sts_GetCallerIdentity
  | ec2_DescribeVpcs _ | ec2_DescribeSubnets _ | ec2_DescribeInternetGateways _
  | ec2_DescribeRouteTables _ | ec2_DescribeSecurityGroups _
  | ec2_DescribeNetworkInterfaces _
  | eks_DescribeClusterVersions _ | eks_ListClusters | eks_DescribeCluster _ => false
  | _ => true
  end.

(** Operator prompts. *)
Definition prompting (c : Call) : bool :=
  match c with
  | survey_Select _ _ | survey_Input _ _ _ | survey_Confirm _ _
  | survey_MultiSelect _ _ => true
  | _ => false
  end.

Definition is_CreateCluster (c : Call) : bool :=
  match c with eks_CreateCluster _ => true | _ => false end.

Definition is_DeleteCluster (c : Call) : bool :=
  match c with eks_DeleteCluster _ => true | _ => false end.

(** The danger confirmation of the delete action. *)
Definition danger_prompt : Call := survey_Confirm MainGo.dangerMessage false.

(** Every call that [p] can ever issue satisfies [P]. *)
Fixpoint all_calls {A} (P : Call -> Prop) (p : Prog A) : Prop :=
  match p with
  | Vis c k => P c /\ forall r, all_calls P (k r)
  | _ => True
  end.

(** ** Gateways used as concrete scenarios

    [succeed] answers every call with success: prompts return their
    default (a required prompt without default is answered "demo"), create requests return fresh-looking identifiers, describe
    requests return an empty network and one cluster, "Sandbox-demo",
    tagged the way [CreateEKSCluster] tags it. *)
Definition succeed (c : Call) : Response c :=
  match c with
  | config_LoadDefaultConfig _ => Ok tt
  | time_Now => "2025-01-01"
  | survey_Select _ _ => Ok ""
  | survey_Input _ default required =>
      Ok (if required && String.eqb default "" then "demo" else default)
  | survey_Confirm _ default => Ok default
  | survey_MultiSelect _ _ => Ok []
  | sts_GetCallerIdentity =>
      Ok {| Account := Some "123456789012"; Arn := Some "arn:aws:iam::123456789012:user/dev" |}
  | ec2_CreateVpc _ _ => Ok {| CreateVpc_Vpc := Some {| VpcId := Some "vpc-1" |} |}
  | ec2_CreateSubnet _ cidr _ _ =>
      Ok {| CreateSubnet_Subnet := Some {| SubnetId := Some ("subnet-" +:+ cidr) |} |}
  | ec2_CreateInternetGateway _ =>
      Ok {| CreateInternetGateway_InternetGateway :=
              Some {| InternetGatewayId := Some "igw-1" |} |}
  | ec2_CreateRouteTable _ _ =>
      Ok {| CreateRouteTable_RouteTable :=
              Some {| RouteTableId := Some "rtb-1"; Associations := [] |} |}
  | ec2_CreateSecurityGroup _ _ _ _ =>
      Ok {| CreateSecurityGroup_GroupId := Some "sg-1" |}
  | ec2_DescribeVpcs _ => Ok {| Vpcs := [ {| VpcId := Some "vpc-1" |} ] |}
  | ec2_DescribeSubnets _ => Ok {| Subnets := [] |}
  | ec2_DescribeInternetGateways _ => Ok {| InternetGateways := [] |}
  | ec2_DescribeRouteTables _ => Ok {| RouteTables := [] |}
  | ec2_DescribeSecurityGroups _ => Ok {| SecurityGroups := [] |}
  | ec2_DescribeNetworkInterfaces _ => Ok {| NetworkInterfaces := [] |}
  | eks_DescribeClusterVersions _ =>
      Ok {| ClusterVersions := [ {| ClusterVersion := Some "1.31" |} ] |}
  | eks_ListClusters => Ok {| Clusters := ["Sandbox-demo"] |}
  | eks_DescribeCluster _ =>
      Ok {| DescribeCluster_Cluster :=
              Some {| Cluster_Tags :=
                        Some (<["CreatedBy" := "EKS-Sandbox-Tool"]>
                                (<["HostingVPC" := "isolated"]>
                                   (<["VpcId" := "vpc-1"]> ∅))) |} |}
  | iam_CreateRole _ _ | iam_AttachRolePolicy _ _
  | ec2_AttachInternetGateway _ _ | ec2_CreateRoute _ _ _
  | ec2_AssociateRouteTable _ _ | ec2_ModifySubnetAttribute _ _
  | ec2_DetachNetworkInterface _ _ | ec2_DeleteNetworkInterface _
  | ec2_DetachInternetGateway _ _ | ec2_DeleteInternetGateway _
  | ec2_DeleteSubnet _ | ec2_DeleteRouteTable _
  | ec2_DeleteSecurityGroup _ | ec2_DeleteVpc _
  | eks_CreateCluster _ | eks_DeleteCluster _ | eks_CreateAddon _ _ =>
      Ok tt
  end.

(** A stateless gateway from a table of answers. *)
Definition stateless (answer : forall c, Response c) : Gateway unit :=
  fun c w => (answer c, w).

Definition actionMessage : string := "What action do you want to perform?".

(** The operator asks to delete a cluster that does not carry the
    provenance tag, and declines the danger confirmation. *)
Definition foreign_cluster_declined : Gateway unit :=
  stateless (fun c =>
    match c as c' return Response c' -> Response c' with
    | survey_Select message _ => fun _ =>
        if String.eqb message actionMessage then Ok "Delete Cluster" else Ok "production"
    | eks_ListClusters => fun _ => Ok {| Clusters := ["production"] |}
    | eks_DescribeCluster _ => fun _ =>
        Ok {| DescribeCluster_Cluster :=
                Some {| Cluster_Tags := Some (<["team" := "payments"]> ∅) |} |}
    | survey_Confirm _ _ => fun _ => Ok false
    | _ => fun answer => answer
    end (succeed c)).

(** ** Version order *)

(** [descending a b]: [a] may stand before [b] in a list sorted in
    descending lexicographic order, that is, [b > a] is false. *)
Definition descending (a b : string) : Prop := string_gt b a = false.

(** ** Tag Guard *)

(** The value a cluster's tag set gives to [key], if any; [None] covers
    both a missing tag set and a missing key. *)
Definition tag_of (cluster : Cluster) (key : string) : option string :=
  Cluster_Tags cluster ≫= (fun tags => tags !! key).

(** The configuration cannot be loaded; everything else succeeds. *)
Definition config_unavailable : Gateway unit :=
  stateless (fun c =>
    match c as c' return Response c' -> Response c' with
    | config_LoadDefaultConfig _ => fun _ =>
        Err (ApiError "failed to get shared config profile")
    | _ => fun answer => answer
    end (succeed c)).


(** The call of this event reported an error. *)
Definition failed (ev : Event) : bool :=
  match ev with
  | Ev c r =>
      match c as c' return Response c' -> bool with
      | time_Now => fun _ => false
      | _ => fun r => negb (is_Ok r)
      end r
  end.







Definition is_LoadDefaultConfig (c : Call) : bool :=
  match c with config_LoadDefaultConfig _ => true | _ => false end.





(** The network holds one interface without an attachment (an interface
    that is available, not in use). *)
Definition unattached_interface : Gateway unit :=
  stateless (fun c =>
    match c as c' return Response c' -> Response c' with
    | ec2_DescribeNetworkInterfaces _ => fun _ =>
        Ok {| NetworkInterfaces :=
                [ {| NetworkInterfaceId := Some "eni-1"; Attachment := None |} ] |}
    | _ => fun answer => answer
    end (succeed c)).

(** The events recorded after the first one that satisfies [P]. *)
Fixpoint events_after (P : Event -> bool) (t : list Event) : list Event :=
  match t with
  | [] => []
  | ev :: rest => if P ev then rest else events_after P rest
  end.

(** The operator asks to delete "Sandbox-demo", a cluster that carries the
    provenance tag but not the isolated-hosting classification. *)
Definition tool_cluster_not_isolated : Gateway unit :=
  stateless (fun c =>
    match c as c' return Response c' -> Response c' with
    | survey_Select message _ => fun _ =>
        if String.eqb message actionMessage then Ok "Delete Cluster" else Ok "Sandbox-demo"
    | eks_DescribeCluster _ => fun _ =>
        Ok {| DescribeCluster_Cluster :=
                Some {| Cluster_Tags := Some (<["CreatedBy" := "EKS-Sandbox-Tool"]> ∅) |} |}
    | _ => fun answer => answer
    end (succeed c)).

(** The operator asks to delete "production", a cluster without any tag
    of the tool, and confirms the danger confirmation. *)
Definition foreign_cluster_confirmed : Gateway unit :=
  stateless (fun c =>
    match c as c' return Response c' -> Response c' with
    | survey_Select message _ => fun _ =>
        if String.eqb message actionMessage then Ok "Delete Cluster" else Ok "production"
    | eks_ListClusters => fun _ => Ok {| Clusters := ["production"] |}
    | eks_DescribeCluster _ => fun _ =>
        Ok {| DescribeCluster_Cluster :=
                Some {| Cluster_Tags := Some (<["team" := "payments"]> ∅) |} |}
    | survey_Confirm _ _ => fun _ => Ok true
    | _ => fun answer => answer
    end (succeed c)).

(** The operator asks to create a cluster; creating the default route and
    associating the route table fail; everything else succeeds. *)
Definition route_calls_fail : Gateway unit :=
  stateless (fun c =>
    match c as c' return Response c' -> Response c' with
    | survey_Select _ _ => fun _ => Ok "Create Cluster"
    | ec2_CreateRoute _ _ _ => fun _ => Err (ApiError "InvalidGatewayID.NotFound")
    | ec2_AssociateRouteTable _ _ => fun _ => Err (ApiError "InvalidSubnetID.NotFound")
    | _ => fun answer => answer
    end (succeed c)).

(** A stand-in for the [CreateEKSCluster] that [src/unnamed/part_002]
    calls: the one of [src/unnamed/part_001], with auto mode off. *)
Definition CreateEKSCluster_part_002 (region clusterName accountID : string)
    (subnetIDs securityGroupIDs : list string) (k8sVersion : string)
    (useExistingResources : bool) (vpcID : string) : Prog (result unit) :=
  CreateEKSCluster region clusterName accountID subnetIDs securityGroupIDs
                   k8sVersion vpcID false.

(** The multi-select prompt for the subnets to reuse. *)
Definition is_subnet_selection (c : Call) : bool :=
  match c with
  | survey_MultiSelect message _ => String.eqb message selectSubnetsMessage
  | _ => false
  end.

(** The operator chooses to reuse existing resources and picks a single
    subnet. *)
Definition reuse_one_subnet : Gateway unit :=
  stateless (fun c =>
    match c as c' return Response c' -> Response c' with
    | survey_Select message _ => fun _ =>
        if String.eqb message actionMessage then Ok "Create Cluster" else Ok "vpc-1"
    | survey_Confirm _ _ => fun _ => Ok true
    | ec2_DescribeSubnets _ => fun _ =>
        Ok {| Subnets := [ {| SubnetId := Some "subnet-a" |};
                           {| SubnetId := Some "subnet-b" |} ] |}
    | survey_MultiSelect _ _ => fun _ => Ok ["subnet-a"]
    | _ => fun answer => answer
    end (succeed c)).

(** ** The reuse path *)

(** The [main] functions that offer to reuse existing resources.  The
    [CreateEKSCluster] called by [src/unnamed/part_002] is a parameter; it
    is only required not to prompt the operator. *)
Inductive creation_main : Prog unit -> Prop :=
| main_part_000 : creation_main Part000.main
| main_part_002 CreateEKSCluster :
    (forall region clusterName accountID subnetIDs securityGroupIDs k8sVersion
            useExistingResources vpcID,
        all_calls (fun c => prompting c = false)
          (CreateEKSCluster region clusterName accountID subnetIDs
             securityGroupIDs k8sVersion useExistingResources vpcID)) ->
    creation_main (Part002.main CreateEKSCluster).

(** The run exits on the subnet check before any create-cluster call,
    provided it holds a subnet selection of fewer than two subnets. *)
Definition fails_before_cluster_creation (o : Outcome unit) (h : list Event) : Prop :=
  forall options selected,
    Ev (survey_MultiSelect selectSubnetsMessage options) (Ok selected) ∈ h ->
    length selected < 2 ->
    o = Exited (ErrorString "At least two subnets are required for EKS.")
    /\ Forall (fun ev => is_CreateCluster (ev_call ev) = false) h.

(** An event that is neither a subnet selection nor a create-cluster call. *)
Definition quiet (ev : Event) : Prop :=
  is_subnet_selection (ev_call ev) = false /\ is_CreateCluster (ev_call ev) = false.


(** ** Network teardown *)

(** The step of the teardown order to which a mutating call of [DeleteVPC]
    belongs: interfaces (0), internet gateways (1), subnets (2), route
    tables (3), security groups (4), the VPC itself (5). *)
Definition teardown_phase (c : Call) : option nat :=
  match c with
  | ec2_DetachNetworkInterface _ _ | ec2_DeleteNetworkInterface _ => Some 0
  | ec2_DetachInternetGateway _ _ | ec2_DeleteInternetGateway _ => Some 1
  | ec2_DeleteSubnet _ => Some 2
  | ec2_DeleteRouteTable _ => Some 3
  | ec2_DeleteSecurityGroup _ => Some 4
  | ec2_DeleteVpc _ => Some 5
  | _ => None
  end.

(** The phases of the mutating calls of a history, in order of issue. *)
Definition phases (h : list Event) : list nat :=
  omap (fun ev => teardown_phase (ev_call ev)) h.

(** The enumeration of the interfaces of a network. *)
Definition describe_interfaces (vpcID : string) : Call :=
  ec2_DescribeNetworkInterfaces (vpc_id_filter vpcID).

Definition is_DescribeNetworkInterfaces (c : Call) : bool :=
  match c with ec2_DescribeNetworkInterfaces _ => true | _ => false end.

(** The interface has been detached and deleted, both with success, in
    the history [h]. *)
Definition interface_removed (eni : NetworkInterface) (h : list Event) : Prop :=
  exists attachment,
    Attachment eni = Some attachment
    /\ Ev (ec2_DetachNetworkInterface (AttachmentId attachment) true) (Ok tt) ∈ h
    /\ Ev (ec2_DeleteNetworkInterface (NetworkInterfaceId eni)) (Ok tt) ∈ h.

(** The mutating calls of [h] come in teardown order and none is beyond
    phase [k]. *)
Definition ordered (k : nat) (h : list Event) : Prop :=
  StronglySorted le (phases h) /\ Forall (fun j => j <= k) (phases h).

(** The delete-VPC call, if issued, is the last call. *)
Definition vpc_last (h : list Event) : Prop :=
  forall pre vpcID answer post,
    h = pre ++ Ev (ec2_DeleteVpc vpcID) answer :: post -> post = [].

(** Whenever a call of a later phase than the interfaces is issued, every
    interface that the enumeration of the network returned has been
    detached and deleted before. *)
Definition interfaces_first (vpcID : string) (h : list Event) : Prop :=
  forall pre ev post k out eni,
    h = pre ++ ev :: post ->
    teardown_phase (ev_call ev) = Some k -> 1 <= k ->
    Ev (describe_interfaces vpcID) (Ok out) ∈ h ->
    eni ∈ NetworkInterfaces out ->
    interface_removed eni pre.

(** The teardown order of C3 on a history. *)
Definition teardown_order (vpcID : string) (h : list Event) : Prop :=
  StronglySorted le (phases h) /\ vpc_last h /\ interfaces_first vpcID h.

(** The only enumeration of interfaces in [h] returned [out]. *)
Definition enumerated (out : DescribeNetworkInterfacesOutput) (h : list Event) : Prop :=
  forall ev, ev ∈ h -> is_DescribeNetworkInterfaces (ev_call ev) = true ->
    exists vpcID, ev = Ev (describe_interfaces vpcID) (Ok out).

(** The invariant of [DeleteVPC] once the interfaces are gone. *)
Definition interfaces_gone (vpcID : string) (out : DescribeNetworkInterfacesOutput)
    (k : nat) (h : list Event) : Prop :=
  ordered k h /\ k <= 4 /\ enumerated out h
  /\ (forall eni, eni ∈ NetworkInterfaces out -> interface_removed eni h)
  /\ interfaces_first vpcID h.

(** The invariant of the interface loop of [DeleteVPC]: the interfaces
    [done] are gone and no call of a later phase has been issued. *)
Definition interfaces_in_progress (out : DescribeNetworkInterfacesOutput)
    (done : list NetworkInterface) (h : list Event) : Prop :=
  ordered 0 h /\ enumerated out h
  /\ (forall eni, eni ∈ done -> interface_removed eni h).

(** A network as the tool leaves it behind: one attached interface, one
    internet gateway, two subnets, the main route table and one more, the
    default security group and one more. *)
Definition populated_network : Gateway unit :=
  stateless (fun c =>
    match c as c' return Response c' -> Response c' with
    | ec2_DescribeNetworkInterfaces _ => fun _ =>
        Ok {| NetworkInterfaces :=
                [ {| NetworkInterfaceId := Some "eni-1";
                     Attachment := Some {| AttachmentId := Some "eni-attach-1" |} |} ] |}
    | ec2_DescribeInternetGateways _ => fun _ =>
        Ok {| InternetGateways := [ {| InternetGatewayId := Some "igw-1" |} ] |}
    | ec2_DescribeSubnets _ => fun _ =>
        Ok {| Subnets := [ {| SubnetId := Some "subnet-a" |};
                           {| SubnetId := Some "subnet-b" |} ] |}
    | ec2_DescribeRouteTables input => fun _ =>
        match RouteTableIds input with
        | [] =>
            Ok {| RouteTables :=
                    [ {| RouteTableId := Some "rtb-main"; Associations := [] |};
                      {| RouteTableId := Some "rtb-1"; Associations := [] |} ] |}
        | rtbID :: _ =>
            Ok {| RouteTables :=
                    [ {| RouteTableId := Some rtbID;
                         Associations :=
                           [ {| Main := Some (String.eqb rtbID "rtb-main") |} ] |} ] |}
        end
    | ec2_DescribeSecurityGroups input => fun _ =>
        match GroupIds input with
        | [] =>
            Ok {| SecurityGroups :=
                    [ {| GroupId := Some "sg-default"; GroupName := None |};
                      {| GroupId := Some "sg-1"; GroupName := None |} ] |}
        | sgID :: _ =>
            Ok {| SecurityGroups :=
                    [ {| GroupId := Some sgID;
                         GroupName :=
                           Some (if String.eqb sgID "sg-default"
                                 then "default" else "EKS-SG") |} ] |}
        end
    | _ => fun answer => answer
    end (succeed c)).

(** ** Protected resources of the teardown *)

(** The described route table (the first of the answer) has an
    association with the main flag set. *)
Definition main_described (out : DescribeRouteTablesOutput) : bool :=
  match RouteTables out with
  | rtb :: _ => isMainRouteTable rtb
  | [] => false
  end.

(** The described security group (the first of the answer) is named
    "default". *)
Definition default_described (out : DescribeSecurityGroupsOutput) : bool :=
  match SecurityGroups out with
  | sg :: _ =>
      match GroupName sg with
      | Some name => String.eqb name "default"
      | None => false
      end
  | [] => false
  end.

Definition is_DeleteRouteTable (c : Call) : bool :=
  match c with ec2_DeleteRouteTable _ => true | _ => false end.

Definition is_DeleteSecurityGroup (c : Call) : bool :=
  match c with ec2_DeleteSecurityGroup _ => true | _ => false end.

(** A delete-route-table call comes right after a successful describe of
    the same table that shows it is not the main one. *)
Definition route_tables_guarded (h : list Event) : Prop :=
  forall pre rtbID answer post,
    h = pre ++ Ev (ec2_DeleteRouteTable rtbID) answer :: post ->
    exists pre' out,
      pre = pre' ++ [Ev (describe_route_table rtbID) (Ok out)]
      /\ main_described out = false.

(** A delete-security-group call comes right after a successful describe
    of the same group that shows it is not named "default". *)
Definition security_groups_guarded (h : list Event) : Prop :=
  forall pre sgID answer post,
    h = pre ++ Ev (ec2_DeleteSecurityGroup sgID) answer :: post ->
    exists pre' out,
      pre = pre' ++ [Ev (describe_security_group sgID) (Ok out)]
      /\ default_described out = false.

(** The event is the describe of a protected resource: of a route table
    found to be the main one, or of a security group found to be the
    default one. *)
Definition skipping (ev : Event) : bool :=
  match ev with
  | Ev c r =>
      match c as c' return Response c' -> bool with
      | ec2_DescribeRouteTables input => fun r =>
          match RouteTableIds input, r with
          | [_], Ok out => main_described out
          | _, _ => false
          end
      | ec2_DescribeSecurityGroups input => fun r =>
          match GroupIds input, r with
          | [_], Ok out => default_described out
          | _, _ => false
          end
      | _ => fun _ => false
      end r
  end.

(** The run does not stop on the describe of a protected resource. *)
Definition continues_after_skip (h : list Event) : Prop :=
  forall pre ev, h = pre ++ [ev] -> skipping ev = false.

Definition guarded (h : list Event) : Prop :=
  route_tables_guarded h /\ security_groups_guarded h.

Definition teardown_guards (h : list Event) : Prop :=
  guarded h /\ continues_after_skip h.

(** * Further source functions and vocabulary *)

(** ** Failures in a history *)

(** The error that the call of an event reported, if it failed. *)
Definition reported (ev : Event) : option error :=
  match ev with
  | Ev c r =>
      match c as c' return Response c' -> option error with
      | time_Now => fun _ => None
      | _ => fun r => match r with Err e => Some e | Ok _ => None end
      end r
  end.

(** No call of the history failed. *)
Definition clean (h : list Event) : Prop := Forall (fun ev => failed ev = false) h.

(** The last call of the history failed, with the error [cause], and it
    is the only one that did. *)
Definition failed_last (cause : error) (h : list Event) : Prop :=
  exists h' ev, h = h' ++ [ev] /\ clean h' /\ reported ev = Some cause.

(** ** Version Resolver *)

(** The version is carried by an entry of the answer. *)
Definition offers (out : DescribeClusterVersionsOutput) (v : string) : Prop :=
  exists info, info ∈ ClusterVersions out /\ ClusterVersion info = Some v.

(** ** Cluster registry *)

(** A gateway that keeps the clusters of the account with their tags:
    [eks_CreateCluster] records the tags of the request under the name of
    the cluster and fails when the name is taken; [eks_DescribeCluster]
    answers with the recorded tags and fails for an unknown name;
    [eks_DeleteCluster] forgets the cluster; [eks_ListClusters] lists the
    names.  Every other call is answered as by [succeed]. *)
Definition cluster_registry : Gateway (gmap string (gmap string string)) :=
  fun c =>
    match c as c' return gmap string (gmap string string)
                         -> Response c' * gmap string (gmap string string) with
    | eks_CreateCluster input => fun clusters =>
        match clusters !! CreateCluster_Name input with
        | Some _ => (Err (ApiError "ResourceInUseException"), clusters)
        | None =>
            (Ok tt, <[CreateCluster_Name input := CreateCluster_Tags input]> clusters)
        end
    | eks_DescribeCluster name => fun clusters =>
        match clusters !! name with
        | Some tags =>
            (Ok {| DescribeCluster_Cluster := Some {| Cluster_Tags := Some tags |} |},
             clusters)
        | None => (Err (ApiError "ResourceNotFoundException"), clusters)
        end
    | eks_DeleteCluster name => fun clusters =>
        match clusters !! name with
        | Some _ => (Ok tt, delete name clusters)
        | None => (Err (ApiError "ResourceNotFoundException"), clusters)
        end
    | eks_ListClusters => fun clusters =>
        (Ok {| Clusters := map fst (map_to_list clusters) |}, clusters)
    | c' => fun clusters => (succeed c', clusters)
    end.

(** The describe call succeeds with an answer that carries no cluster
    object; everything else succeeds. *)
Definition describe_without_cluster : Gateway unit :=
  stateless (fun c =>
    match c as c' return Response c' -> Response c' with
    | eks_DescribeCluster _ => fun _ => Ok {| DescribeCluster_Cluster := None |}
    | _ => fun answer => answer
    end (succeed c)).

(** ** Loops over a list of requests *)

(** The successful request for automatic public addresses on a subnet. *)
Definition enabled (subnetID : string) : Event :=
  Ev (ec2_ModifySubnetAttribute subnetID true) (Ok tt).

(** The successful installation of an addon on a cluster. *)
Definition installed (clusterName addon : string) : Event :=
  Ev (eks_CreateAddon clusterName addon) (Ok tt).

(** The successful attachment of a policy to a role. *)
Definition attached (roleName policyArn : string) : Event :=
  Ev (iam_AttachRolePolicy roleName policyArn) (Ok tt).

(** ** The calls of the network teardown *)

(** The calls that [DeleteVPC vpcID] may issue: the configuration load,
    the listings of the resources of the VPC [vpcID], the describe
    requests for single route tables and security groups, and the detach
    and delete requests; gateway detachment and VPC deletion name
    [vpcID]. *)
Definition teardown_call (vpcID : string) (c : Call) : Prop :=
  match c with
  | config_LoadDefaultConfig _ => True
  | ec2_DescribeNetworkInterfaces filters => filters = vpc_id_filter vpcID
  | ec2_DescribeVpcs input => input = {| VpcIds := [vpcID] |}
  | ec2_DescribeInternetGateways filters =>
      filters = [ {| Name := "attachment.vpc-id"; Values := [vpcID] |} ]
  | ec2_DescribeSubnets filters => filters = vpc_id_filter vpcID
  | ec2_DescribeRouteTables input =>
      input = {| DescribeRouteTables_Filters := vpc_id_filter vpcID; RouteTableIds := [] |}
      \/ exists rtbID, c = describe_route_table rtbID
  | ec2_DescribeSecurityGroups input =>
      input = {| DescribeSecurityGroups_Filters := vpc_id_filter vpcID; GroupIds := [] |}
      \/ exists sgID, c = describe_security_group sgID
  | ec2_DetachNetworkInterface _ force => force = true
  | ec2_DeleteNetworkInterface _ => True
  | ec2_DetachInternetGateway _ vpcId => vpcId = vpcID
  | ec2_DeleteInternetGateway _ | ec2_DeleteSubnet _
  | ec2_DeleteRouteTable _ | ec2_DeleteSecurityGroup _ => True
  | ec2_DeleteVpc vpcId => vpcId = vpcID
  | _ => False
  end.

(** How a run of [DeleteVPC vpcID] with the calls [t] can end. *)
Definition teardown_result (vpcID : string) (o : Outcome (result unit))
    (t : list Event) : Prop :=
  match o with
  | Returned (Ok _) =>
      clean t /\ exists t', t = t' ++ [Ev (ec2_DeleteVpc vpcID) (Ok tt)]
  | Returned (Err err) =>
      exists message cause, err = Errorf message cause /\ failed_last cause t
  | Panicked _ => clean t \/ exists cause, failed_last cause t
  | Exited _ => False
  end.

(** ** The delete action of [src/main.go] *)

Definition selectClusterMessage : string := "Select the cluster to delete:".

Definition is_Select (c : Call) : bool :=
  match c with survey_Select _ _ => true | _ => false end.

(** The operator asks to delete "Sandbox-demo", created by the tool in an
    isolated VPC, and accepts the deletion of the VPC; everything
    succeeds on an empty network. *)
Definition delete_sandbox_demo : Gateway unit :=
  stateless (fun c =>
    match c as c' return Response c' -> Response c' with
    | survey_Select message _ => fun _ =>
        if String.eqb message actionMessage then Ok "Delete Cluster" else Ok "Sandbox-demo"
    | _ => fun answer => answer
    end (succeed c)).

(** As [delete_sandbox_demo], but the deletion of the cluster is denied. *)
Definition deletion_denied : Gateway unit :=
  stateless (fun c =>
    match c as c' return Response c' -> Response c' with
    | survey_Select message _ => fun _ =>
        if String.eqb message actionMessage then Ok "Delete Cluster" else Ok "Sandbox-demo"
    | eks_DeleteCluster _ => fun _ => Err (ApiError "AccessDeniedException")
    | _ => fun answer => answer
    end (succeed c)).

(** The run has stopped without returning normally. *)
Definition stopped {A} (o : Outcome A) : bool :=
  match o with Returned _ => false | _ => true end.

(** Every failed call of the history is its last call, and then the run
    has stopped. *)
Fixpoint fails_fast (t : list Event) (has_stopped : bool) : bool :=
  match t with
  | [] => true
  | ev :: post =>
      if failed ev then match post with [] => has_stopped | _ => false end
      else fails_fast post has_stopped
  end.

(** The account holds no cluster; the operator asks to delete one. *)
Definition no_clusters : Gateway unit :=
  stateless (fun c =>
    match c as c' return Response c' -> Response c' with
    | survey_Select _ _ => fun _ => Ok "Delete Cluster"
    | eks_ListClusters => fun _ => Ok {| Clusters := [] |}
    | _ => fun answer => answer
    end (succeed c)).

(** As [delete_sandbox_demo], but the operator keeps the VPC. *)
Definition delete_cluster_keep_vpc : Gateway unit :=
  stateless (fun c =>
    match c as c' return Response c' -> Response c' with
    | survey_Select message _ => fun _ =>
        if String.eqb message actionMessage then Ok "Delete Cluster" else Ok "Sandbox-demo"
    | survey_Confirm _ _ => fun _ => Ok false
    | _ => fun answer => answer
    end (succeed c)).

Definition is_ListClusters (c : Call) : bool :=
  match c with eks_ListClusters => true | _ => false end.

(** The question about the VPC of the delete action of [src/main.go]. *)
Definition vpc_question : Call := survey_Confirm MainGo.deleteVpcMessage true.

(** ** The create action of [src/main.go] *)

(** The requests of the three steps whose result [main] discards
    ([CreateRoute] and the two [AssociateRouteTable]). *)
Definition route_request (c : Call) : bool :=
  match c with
  | ec2_CreateRoute _ _ _ | ec2_AssociateRouteTable _ _ => true
  | _ => false
  end.

(** The event is the successful creation of the route table. *)
Definition route_table_created (ev : Event) : bool :=
  match ev with
  | Ev c r =>
      match c as c' return Response c' -> bool with
      | ec2_CreateRouteTable _ _ => fun r => is_Ok r
      | _ => fun _ => false
      end r
  end.

(** The number of configuration loads recorded since the route table was
    created; [None] when it has not been created. *)
Fixpoint loads_since_route_table (pre : list Event) : option nat :=
  match pre with
  | [] => None
  | ev :: rest =>
      if route_table_created ev
      then Some (length (List.filter (fun ev => is_LoadDefaultConfig (ev_call ev)) rest))
      else loads_since_route_table rest
  end.

(** The failures on which [main] does not act: IAM answers that the role
    exists already; a request of one of the three discarded steps fails;
    the configuration load of one of these steps fails (their loads are
    the first three after the creation of the route table).  [pre] holds
    the events recorded before [ev]. *)
Definition tolerated (pre : list Event) (ev : Event) : bool :=
  match ev with
  | Ev c r =>
      match c as c' return Response c' -> bool with
      | iam_CreateRole _ _ => fun r =>
          match r with
          | Err (EntityAlreadyExistsException _) => true
          | _ => false
          end
      | ec2_CreateRoute _ _ _ | ec2_AssociateRouteTable _ _ => fun _ => true
      | config_LoadDefaultConfig _ => fun _ =>
          match loads_since_route_table pre with
          | Some n => n <? 3
          | None => false
          end
      | _ => fun _ => false
      end r
  end.

Definition is_nil {X} (l : list X) : bool :=
  match l with [] => true | _ => false end.

(** After a tolerated failure the run goes on; any other failure is the
    last call of the run, which has then stopped.  [pre] holds the events
    recorded before [t].  (The failure of an event is looked at last, so
    that the check computes on events whose answer is not known.) *)
Fixpoint acts_on_failures (pre t : list Event) (has_stopped : bool) : bool :=
  match t with
  | [] => true
  | ev :: post =>
      (if (if tolerated pre ev then negb (is_nil post)
           else is_nil post && has_stopped)
       then true
       else negb (failed ev))
      && acts_on_failures (pre ++ [ev]) post has_stopped
  end.

(** An event that plays no part in the tolerated failures. *)
Definition plain (ev : Event) : bool :=
  negb (route_table_created ev)
  && negb (route_request (ev_call ev))
  && match ev_call ev with iam_CreateRole _ _ => false | _ => true end.

(** ** What the create action builds *)

(** The VPC [vpcID] was created with success in the history [h]. *)
Definition created_vpc (h : list Event) (vpcID : string) : Prop :=
  exists cidr tags out vpc,
    aws_ToString (VpcId vpc) = vpcID
    /\ CreateVpc_Vpc out = Some vpc
    /\ Ev (ec2_CreateVpc cidr tags) (Ok out) ∈ h.

(** The subnet [subnetID] was created with success in the VPC [vpcID]. *)
Definition created_subnet (h : list Event) (vpcID subnetID : string) : Prop :=
  exists cidr zone tags out subnet,
    aws_ToString (SubnetId subnet) = subnetID
    /\ CreateSubnet_Subnet out = Some subnet
    /\ Ev (ec2_CreateSubnet vpcID cidr zone tags) (Ok out) ∈ h.

(** The security group [groupID] was created with success in the VPC
    [vpcID]. *)
Definition created_security_group (h : list Event) (vpcID groupID : string) : Prop :=
  exists name description tags out,
    aws_ToString (CreateSecurityGroup_GroupId out) = groupID
    /\ Ev (ec2_CreateSecurityGroup name description vpcID tags) (Ok out) ∈ h.

(** The tags that the tool puts on a cluster hosted in the VPC [vpcID]. *)
Definition sandbox_tags (vpcID : string) : gmap string string :=
  <["CreatedBy" := "EKS-Sandbox-Tool"]>
    (<["HostingVPC" := "isolated"]> (<["VpcId" := vpcID]> ∅)).

Definition autoModeMessage : string :=
  "Do you want to enable auto mode for the cluster? Default: Yes".

Definition addonsMessage : string :=
  "Do you want to install CoreDNS, Kubeproxy, VPC_CNI  addons ? Default: Yes".

Definition is_CreateAddon (c : Call) : bool :=
  match c with eks_CreateAddon _ _ => true | _ => false end.

(** The operator asks to create a cluster with the addons; everything
    succeeds. *)
Definition create_with_addons : Gateway unit :=
  stateless (fun c =>
    match c as c' return Response c' -> Response c' with
    | survey_Select _ _ => fun _ => Ok "Create Cluster"
    | survey_Input message default _ => fun _ =>
        if String.eqb message "Enter the name of the EKS cluster:" then Ok "demo"
        else Ok default
    | survey_Confirm _ _ => fun _ => Ok true
    | _ => fun answer => answer
    end (succeed c)).

(** The create-cluster request [input] is for the network created in the
    history [pre]. *)
Definition in_own_network (pre : list Event) (input : CreateClusterInput) : Prop :=
  exists vpcID subnet1 subnet2 group,
    CreateCluster_Tags input = sandbox_tags vpcID
    /\ SubnetIds input = [subnet1; subnet2]
    /\ SecurityGroupIds input = [group]
    /\ created_vpc pre vpcID
    /\ created_subnet pre vpcID subnet1
    /\ created_subnet pre vpcID subnet2
    /\ enabled subnet1 ∈ pre
    /\ enabled subnet2 ∈ pre
    /\ created_security_group pre vpcID group
    /\ (exists gateway, Ev (ec2_AttachInternetGateway gateway vpcID) (Ok tt) ∈ pre).

(** The create-cluster request [input] follows the answers of the
    operator and the identity of the caller recorded in [pre]. *)
Definition follows_the_answers (pre : list Event) (input : CreateClusterInput) : Prop :=
  exists name version latest auto identity versions,
    CreateCluster_Name input = "Sandbox-" +:+ name
    /\ CreateCluster_Version input = version
    /\ RoleArn input
       = "arn:aws:iam::" +:+ aws_ToString (Account identity) +:+ ":role/EKSClusterRole"
    /\ ComputeConfig input = (if auto : bool then Some true else None)
    /\ ElasticLoadBalancing input = (if auto : bool then Some true else None)
    /\ BlockStorage input = (if auto : bool then Some true else None)
    /\ getLatestVersion (omap ClusterVersion (ClusterVersions versions)) = Some latest
    /\ Ev (eks_DescribeClusterVersions true) (Ok versions) ∈ pre
    /\ Ev (survey_Input "Enter the name of the EKS cluster:" "" true) (Ok name) ∈ pre
    /\ Ev (survey_Input "Enter the Kubernetes version default:" latest false)
          (Ok version) ∈ pre
    /\ Ev (survey_Confirm autoModeMessage false) (Ok auto) ∈ pre
    /\ Ev sts_GetCallerIdentity (Ok identity) ∈ pre
    /\ attached "EKSClusterRole" "arn:aws:iam::aws:policy/AmazonEKSClusterPolicy" ∈ pre
    /\ attached "EKSClusterRole"
         "arn:aws:iam::aws:policy/AmazonEKSVPCResourceController" ∈ pre.

(** The calls of [InstallAddons] on the cluster [clusterName]. *)
Definition addon_call (clusterName : string) (c : Call) : Prop :=
  match c with
  | config_LoadDefaultConfig _ => True
  | eks_CreateAddon name addon =>
      name = clusterName /\ addon ∈ ["coredns"; "kube-proxy"; "vpc-cni"]
  | _ => False
  end.

(** ** The reuse path of [src/unnamed/part_000] *)

(** Requests that build a network: create, attach, associate and modify
    requests of EC2. *)
Definition builds_network (c : Call) : bool :=
  match c with
  | ec2_CreateVpc _ _ | ec2_CreateSubnet _ _ _ _
  | ec2_CreateInternetGateway _ | ec2_AttachInternetGateway _ _
  | ec2_CreateRouteTable _ _ | ec2_CreateRoute _ _ _
  | ec2_AssociateRouteTable _ _ | ec2_ModifySubnetAttribute _ _
  | ec2_CreateSecurityGroup _ _ _ _ => true
  | _ => false
  end.

(** The operator has not answered yes to the question [message]. *)
Definition not_accepted (message : string) (ev : Event) : bool :=
  match ev with
  | Ev c r =>
      match c as c' return Response c' -> bool with
      | survey_Confirm m _ => fun r =>
          match r with
          | Ok true => negb (String.eqb m message)
          | _ => true
          end
      | _ => fun _ => true
      end r
  end.

(** The create-cluster request [input] uses what the operator selected
    in [pre]: at least two subnets, picked from the listing of the
    subnets of the selected VPC, and the security groups picked from the
    listing of the security groups of that VPC. *)
Definition reuses_the_selection (pre : list Event) (input : CreateClusterInput) : Prop :=
  exists vpcs vpcID subnets securityGroups listedSubnets listedGroups,
    SubnetIds input = subnets
    /\ SecurityGroupIds input = securityGroups
    /\ 2 <= length subnets
    /\ Ev (survey_Select "Select an existing VPC:" vpcs) (Ok vpcID) ∈ pre
    /\ Ev (ec2_DescribeSubnets (vpc_id_filter vpcID)) (Ok listedSubnets) ∈ pre
    /\ Ev (survey_MultiSelect selectSubnetsMessage
             (map (fun subnet => aws_ToString (SubnetId subnet)) (Subnets listedSubnets)))
          (Ok subnets) ∈ pre
    /\ Ev (ec2_DescribeSecurityGroups
             {| DescribeSecurityGroups_Filters := vpc_id_filter vpcID; GroupIds := [] |})
          (Ok listedGroups) ∈ pre
    /\ Ev (survey_MultiSelect "Select security groups to use:"
             (map (fun sg => aws_ToString (GroupId sg)) (SecurityGroups listedGroups)))
          (Ok securityGroups) ∈ pre.

(** The operator chooses to reuse existing resources and picks two
    subnets and one security group. *)
Definition reuse_two_subnets : Gateway unit :=
  stateless (fun c =>
    match c as c' return Response c' -> Response c' with
    | survey_Select _ _ => fun _ => Ok "vpc-1"
    | survey_Confirm _ _ => fun _ => Ok true
    | ec2_DescribeSubnets _ => fun _ =>
        Ok {| Subnets := [ {| SubnetId := Some "subnet-a" |};
                           {| SubnetId := Some "subnet-b" |} ] |}
    | survey_MultiSelect message _ => fun _ =>
        if String.eqb message selectSubnetsMessage
        then Ok ["subnet-a"; "subnet-b"] else Ok ["sg-1"]
    | _ => fun answer => answer
    end (succeed c)).

(** ** Helpers of the create action *)

(** The answer to the create-role call lets [IamOperations] go on: the
    role was created, or it exists already. *)
Definition role_available (created : result unit) : Prop :=
  match created with
  | Ok _ => True
  | Err err => exists message, err = EntityAlreadyExistsException message
  end.

(** ** What a successful teardown has removed *)

(** The internet gateway was detached from the VPC and deleted, both
    with success. *)
Definition gateway_removed (vpcID igwID : string) (t : list Event) : Prop :=
  Ev (ec2_DetachInternetGateway igwID vpcID) (Ok tt) ∈ t
  /\ Ev (ec2_DeleteInternetGateway igwID) (Ok tt) ∈ t.

(** The subnet was deleted with success. *)
Definition subnet_removed (subnetID : string) (t : list Event) : Prop :=
  Ev (ec2_DeleteSubnet subnetID) (Ok tt) ∈ t.

(** The route table was deleted with success, or its describe showed
    the main table. *)
Definition route_table_handled (rtbID : string) (t : list Event) : Prop :=
  Ev (ec2_DeleteRouteTable rtbID) (Ok tt) ∈ t
  \/ exists out,
       Ev (describe_route_table rtbID) (Ok out) ∈ t /\ main_described out = true.

(** The security group was deleted with success, or its describe showed
    the default group. *)
Definition security_group_handled (sgID : string) (t : list Event) : Prop :=
  Ev (ec2_DeleteSecurityGroup sgID) (Ok tt) ∈ t
  \/ exists out,
       Ev (describe_security_group sgID) (Ok out) ∈ t /\ default_described out = true.

(** The history [t] holds a listing of each kind of resource of the VPC
    and the removal of everything listed, and the deletion of the VPC. *)
Definition network_removed (vpcID : string) (t : list Event) : Prop :=
  (exists out,
     Ev (describe_interfaces vpcID) (Ok out) ∈ t
     /\ Forall (fun eni => interface_removed eni t) (NetworkInterfaces out))
  /\ (exists out,
        Ev (ec2_DescribeInternetGateways
              [ {| Name := "attachment.vpc-id"; Values := [vpcID] |} ]) (Ok out) ∈ t
        /\ Forall (fun igw =>
                     gateway_removed vpcID (aws_ToString (InternetGatewayId igw)) t)
                  (InternetGateways out))
  /\ (exists out,
        Ev (ec2_DescribeSubnets (vpc_id_filter vpcID)) (Ok out) ∈ t
        /\ Forall (fun subnet => subnet_removed (aws_ToString (SubnetId subnet)) t)
                  (Subnets out))
  /\ (exists out,
        Ev (ec2_DescribeRouteTables
              {| DescribeRouteTables_Filters := vpc_id_filter vpcID;
                 RouteTableIds := [] |}) (Ok out) ∈ t
        /\ Forall (fun rtb => route_table_handled (aws_ToString (RouteTableId rtb)) t)
                  (RouteTables out))
  /\ (exists out,
        Ev (ec2_DescribeSecurityGroups
              {| DescribeSecurityGroups_Filters := vpc_id_filter vpcID;
                 GroupIds := [] |}) (Ok out) ∈ t
        /\ Forall (fun sg => security_group_handled (aws_ToString (GroupId sg)) t)
                  (SecurityGroups out))
  /\ Ev (ec2_DeleteVpc vpcID) (Ok tt) ∈ t.
(** * Reasoning tools *)

Lemma Ev_inj c (r r' : Response c) : Ev c r = Ev c r' -> r = r'.
Proof.
  intros H. injection H as H.
  apply (Eqdep_dec.inj_pair2_eq_dec Call Call_eq_dec) in H. exact H.
Qed.

Lemma Ev_call_inj c c' r r' : Ev c r = Ev c' r' -> c = c'.
Proof. intros H. exact (f_equal ev_call H). Qed.

(** ** Soundness and structural rules of [wp] *)

Lemma wp_run {A} (p : Prog A) h Q :
  wp p h Q ->
  forall W (gw : Gateway W) (w : W),
    Q (outcome (run p gw w)) (h ++ trace (run p gw w)).
Proof.
  revert h. induction p as [a|e|m|c k IH]; intros h Hwp W gw w; simpl in *;
    rewrite ?app_nil_r; try exact Hwp.
  destruct (gw c w) as [r w'] eqn:Hgw. simpl.
  specialize (IH r _ (Hwp r) W gw w').
  rewrite <- app_assoc in IH. exact IH.
Qed.

Lemma wp_mono {A} (p : Prog A) h (Q Q' : Outcome A -> list Event -> Prop) :
  (forall o h', Q o h' -> Q' o h') -> wp p h Q -> wp p h Q'.
Proof.
  revert h. induction p as [a|e|m|c k IH]; intros h HQ Hwp; simpl in *; auto.
Qed.

Lemma wp_bind {A B} (p : Prog A) (f : A -> Prog B) h Q :
  wp (p ≫= f) h Q <-> wp p h (after f Q).
Proof.
  revert h. induction p as [a|e|m|c k IH]; intros h; simpl; try tauto.
  split; intros H r; apply IH, H.
Qed.

(** Loop rule: [I done h] holds when the elements [done] have been
    processed. *)
Lemma wp_for_range {X} (I : list X -> list Event -> Prop)
    (xs : list X) (body : X -> Prog (result unit)) h Q :
  I [] h ->
  (forall done x rest h', xs = done ++ x :: rest -> I done h' ->
     wp (body x) h' (fun o h'' =>
       match o with
       | Returned (Ok _) => I (done ++ [x]) h''
       | _ => Q o h''
       end)) ->
  (forall h', I xs h' -> Q (Returned (Ok tt)) h') ->
  wp (for_range xs body) h Q.
Proof.
  intros Hinit Hbody Hexit.
  assert (Hgen : forall rest done h', xs = done ++ rest -> I done h' ->
                   wp (for_range rest body) h' Q).
  { induction rest as [|x rest IH]; intros done h' Hxs HI; simpl.
    - rewrite app_nil_r in Hxs. subst done. auto.
    - apply wp_bind. eapply wp_mono; [|eapply Hbody; eauto].
      intros o h'' Ho. destruct o as [[[]|e]|e|m]; simpl; auto.
      apply (IH (done ++ [x])); auto. rewrite <- app_assoc. exact Hxs. }
  apply (Hgen xs []); auto.
Qed.

(** ** Footprints: what calls a program can issue *)

Lemma all_calls_impl {A} (P P' : Call -> Prop) (p : Prog A) :
  (forall c, P c -> P' c) -> all_calls P p -> all_calls P' p.
Proof. intros HP. induction p; simpl; intuition. Qed.

Lemma all_calls_bind {A B} (P : Call -> Prop) (p : Prog A) (f : A -> Prog B) :
  all_calls P p -> (forall a, all_calls P (f a)) -> all_calls P (p ≫= f).
Proof.
  intros Hp Hf. induction p as [a|e|m|c k IH]; simpl in *; auto.
  destruct Hp as [Hc Hk]. split; [exact Hc|]. intros r. apply IH, Hk.
Qed.

Lemma all_calls_for_range {X} (P : Call -> Prop) (xs : list X) body :
  (forall x, all_calls P (body x)) -> all_calls P (for_range xs body).
Proof.
  intros Hbody. induction xs as [|x xs IH]; simpl; [exact I|].
  apply all_calls_bind; [apply Hbody|]. intros [[]|e]; simpl; auto.
Qed.

(** A program whose calls all satisfy [P] extends the history by events
    whose calls satisfy [P]. *)
Lemma all_calls_wp {A} (P : Call -> Prop) (p : Prog A) h :
  all_calls P p ->
  wp p h (fun _ h' => exists t, h' = h ++ t /\ Forall (fun ev => P (ev_call ev)) t).
Proof.
  revert h. induction p as [a|e|m|c k IH]; intros h Hp; simpl in *;
    try (exists []; rewrite app_nil_r; split; [reflexivity|constructor]).
  destruct Hp as [Hc Hk]. intros r.
  eapply wp_mono; [|apply IH, Hk].
  intros o h' (t & -> & Ht). exists (Ev c r :: t).
  rewrite <- app_assoc. split; [reflexivity|]. constructor; auto.
Qed.

(** Deciding a footprint: unfold the program, split on loops; the
    footprints of programs taken as parameters come from the hint
    database. *)
Create HintDb footprint.

Ltac footprint :=
  repeat first
    [ discriminate
    | reflexivity
    | solve [ auto with footprint nocore ]
    | progress intros
    | progress cbn
    | progress unfold deref, isDefault
    | apply all_calls_for_range
    | apply all_calls_bind
    | match goal with
      | |- _ /\ _ => split
      | |- True => exact I
      | |- all_calls _ (match ?x with _ => _ end) => destruct x
      | |- all_calls _ (if ?x then _ else _) => destruct x
      end ].

(** If every call of [p] satisfies [P], a postcondition follows from what
    it says about extensions of the history by such calls. *)
Lemma wp_footprint {A} (P : Call -> Prop) (p : Prog A) h
    (Q : Outcome A -> list Event -> Prop) :
  all_calls P p ->
  (forall o t, Forall (fun ev => P (ev_call ev)) t -> Q o (h ++ t)) ->
  wp p h Q.
Proof.
  intros Hp HQ. eapply wp_mono; [|apply all_calls_wp, Hp].
  intros o h' (t & -> & Ht). auto.
Qed.

(** ** Symbolic execution of [wp] goals *)

(** The scrutinee on which the program at the head of a [wp] goal waits. *)
Ltac stuck_in p :=
  lazymatch p with
  | bind ?q _ => stuck_in q
  | mbind _ ?q => stuck_in q
  | match ?x with _ => _ end => x
  | if ?x then _ else _ => x
  end.

Ltac wp_case :=
  lazymatch goal with
  | |- wp ?p _ _ =>
      let x := stuck_in p in
      lazymatch x with
      | negb ?b => first [ is_var b; destruct b | destruct b eqn:? ]
      | _ => first [ is_var x; destruct x | destruct x eqn:? ]
      end
  end.

Ltac wp_exec :=
  repeat first
    [ progress cbn | progress intros | progress unfold deref
    | progress unfold isDefault | wp_case ].

(** Case analysis on membership in a history given element by element. *)
Ltac elem_cases H :=
  repeat (apply elem_of_cons in H as [H|H]);
  [ .. | apply elem_of_nil in H; destruct H ].

(** [H : Ev c r = Ev c' r'] where the calls or the responses differ. *)
Ltac other_event H :=
  first [ apply Ev_call_inj in H; discriminate H
        | apply Ev_inj in H; discriminate H ].

(** Membership of an event in a concrete history. *)
Ltac find_event :=
  repeat first [ apply list_elem_of_here | apply list_elem_of_further ].

(** Turn membership facts about concrete histories into equations
    between responses, and simplify. *)
Ltac event_facts :=
  repeat match goal with
    | H : _ ∈ _ :: _ |- _ => apply elem_of_cons in H as [H|H]
    | H : _ ∈ [] |- _ => apply elem_of_nil in H; destruct H
    | H : Ev _ _ = Ev _ _ |- _ =>
        first [ apply Ev_call_inj in H; discriminate H
              | apply Ev_inj in H ]
    | H : String.eqb _ _ = true |- _ => apply String.eqb_eq in H
    | H : String.eqb _ _ = false |- _ => apply String.eqb_neq in H
    | H : exists _, _ |- _ => destruct H as [? H]
    | H : _ /\ _ |- _ => destruct H
    | H : _ \/ _ |- _ => destruct H as [H|H]
    end;
  simplify_eq/=.

(** Case analysis on membership in a history [((h ++ [e1]) ++ ...) ++ [en]]:
    the first case is membership in [h], the others are equations. *)
Ltac history_cases H :=
  repeat (apply elem_of_app in H as [H|H]);
  try (apply list_elem_of_singleton in H).

(** [H : Ev c r = Ev c' r'] between events of the same kind of call:
    identify the arguments, then the responses. *)
Ltac same_event H :=
  let Hc := fresh "Hc" in
  pose proof (Ev_call_inj _ _ _ _ H) as Hc;
  simplify_eq Hc; intros; subst;
  apply Ev_inj in H; simplify_eq H; intros; subst.

(** * Version Resolver *)

Lemma compare_Lt_trans a b c :
  String.compare a b = Lt -> String.compare b c = Lt -> String.compare a c = Lt.
Proof.
  intros H1 H2.
  apply OrderedTypeEx.String_as_OT.cmp_lt.
  eapply OrderedTypeEx.String_as_OT.lt_trans;
    apply OrderedTypeEx.String_as_OT.cmp_lt; eassumption.
Qed.

Lemma descending_iff a b : descending a b <-> String.compare a b <> Lt.
Proof.
  unfold descending, string_gt, String.ltb.
  destruct (String.compare a b); split; congruence.
Qed.

Global Instance descending_total : Total descending.
Proof.
  intros a b. rewrite !descending_iff, (String.compare_antisym a b).
  destruct (String.compare b a); simpl; [left|left|right]; congruence.
Qed.

Global Instance descending_antisymm : AntiSymm (=) descending.
Proof.
  intros a b. rewrite !descending_iff, (String.compare_antisym b a).
  destruct (String.compare a b) eqn:E; simpl; try congruence.
  intros _ _. now apply String.compare_eq_iff.
Qed.

Global Instance descending_trans : Transitive descending.
Proof.
  intros a b c. rewrite !descending_iff. intros Hab Hbc Hac.
  destruct (String.compare a b) eqn:Eab; [|congruence|].
  - apply String.compare_eq_iff in Eab. subst. congruence.
  - destruct (String.compare b c) eqn:Ebc; [|congruence|].
    + apply String.compare_eq_iff in Ebc. subst. congruence.
    + assert (String.compare c b = Lt)
        by (rewrite String.compare_antisym, Ebc; reflexivity).
      assert (String.compare b a = Lt)
        by (rewrite String.compare_antisym, Eab; reflexivity).
      assert (String.compare c a = Lt) by (eapply compare_Lt_trans; eassumption).
      rewrite String.compare_antisym in Hac.
      destruct (String.compare c a); simpl in *; congruence.
Qed.

Lemma insert_left_Permutation x (rprefix : list string) :
  insert_left string_gt x rprefix ≡ₚ x :: rprefix.
Proof.
  induction rprefix as [|y rest IH]; simpl; [reflexivity|].
  destruct (string_gt x y); [|reflexivity].
  rewrite IH. apply Permutation_swap.
Qed.

Lemma insert_left_Sorted x (rprefix : list string) :
  Sorted (flip descending) rprefix ->
  Sorted (flip descending) (insert_left string_gt x rprefix).
Proof.
  induction 1 as [|y rest Hrest IH Hhd]; simpl; [repeat constructor|].
  destruct (string_gt x y) eqn:Hxy.
  - constructor; [exact IH|].
    destruct Hhd as [|z rest' Hz]; simpl.
    + constructor. unfold flip, descending, string_gt in *.
      unfold String.ltb in *. rewrite String.compare_antisym.
      destruct (String.compare y x); simpl in *; congruence.
    + destruct (string_gt x z); constructor; [exact Hz|].
      unfold flip, descending, string_gt in *.
      unfold String.ltb in *. rewrite String.compare_antisym.
      destruct (String.compare y x); simpl in *; congruence.
  - constructor; [constructor; assumption|]. constructor. exact Hxy.
Qed.

Lemma sort_Slice_spec (xs : list string) :
  Sorted descending (sort_Slice string_gt xs) /\ sort_Slice string_gt xs ≡ₚ xs.
Proof.
  unfold sort_Slice.
  assert (H : forall acc, Sorted (flip descending) acc ->
            let out := fold_left (fun rprefix x => insert_left string_gt x rprefix) xs acc in
            Sorted (flip descending) out /\ out ≡ₚ xs ++ acc).
  { induction xs as [|x xs IH]; intros acc Hacc; simpl; [auto|].
    destruct (IH (insert_left string_gt x acc)) as [Hs Hp].
    { now apply insert_left_Sorted. }
    split; [exact Hs|]. rewrite Hp, insert_left_Permutation.
    symmetry. apply Permutation_middle. }
  destruct (H [] (Sorted_nil _)) as [Hs Hp]. split.
  - apply Sorted_reverse in Hs. exact Hs.
  - rewrite reverse_Permutation, Hp, app_nil_r. reflexivity.
Qed.

(** C5. For every non-empty list of version strings, [getLatestVersion]
    returns the first element of the list sorted in descending
    lexicographic order: whatever descending-sorted rearrangement of the
    list one takes, its first element is the value returned, which is a
    member of the list that no member exceeds.  In particular, over
    ["1.28"; "1.9"; "1.10"] the result is "1.9". *)
Theorem getLatestVersion_first_of_descending :
  (forall versions : list string,
     versions <> [] ->
     exists latest,
       getLatestVersion versions = Some latest
       /\ (forall sorted, sorted ≡ₚ versions -> Sorted descending sorted ->
              head sorted = Some latest)
       /\ latest ∈ versions
       /\ (forall v, v ∈ versions -> descending latest v))
  /\ getLatestVersion ["1.28"; "1.9"; "1.10"] = Some "1.9".
Proof.
  split; [|reflexivity].
  intros versions Hne. unfold getLatestVersion.
  destruct (sort_Slice_spec versions) as [Hsorted Hperm].
  destruct (sort_Slice string_gt versions) as [|latest rest] eqn:Hsort.
  { apply Permutation_nil_l in Hperm. congruence. }
  exists latest. split; [reflexivity|]. split; [|split].
  - intros sorted Hp Hs.
    assert (sorted = latest :: rest) as ->; [|reflexivity].
    apply (Sorted_unique descending); auto. now rewrite Hp, Hperm.
  - rewrite <- Hperm. apply list_elem_of_here.
  - intros v Hv. rewrite <- Hperm in Hv.
    apply Sorted_StronglySorted in Hsorted; [|apply _].
    apply elem_of_cons in Hv as [->|Hv].
    + destruct (total descending latest latest); assumption.
    + apply StronglySorted_inv in Hsorted as [_ Hall].
      rewrite Forall_forall in Hall. auto.
Qed.

(** C5 at the list of the specification. *)
Lemma getLatestVersion_witness :
  exists latest,
    getLatestVersion ["1.28"; "1.9"; "1.10"] = Some latest
    /\ (forall sorted, sorted ≡ₚ ["1.28"; "1.9"; "1.10"] ->
           Sorted descending sorted -> head sorted = Some latest)
    /\ latest ∈ ["1.28"; "1.9"; "1.10"]
    /\ (forall v, v ∈ ["1.28"; "1.9"; "1.10"] -> descending latest v).
Proof.
  apply (proj1 getLatestVersion_first_of_descending ["1.28"; "1.9"; "1.10"]).
  discriminate.
Defined.

(** * Tag Guard *)

(** C7, amended. [CheckClusterTag] returns [true] exactly when the describe
    call succeeded and the cluster's tag set gives the key exactly the
    expected value; for a described cluster with a missing tag set, a
    missing key or another value it returns [false] without error; it
    returns an error exactly when loading the configuration or the
    describe call failed; and it issues no mutating call. *)
Theorem CheckClusterTag_decides_tag
    W (gw : Gateway W) (w : W) (region clusterName tagName tagValue : string) :
  let r := run (CheckClusterTag region clusterName tagName tagValue) gw w in
  let described cluster :=
    Ev (eks_DescribeCluster clusterName)
       (Ok {| DescribeCluster_Cluster := Some cluster |}) ∈ trace r in
  (outcome r = Returned (Ok true) <->
     exists cluster, described cluster /\ tag_of cluster tagName = Some tagValue)
  /\ (forall cluster, described cluster ->
        tag_of cluster tagName <> Some tagValue ->
        outcome r = Returned (Ok false))
  /\ ((exists err, outcome r = Returned (Err err)) <->
        (exists e, Ev (config_LoadDefaultConfig region) (Err e) ∈ trace r)
        \/ (exists e, Ev (eks_DescribeCluster clusterName) (Err e) ∈ trace r))
  /\ Forall (fun ev => mutating (ev_call ev) = false) (trace r).
Proof.
  intros r described. subst r described.
  apply (wp_run (CheckClusterTag region clusterName tagName tagValue) []
    (fun o h =>
       (o = Returned (Ok true) <->
          exists cluster,
            Ev (eks_DescribeCluster clusterName)
               (Ok {| DescribeCluster_Cluster := Some cluster |}) ∈ h
            /\ tag_of cluster tagName = Some tagValue)
       /\ (forall cluster,
             Ev (eks_DescribeCluster clusterName)
                (Ok {| DescribeCluster_Cluster := Some cluster |}) ∈ h ->
             tag_of cluster tagName <> Some tagValue ->
             o = Returned (Ok false))
       /\ ((exists err, o = Returned (Err err)) <->
             (exists e, Ev (config_LoadDefaultConfig region) (Err e) ∈ h)
             \/ (exists e, Ev (eks_DescribeCluster clusterName) (Err e) ∈ h))
       /\ Forall (fun ev => mutating (ev_call ev) = false) h)).
  unfold CheckClusterTag, tag_of. wp_exec.
  all: try match goal with a : DescribeClusterOutput |- _ => destruct a end.
  all: repeat match goal with |- _ /\ _ => split | |- _ <-> _ => split end.
  all: intros; event_facts; eauto.
  all: try (repeat constructor; done).
  all: repeat match goal with
         | H : Cluster_Tags ?c = _, H' : context [Cluster_Tags ?c] |- _ =>
             rewrite H in H'; simpl in H'
         | H : ?g !! ?k = _, H' : context [?g !! ?k] |- _ =>
             rewrite H in H'; simpl in H'
         end.
  all: try congruence.
  - exists c. split; [find_event|]. rewrite Heqo0. simpl. done.
  - right. exists e. find_event.
  - left. exists e. find_event.
Qed.

(** C7 on the gateway of [succeed]: the cluster carries the provenance
    tag, so the check answers [true], without error or mutation. *)
Lemma CheckClusterTag_witness :
  let r := run (CheckClusterTag "eu-west-2" "Sandbox-demo" "CreatedBy"
                  "EKS-Sandbox-Tool") (stateless succeed) tt in
  outcome r = Returned (Ok true)
  /\ Forall (fun ev => mutating (ev_call ev) = false) (trace r).
Proof.
  pose proof (CheckClusterTag_decides_tag unit (stateless succeed) tt
                "eu-west-2" "Sandbox-demo" "CreatedBy" "EKS-Sandbox-Tool")
    as (Htrue & _ & _ & Hquiet).
  split; [|exact Hquiet].
  apply Htrue. eexists. split; [vm_compute; find_event|]. reflexivity.
Defined.

(** C7 as stated fails where the configuration cannot be loaded:
    [CheckClusterTag] returns an error although no describe call was
    issued, so none can have failed. *)
Lemma CheckClusterTag_error_without_describe :
  let r := run (CheckClusterTag "eu-west-2" "Sandbox-demo" "CreatedBy"
                  "EKS-Sandbox-Tool") config_unavailable tt in
  outcome r = Returned (Err (Errorf "unable to load AWS configuration"
                               (ApiError "failed to get shared config profile")))
  /\ trace r = [Ev (config_LoadDefaultConfig "eu-west-2")
                  (Err (ApiError "failed to get shared config profile"))]
  /\ ~ (exists e, Ev (eks_DescribeCluster "Sandbox-demo") (Err e) ∈ trace r).
Proof.
  split; [reflexivity|]. split; [reflexivity|].
  intros [e H]. cbn in H. event_facts.
Qed.
(** * Ensuring the IAM role *)

Lemma already_exists_test err :
  errors_As_EntityAlreadyExists err = true
  <-> exists message, err = EntityAlreadyExistsException message.
Proof.
  split.
  - destruct err; try discriminate. eauto.
  - intros [message ->]. reflexivity.
Qed.









(** * Network teardown: interfaces without attachment *)

(** C10. [DeleteVPC] reads [eni.Attachment.AttachmentId] without checking
    the attachment: when the first interface enumerated in the network has
    no attachment, the run panics with a nil dereference right after the
    enumeration; no detach is attempted and no error is returned. *)
Theorem DeleteVPC_panics_on_unattached_interface
    W (gw : Gateway W) (w w1 w2 : W) (region vpcID : string)
    (eni : NetworkInterface) (others : list NetworkInterface) :
  gw (config_LoadDefaultConfig region) w = (Ok tt, w1) ->
  gw (ec2_DescribeNetworkInterfaces (vpc_id_filter vpcID)) w1
    = (Ok {| NetworkInterfaces := eni :: others |}, w2) ->
  Attachment eni = None ->
  let r := run (DeleteVPC region vpcID) gw w in
  outcome r = Panicked nil_dereference
  /\ trace r =
       [ Ev (config_LoadDefaultConfig region) (Ok tt);
         Ev (ec2_DescribeNetworkInterfaces (vpc_id_filter vpcID))
            (Ok {| NetworkInterfaces := eni :: others |}) ].
Proof.
  intros Hcfg Hdescribe Hnil r. subst r.
  unfold DeleteVPC, wrapped, and_then. cbn.
  rewrite Hcfg. cbn. rewrite Hdescribe. cbn.
  unfold detachAndDeleteInterface, deref. rewrite Hnil. cbn.
  split; reflexivity.
Qed.

(** C10 on a network with one unattached interface. *)
Lemma DeleteVPC_unattached_interface_witness :
  outcome (run (DeleteVPC "eu-west-2" "vpc-1") unattached_interface tt)
  = Panicked nil_dereference.
Proof.
  apply (DeleteVPC_panics_on_unattached_interface unit unattached_interface
           tt tt tt "eu-west-2" "vpc-1"
           {| NetworkInterfaceId := Some "eni-1"; Attachment := None |} []
           eq_refl eq_refl eq_refl).
Defined.

(** * The teardown action of [src/main.go] *)

Local Arguments MainGo.afterWarning : simpl never.
Local Arguments MainGo.createCluster : simpl never.

Lemma createCluster_never_warns :
  all_calls (fun c => c <> danger_prompt) MainGo.createCluster.
Proof. unfold MainGo.createCluster, or_fatal. footprint. Qed.

Lemma afterWarning_never_warns region selectedCluster :
  all_calls (fun c => c <> danger_prompt)
            (MainGo.afterWarning region selectedCluster).
Proof.
  unfold MainGo.afterWarning, or_fatal, DeleteVPC, wrapped, and_then. footprint.
Qed.

(** C9. In every run of [main] in which the operator declines the danger
    confirmation (which is asked only for a cluster lacking the provenance
    tag), the run returns normally without having issued any detach or
    delete call; indeed it has issued no call that changes remote state. *)
Theorem declined_danger_confirmation_deletes_nothing
    W (gw : Gateway W) (w : W) :
  let r := run MainGo.main gw w in
  Ev danger_prompt (Ok false) ∈ trace r ->
  outcome r = Returned tt
  /\ Forall (fun ev => deleting (ev_call ev) = false
                       /\ mutating (ev_call ev) = false) (trace r).
Proof.
  intros r. subst r.
  apply (wp_run MainGo.main []
           (fun o h => Ev danger_prompt (Ok false) ∈ h ->
              o = Returned tt
              /\ Forall (fun ev => deleting (ev_call ev) = false
                                   /\ mutating (ev_call ev) = false) h)).
  unfold MainGo.main, MainGo.deleteCluster, danger_prompt.
  wp_exec;
    try (match goal with
         | |- wp _ _ _ =>
             eapply wp_footprint;
             [ first [ apply createCluster_never_warns
                     | apply afterWarning_never_warns ]
             | intros o t Ht H; apply elem_of_app in H as [H|H];
               [ elem_cases H; other_event H
               | rewrite Forall_forall in Ht; apply Ht in H;
                 destruct (H eq_refl) ] ]
         | H : _ ∈ _ |- _ => try (elem_cases H; other_event H)
         end);
    (split; [reflexivity | repeat constructor]).
Qed.

(** The scenario of C9 on a concrete gateway. *)
Lemma declined_danger_confirmation_witness :
  let r := run MainGo.main foreign_cluster_declined tt in
  outcome r = Returned tt
  /\ Forall (fun ev => deleting (ev_call ev) = false
                       /\ mutating (ev_call ev) = false) (trace r).
Proof.
  apply (declined_danger_confirmation_deletes_nothing unit
           foreign_cluster_declined tt).
  vm_compute. find_event.
Defined.

(** C1 fails on [src/main.go]: asked to delete a cluster that the tool
    created but that lacks the isolated-hosting tag, [main] passes the
    provenance check without asking the danger confirmation, finds the
    cluster not isolated, and returns normally having issued no
    delete-cluster call.  The same happens for a foreign cluster after the
    operator has answered the danger confirmation with yes.  The [main] of
    [src/unnamed/part_002] issues the delete-cluster call in both runs. *)
Theorem main_leaves_non_isolated_cluster_undeleted :
  let r := run MainGo.main tool_cluster_not_isolated tt in
  let r' := run MainGo.main foreign_cluster_confirmed tt in
  (outcome r = Returned tt
   /\ Forall (fun ev => ev_call ev <> danger_prompt) (trace r)
   /\ Forall (fun ev => is_DeleteCluster (ev_call ev) = false) (trace r))
  /\ (outcome r' = Returned tt
      /\ Ev danger_prompt (Ok true) ∈ trace r'
      /\ Forall (fun ev => is_DeleteCluster (ev_call ev) = false) (trace r'))
  /\ Exists (fun ev => ev_call ev = eks_DeleteCluster "Sandbox-demo")
       (trace (run (Part002.main CreateEKSCluster_part_002)
                 tool_cluster_not_isolated tt))
  /\ Exists (fun ev => ev_call ev = eks_DeleteCluster "production")
       (trace (run (Part002.main CreateEKSCluster_part_002)
                 foreign_cluster_confirmed tt)).
Proof.
  vm_compute. split; [|split; [|split]].
  - split; [reflexivity|]. split; [repeat constructor; discriminate|].
    repeat constructor.
  - split; [reflexivity|]. split; [find_event|]. repeat constructor.
  - repeat first [ left; reflexivity | right ].
  - repeat first [ left; reflexivity | right ].
Qed.

(** * The creation pipeline of [src/main.go] *)

(** C2 fails on [src/main.go]: the results of [CreateRoute] and of the two
    [AssociateRouteTable] calls are discarded.  When these three calls
    fail, the run goes on: the create-cluster call is issued after the
    first failure and [main] returns normally. *)
Theorem main_continues_after_route_failures :
  let r := run MainGo.main route_calls_fail tt in
  outcome r = Returned tt
  /\ map ev_call (List.filter failed (trace r))
     = [ ec2_CreateRoute "rtb-1" "0.0.0.0/0" "igw-1";
         ec2_AssociateRouteTable "rtb-1" "subnet-10.0.1.0/24";
         ec2_AssociateRouteTable "rtb-1" "subnet-10.0.2.0/24" ]
  /\ Exists (fun ev => is_CreateCluster (ev_call ev) = true)
       (events_after failed (trace r)).
Proof.
  vm_compute. split; [reflexivity|]. split; [reflexivity|].
  repeat first [ left; reflexivity | right ].
Qed.

(** * The reuse path of [src/unnamed/part_000] and [src/unnamed/part_002] *)

Local Arguments useExisting : simpl never.
Local Arguments Part000.createNew : simpl never.
Local Arguments Part002.createNew : simpl never.

Lemma quiet_not_selection h options selected :
  Forall quiet h ->
  Ev (survey_MultiSelect selectSubnetsMessage options) (Ok selected) ∈ h -> False.
Proof.
  intros Hq Hin. rewrite Forall_forall in Hq. destruct (Hq _ Hin) as [H _].
  discriminate H.
Qed.

Lemma useExisting_guard region rest h :
  Forall quiet h ->
  (forall vpcID subnets securityGroups,
     all_calls (fun c => is_subnet_selection c = false)
               (rest vpcID subnets securityGroups)) ->
  wp (useExisting region rest) h fails_before_cluster_creation.
Proof.
  intros Hh Hrest. unfold useExisting, selectExistingResource,
    selectMultipleSubnets, selectMultipleSecurityGroups, or_fatal.
  wp_exec.
  all: try (eapply wp_footprint; [apply Hrest|intros o t Ht]).
  all: intros options selected Hin Hlen.
  all: try (apply elem_of_app in Hin as [Hin|Hin];
            [|rewrite Forall_forall in Ht; apply Ht in Hin; discriminate Hin]).
  all: history_cases Hin;
         try (destruct (quiet_not_selection _ _ _ Hh Hin));
         try other_event Hin.
  all: same_event Hin.
  all: try (apply Nat.leb_gt in Heqb; lia).
  split; [reflexivity|].
  rewrite !Forall_app. repeat split; try (repeat constructor; fail).
  eapply Forall_impl; [exact Hh|]. intros ev [_ H]. exact H.
Qed.

Lemma quiet_history_fails_first o h :
  Forall quiet h -> fails_before_cluster_creation o h.
Proof.
  intros Hq options selected Hin _. destruct (quiet_not_selection _ _ _ Hq Hin).
Qed.

Lemma selection_free_guard (p : Prog unit) h :
  all_calls (fun c => is_subnet_selection c = false) p ->
  Forall quiet h ->
  wp p h fails_before_cluster_creation.
Proof.
  intros Hp Hq. eapply wp_footprint; [exact Hp|].
  intros o t Ht options selected Hin. apply elem_of_app in Hin as [Hin|Hin].
  - destruct (quiet_not_selection _ _ _ Hq Hin).
  - rewrite Forall_forall in Ht. apply Ht in Hin. discriminate Hin.
Qed.

(** After symbolic execution of a creation [main]: error exits happen
    before any subnet selection; the reuse branch is [useExisting_guard];
    the other branches never ask for a subnet selection. *)
Ltac creation_guard unfolding :=
  wp_exec;
  first
    [ solve [ apply quiet_history_fails_first; repeat constructor ]
    | solve [ apply useExisting_guard;
              [ repeat constructor | intros; try unfolding; footprint ] ]
    | solve [ apply selection_free_guard;
              [ try unfolding; footprint | repeat constructor ] ]
    | idtac ].

Lemma Part000_main_guard : wp Part000.main [] fails_before_cluster_creation.
Proof.
  unfold Part000.main, or_fatal.
  creation_guard ltac:(unfold Part000.createNew, or_fatal).
Qed.

Section Part002Guard.

Variable CreateEKSCluster :
  string -> string -> string -> list string -> list string -> string ->
  bool -> string -> Prog (result unit).

Hypothesis CreateEKSCluster_asks_nothing :
  forall region clusterName accountID subnetIDs securityGroupIDs k8sVersion
         useExistingResources vpcID,
    all_calls (fun c => prompting c = false)
      (CreateEKSCluster region clusterName accountID subnetIDs
         securityGroupIDs k8sVersion useExistingResources vpcID).

Lemma CreateEKSCluster_selection_free
    region clusterName accountID subnetIDs securityGroupIDs k8sVersion
    useExistingResources vpcID :
  all_calls (fun c => is_subnet_selection c = false)
    (CreateEKSCluster region clusterName accountID subnetIDs
       securityGroupIDs k8sVersion useExistingResources vpcID).
Proof.
  eapply all_calls_impl; [|apply CreateEKSCluster_asks_nothing].
  intros [] H; try discriminate H; reflexivity.
Qed.

Local Hint Resolve CreateEKSCluster_selection_free : footprint.

Lemma Part002_main_guard :
  wp (Part002.main CreateEKSCluster) [] fails_before_cluster_creation.
Proof.
  unfold Part002.main, Part002.createCluster, or_fatal.
  creation_guard
    ltac:(unfold Part002.createNew, Part002.deleteCluster, or_fatal).
Qed.

End Part002Guard.

(** C8. In every run of a [main] that offers the reuse path (the one of
    [src/unnamed/part_000], and the one of [src/unnamed/part_002] for any
    [CreateEKSCluster] that asks the operator nothing), if the operator is
    asked to select the subnets to reuse (which happens only when reuse
    was selected) and chooses fewer than two, the run exits with the error
    "At least two subnets are required for EKS." and no create-cluster
    call has been issued. *)
Theorem reuse_with_fewer_than_two_subnets_fails_first
    W (gw : Gateway W) (w : W) (program : Prog unit)
    (options selected : list string) :
  creation_main program ->
  let r := run program gw w in
  Ev (survey_MultiSelect selectSubnetsMessage options) (Ok selected) ∈ trace r ->
  length selected < 2 ->
  outcome r = Exited (ErrorString "At least two subnets are required for EKS.")
  /\ Forall (fun ev => is_CreateCluster (ev_call ev) = false) (trace r).
Proof.
  intros Hmain r. subst r.
  assert (Hwp : wp program [] fails_before_cluster_creation).
  { destruct Hmain as [|CreateEKSCluster Hasks].
    - apply Part000_main_guard.
    - apply Part002_main_guard, Hasks. }
  exact (wp_run program [] _ Hwp W gw w options selected).
Qed.

(** C8 on a run of [src/unnamed/part_000] in which the operator reuses
    resources and picks one subnet. *)
Lemma reuse_with_one_subnet_witness :
  let r := run Part000.main reuse_one_subnet tt in
  outcome r = Exited (ErrorString "At least two subnets are required for EKS.")
  /\ Forall (fun ev => is_CreateCluster (ev_call ev) = false) (trace r).
Proof.
  apply (reuse_with_fewer_than_two_subnets_fails_first unit reuse_one_subnet tt
           Part000.main ["subnet-a"; "subnet-b"] ["subnet-a"] main_part_000).
  - vm_compute. find_event.
  - simpl. lia.
Defined.

(** * Network teardown: the order of [DeleteVPC] *)

Lemma snoc_split {A} (h : list A) x pre y post :
  h ++ [x] = pre ++ y :: post ->
  (post = [] /\ pre = h /\ y = x)
  \/ (exists post', post = post' ++ [x] /\ h = pre ++ y :: post').
Proof.
  destruct post as [|z post' _] using rev_ind; intros Heq.
  - left. apply app_inj_tail in Heq as [-> ->]. auto.
  - right. exists post'.
    change (pre ++ y :: post' ++ [z]) with (pre ++ (y :: post') ++ [z]) in Heq.
    rewrite app_assoc in Heq. apply app_inj_tail in Heq as [-> ->]. auto.
Qed.

Lemma phases_snoc h ev :
  phases (h ++ [ev])
  = phases h ++ match teardown_phase (ev_call ev) with
                | Some j => [j]
                | None => []
                end.
Proof.
  unfold phases. rewrite omap_app. simpl.
  destruct (teardown_phase (ev_call ev)); reflexivity.
Qed.

Lemma phase_in_phases h ev k :
  ev ∈ h -> teardown_phase (ev_call ev) = Some k -> k ∈ phases h.
Proof. intros Hin Hk. apply list_elem_of_omap. eauto. Qed.

Lemma ordered_nil k : ordered k [].
Proof. split; constructor. Qed.

Lemma ordered_quiet k h ev :
  ordered k h -> teardown_phase (ev_call ev) = None -> ordered k (h ++ [ev]).
Proof.
  intros [Hs Hb] Hnone. unfold ordered.
  rewrite phases_snoc, Hnone, app_nil_r. auto.
Qed.

Lemma ordered_step k j h ev :
  ordered k h -> teardown_phase (ev_call ev) = Some j -> k <= j ->
  ordered j (h ++ [ev]).
Proof.
  intros [Hs Hb] Hsome Hle. unfold ordered. rewrite phases_snoc, Hsome.
  rewrite Forall_forall in Hb. split.
  - apply StronglySorted_app_2; [|exact Hs|repeat constructor].
    intros x1 x2 Hx1 Hx2. apply list_elem_of_singleton in Hx2 as ->.
    specialize (Hb _ Hx1). lia.
  - apply Forall_app. split; [|repeat constructor].
    apply Forall_forall. intros x Hx. specialize (Hb _ Hx). lia.
Qed.

Lemma ordered_bound k h ev j :
  ordered k h -> ev ∈ h -> teardown_phase (ev_call ev) = Some j -> j <= k.
Proof.
  intros [_ Hb] Hin Hj. rewrite Forall_forall in Hb.
  apply Hb. eapply phase_in_phases; eauto.
Qed.

Lemma vpc_last_bound k h : ordered k h -> k <= 4 -> vpc_last h.
Proof.
  intros Ho Hk pre vpcID answer post ->.
  assert (5 <= k); [|lia].
  eapply (ordered_bound k _ (Ev (ec2_DeleteVpc vpcID) answer)); eauto.
  apply elem_of_app. right. apply list_elem_of_here.
Qed.

Lemma vpc_last_snoc k h ev : ordered k h -> k <= 4 -> vpc_last (h ++ [ev]).
Proof.
  intros Ho Hk pre vpcID answer post Heq.
  apply snoc_split in Heq as [(Hpost & _)|(post' & _ & Hh)]; [exact Hpost|].
  exfalso. assert (5 <= k); [|lia].
  eapply (ordered_bound k _ (Ev (ec2_DeleteVpc vpcID) answer)); eauto.
  rewrite Hh. apply elem_of_app. right. apply list_elem_of_here.
Qed.

Lemma interface_removed_mono eni h t :
  interface_removed eni h -> interface_removed eni (h ++ t).
Proof.
  intros (attachment & Ha & Hdetach & Hdelete). exists attachment.
  rewrite !elem_of_app. auto.
Qed.

Lemma enumerated_snoc out h ev :
  enumerated out h -> is_DescribeNetworkInterfaces (ev_call ev) = false ->
  enumerated out (h ++ [ev]).
Proof.
  intros He Hev ev' Hin Hd. apply elem_of_app in Hin as [Hin|Hin]; [auto|].
  apply list_elem_of_singleton in Hin as ->. congruence.
Qed.

Lemma interfaces_first_early vpcID h : ordered 0 h -> interfaces_first vpcID h.
Proof.
  intros Ho pre ev post k out eni -> Hk Hle _ _.
  assert (k <= 0); [|lia].
  eapply (ordered_bound 0 _ ev); eauto.
  apply elem_of_app. right. apply list_elem_of_here.
Qed.

Lemma interfaces_first_snoc vpcID out h ev :
  enumerated out h ->
  (forall eni, eni ∈ NetworkInterfaces out -> interface_removed eni h) ->
  interfaces_first vpcID h ->
  is_DescribeNetworkInterfaces (ev_call ev) = false ->
  interfaces_first vpcID (h ++ [ev]).
Proof.
  intros He Hgone Hfirst Hev pre ev' post k out' eni Heq Hk Hle Hin Heni.
  assert (Hin' : Ev (describe_interfaces vpcID) (Ok out') ∈ h).
  { apply elem_of_app in Hin as [Hin|Hin]; [exact Hin|].
    apply list_elem_of_singleton in Hin. subst ev. discriminate Hev. }
  apply snoc_split in Heq as [(_ & -> & ->)|(post' & -> & Hh)].
  - destruct (He _ Hin' eq_refl) as [v Hv].
    pose proof (Ev_call_inj _ _ _ _ Hv) as Hc. simplify_eq Hc. intros ->.
    apply Ev_inj in Hv. simplify_eq Hv. intros ->. auto.
  - eapply Hfirst; eauto.
Qed.

Lemma interfaces_gone_snoc vpcID out k j h ev :
  interfaces_gone vpcID out k h ->
  is_DescribeNetworkInterfaces (ev_call ev) = false ->
  (teardown_phase (ev_call ev) = None /\ j = k)
  \/ (teardown_phase (ev_call ev) = Some j /\ k <= j <= 4) ->
  interfaces_gone vpcID out j (h ++ [ev]).
Proof.
  intros (Ho & Hk & He & Hgone & Hfirst) Hev Hphase.
  split; [|split; [|split; [|split]]].
  - destruct Hphase as [[Hnone ->]|[Hsome Hle]];
      [apply ordered_quiet|eapply ordered_step]; eauto. lia.
  - destruct Hphase as [[_ ->]|[_ Hle]]; lia.
  - now apply enumerated_snoc.
  - intros eni Heni. apply interface_removed_mono; auto.
  - eapply interfaces_first_snoc; eauto.
Qed.

Lemma teardown_order_early vpcID h : ordered 0 h -> teardown_order vpcID h.
Proof.
  intros Ho. split; [apply Ho|]. split.
  - eapply vpc_last_bound; [exact Ho|lia].
  - now apply interfaces_first_early.
Qed.

Lemma teardown_order_gone vpcID out k h :
  interfaces_gone vpcID out k h -> teardown_order vpcID h.
Proof.
  intros (Ho & Hk & _ & _ & Hfirst). split; [apply Ho|]. split; [|exact Hfirst].
  eapply vpc_last_bound; eauto.
Qed.

Lemma teardown_order_final vpcID out k h v answer :
  interfaces_gone vpcID out k h ->
  teardown_order vpcID (h ++ [Ev (ec2_DeleteVpc v) answer]).
Proof.
  intros (Ho & Hk & He & Hgone & Hfirst). split; [|split].
  - eapply (ordered_step k 5); eauto.
  - eapply vpc_last_snoc; eauto.
  - eapply interfaces_first_snoc; eauto.
Qed.

Lemma interfaces_gone_later vpcID out k k' h :
  interfaces_gone vpcID out k h -> k <= k' <= 4 -> interfaces_gone vpcID out k' h.
Proof.
  intros ([Hs Hb] & Hk & He & Hgone & Hfirst) Hle.
  split; [|split; [lia|auto]]. split; [exact Hs|].
  eapply Forall_impl; [exact Hb|]. intros j Hj. simpl in *. lia.
Qed.

Lemma interfaces_in_progress_snoc out done h ev :
  interfaces_in_progress out done h ->
  is_DescribeNetworkInterfaces (ev_call ev) = false ->
  teardown_phase (ev_call ev) = None \/ teardown_phase (ev_call ev) = Some 0 ->
  interfaces_in_progress out done (h ++ [ev]).
Proof.
  intros (Ho & He & Hdone) Hev Hphase. split; [|split].
  - destruct Hphase; [apply ordered_quiet|eapply ordered_step]; eauto.
  - now apply enumerated_snoc.
  - intros eni Heni. apply interface_removed_mono; auto.
Qed.

(** One call in the phase after the interfaces. *)
Ltac gone_step :=
  lazymatch goal with
  | HB : interfaces_gone ?v ?out ?k ?h |- wp _ (?h ++ [?ev]) _ =>
      let HB' := fresh "HB" in
      first
        [ assert (HB' : interfaces_gone v out k (h ++ [ev]))
            by (eapply interfaces_gone_snoc;
                [exact HB | reflexivity | left; split; reflexivity])
        | eassert (HB' : interfaces_gone v out _ (h ++ [ev]))
            by (eapply interfaces_gone_snoc;
                [exact HB | reflexivity | right; split; [reflexivity | lia]]) ];
      clear HB;
      let h' := fresh "h" in
      set (h' := h ++ [ev]) in *; clearbody h'
  end.

Ltac gone_exit :=
  lazymatch goal with
  | |- teardown_order _ _ =>
      first [ eapply teardown_order_gone; eassumption
            | eapply teardown_order_final; eassumption ]
  end.

(** The phase of the loop at the head of a program. *)
Ltac loop_phase p :=
  lazymatch p with
  | bind (for_range _ ?body) _ => loop_phase body
  | mbind _ (for_range _ ?body) => loop_phase body
  | detachAndDeleteGateway _ => constr:(1)
  | deleteSubnet => constr:(2)
  | deleteRouteTableUnlessMain => constr:(3)
  | deleteSecurityGroupUnlessDefault => constr:(4)
  end.

Ltac gone_loop :=
  lazymatch goal with
  | HB : interfaces_gone ?v ?out ?k ?h |- wp ?p ?h _ =>
      let k' := loop_phase p in
      apply wp_bind;
      apply wp_for_range with (I := fun _ h' => interfaces_gone v out k' h');
      [ apply (interfaces_gone_later v out k k' h HB); lia
      | let HB' := fresh "HB" in
        intros ? ? ? ? _ HB'; clear HB
      | let HB' := fresh "HB" in
        intros ? HB'; clear HB ]
  end.

Ltac gone_exec :=
  repeat first
    [ gone_exit
    | eassumption
    | gone_loop
    | gone_step
    | progress cbn
    | progress intros
    | progress unfold deref
    | progress unfold isDefault
    | wp_case ].

(** One call of the interface loop. *)
Ltac progress_step :=
  lazymatch goal with
  | HA : interfaces_in_progress ?out ?done ?h |- wp _ (?h ++ [?ev]) _ =>
      let HA' := fresh "HA" in
      assert (HA' : interfaces_in_progress out done (h ++ [ev]))
        by (apply interfaces_in_progress_snoc;
            [exact HA | reflexivity | first [left; reflexivity | right; reflexivity]])
  end.

Lemma interface_loop_body out done eni h
    (Q : Outcome (result unit) -> list Event -> Prop) :
  interfaces_in_progress out done h ->
  (forall o h', (forall e, o <> Returned (Ok e)) -> ordered 0 h' -> Q o h') ->
  (forall h', interfaces_in_progress out (done ++ [eni]) h' -> Q (Returned (Ok tt)) h') ->
  wp (detachAndDeleteInterface eni) h Q.
Proof.
  intros HA Hexit Hnext. unfold detachAndDeleteInterface, deref.
  destruct (Attachment eni) as [attachment|] eqn:Hatt; cbn.
  2: { apply Hexit; [discriminate|apply HA]. }
  intros detached. progress_step. destruct detached as [[]|e]; cbn.
  2: { destruct (NetworkInterfaceId eni); cbn;
         (apply Hexit; [discriminate|apply HA0]). }
  intros deleted. progress_step. destruct deleted as [[]|e]; cbn.
  2: { destruct (NetworkInterfaceId eni); cbn;
         (apply Hexit; [discriminate|apply HA1]). }
  apply Hnext. destruct HA1 as (Ho & He & Hdone). split; [exact Ho|].
  split; [exact He|]. intros eni' Hin.
  apply elem_of_app in Hin as [Hin|Hin]; [auto|].
  apply list_elem_of_singleton in Hin as ->.
  exists attachment. split; [exact Hatt|].
  rewrite !elem_of_app, !list_elem_of_singleton. auto.
Qed.

Lemma DeleteVPC_teardown_order region vpcID :
  wp (DeleteVPC region vpcID) [] (fun _ h => teardown_order vpcID h).
Proof.
  unfold DeleteVPC, wrapped, and_then. cbn.
  intros [a|e]; cbn; [|apply teardown_order_early; split; repeat constructor].
  intros [out|e]; cbn; [|apply teardown_order_early; split; repeat constructor].
  apply wp_bind.
  apply wp_for_range with (I := interfaces_in_progress out).
  - split; [split; repeat constructor|]. split.
    + intros ev Hin Hd. elem_cases Hin; subst ev; [discriminate Hd|].
      exists vpcID. reflexivity.
    + intros eni Hin. apply elem_of_nil in Hin. destruct Hin.
  - intros done eni rest h _ HA.
    apply (interface_loop_body out done eni h); [exact HA| |auto].
    intros o h' Hne Ho. destruct o as [[[]|e]|e|m]; cbn.
    + destruct (Hne tt eq_refl).
    + now apply teardown_order_early.
    + now apply teardown_order_early.
    + now apply teardown_order_early.
  - intros h (Ho & He & Hgone). cbn.
    assert (HB : interfaces_gone vpcID out 0 h).
    { split; [exact Ho|]. split; [lia|]. split; [exact He|]. split; [exact Hgone|].
      now apply interfaces_first_early. }
    clear Ho He Hgone.
    gone_exec.
Qed.

(** C3. In every run of [DeleteVPC] the mutating calls come in the fixed
    order interfaces, internet gateways, subnets, route tables, security
    groups, VPC (the phase of an earlier call never exceeds that of a later
    one); the delete-VPC call, when issued, is the last call of the run;
    and whenever a call of a later phase than the interfaces is issued (a
    gateway detach or delete, a subnet delete, ...), every interface that
    the enumeration of the network returned has been detached and deleted
    with success before it. *)
Theorem DeleteVPC_respects_teardown_order
    W (gw : Gateway W) (w : W) (region vpcID : string) :
  let t := trace (run (DeleteVPC region vpcID) gw w) in
  StronglySorted le (phases t)
  /\ (forall pre v answer post,
        t = pre ++ Ev (ec2_DeleteVpc v) answer :: post -> post = [])
  /\ (forall pre ev post k out eni,
        t = pre ++ ev :: post ->
        teardown_phase (ev_call ev) = Some k -> 1 <= k ->
        Ev (describe_interfaces vpcID) (Ok out) ∈ t ->
        eni ∈ NetworkInterfaces out ->
        interface_removed eni pre).
Proof.
  exact (wp_run (DeleteVPC region vpcID) [] _
           (DeleteVPC_teardown_order region vpcID) W gw w).
Qed.

(** C3 on the populated network: the phases of the run, and the interface
    removed before the internet gateway is detached. *)
Lemma DeleteVPC_teardown_order_witness :
  let t := trace (run (DeleteVPC "eu-west-2" "vpc-1") populated_network tt) in
  phases t = [0; 0; 1; 1; 2; 2; 3; 4; 5]
  /\ StronglySorted le (phases t)
  /\ interface_removed
       {| NetworkInterfaceId := Some "eni-1";
          Attachment := Some {| AttachmentId := Some "eni-attach-1" |} |}
       (take 7 t).
Proof.
  intros t.
  destruct (DeleteVPC_respects_teardown_order unit populated_network tt
              "eu-west-2" "vpc-1") as (Hsorted & _ & Hfirst).
  split; [reflexivity|]. split; [exact Hsorted|].
  apply (Hfirst (take 7 t) (Ev (ec2_DetachInternetGateway "igw-1" "vpc-1") (Ok tt))
           (drop 8 t) 1
           {| NetworkInterfaces :=
                [ {| NetworkInterfaceId := Some "eni-1";
                     Attachment := Some {| AttachmentId := Some "eni-attach-1" |} |} ] |}).
  - reflexivity.
  - reflexivity.
  - lia.
  - vm_compute. find_event.
  - find_event.
Defined.

(** * Network teardown: protected resources *)

Lemma guarded_nil : guarded [].
Proof.
  split; intros pre id answer post Heq;
    destruct pre; discriminate Heq.
Qed.

Lemma continues_nil : continues_after_skip [].
Proof. intros pre ev Heq. destruct pre; discriminate Heq. Qed.

Lemma continues_snoc h ev : skipping ev = false -> continues_after_skip (h ++ [ev]).
Proof.
  intros Hev pre ev' Heq. apply app_inj_tail in Heq as [_ <-]. exact Hev.
Qed.

Lemma guarded_snoc_quiet h ev :
  guarded h ->
  is_DeleteRouteTable (ev_call ev) = false ->
  is_DeleteSecurityGroup (ev_call ev) = false ->
  guarded (h ++ [ev]).
Proof.
  intros [Hrt Hsg] Hnrt Hnsg. split.
  - intros pre id answer post Heq.
    apply snoc_split in Heq as [(_ & _ & <-)|(post' & _ & Hh)];
      [discriminate Hnrt|eauto].
  - intros pre id answer post Heq.
    apply snoc_split in Heq as [(_ & _ & <-)|(post' & _ & Hh)];
      [discriminate Hnsg|eauto].
Qed.

Lemma guarded_snoc_route_table h rtbID out answer :
  guarded h -> main_described out = false ->
  guarded ((h ++ [Ev (describe_route_table rtbID) (Ok out)])
             ++ [Ev (ec2_DeleteRouteTable rtbID) answer]).
Proof.
  intros Hg Hmain.
  assert (Hg' : guarded (h ++ [Ev (describe_route_table rtbID) (Ok out)]))
    by (apply guarded_snoc_quiet; auto).
  destruct Hg' as [Hrt Hsg]. split.
  - intros pre id answer' post Heq.
    apply snoc_split in Heq as [(_ & -> & Hev)|(post' & _ & Hh)]; [|eauto].
    pose proof (Ev_call_inj _ _ _ _ Hev) as Hc. simplify_eq Hc. intros ->.
    eauto.
  - intros pre id answer' post Heq.
    apply snoc_split in Heq as [(_ & _ & Hev)|(post' & _ & Hh)]; [|eauto].
    apply Ev_call_inj in Hev. discriminate Hev.
Qed.

Lemma guarded_snoc_security_group h sgID out answer :
  guarded h -> default_described out = false ->
  guarded ((h ++ [Ev (describe_security_group sgID) (Ok out)])
             ++ [Ev (ec2_DeleteSecurityGroup sgID) answer]).
Proof.
  intros Hg Hdefault.
  assert (Hg' : guarded (h ++ [Ev (describe_security_group sgID) (Ok out)]))
    by (apply guarded_snoc_quiet; auto).
  destruct Hg' as [Hrt Hsg]. split.
  - intros pre id answer' post Heq.
    apply snoc_split in Heq as [(_ & _ & Hev)|(post' & _ & Hh)]; [|eauto].
    apply Ev_call_inj in Hev. discriminate Hev.
  - intros pre id answer' post Heq.
    apply snoc_split in Heq as [(_ & -> & Hev)|(post' & _ & Hh)]; [|eauto].
    pose proof (Ev_call_inj _ _ _ _ Hev) as Hc. simplify_eq Hc. intros ->.
    eauto.
Qed.

(** Record the invariant for the history extended by the call just made. *)
Ltac guard_assert :=
  lazymatch goal with
  | |- wp _ (?h ++ [?ev]) _ =>
      first
        [ assert (guarded (h ++ [ev]))
            by (apply guarded_snoc_quiet; [assumption | reflexivity | reflexivity])
        | assert (guarded (h ++ [ev]))
            by (apply guarded_snoc_route_table; [assumption|];
                unfold main_described; cbn; first [assumption | reflexivity])
        | assert (guarded (h ++ [ev]))
            by (apply guarded_snoc_security_group; [assumption|];
                unfold default_described; cbn;
                repeat match goal with H : _ = _ |- _ => rewrite H end;
                reflexivity) ]
  end.

Ltac guard_exit :=
  lazymatch goal with
  | |- teardown_guards _ =>
      split;
      [ assumption
      | first [ assumption
              | apply continues_snoc; unfold skipping, main_described,
                  default_described; cbn;
                repeat match goal with H : _ = _ |- _ => rewrite H end;
                reflexivity ] ]
  end.

Ltac guard_loop :=
  lazymatch goal with
  | |- wp ?p ?h _ =>
      let k := loop_phase p in
      apply wp_bind;
      apply wp_for_range with (I := fun _ h' => guarded h');
      [ assumption | intros ? ? ? ? _ ? | intros ? ? ]
  end.

(** The scrutinee is a field of a record held in a variable: open the
    record. *)
Ltac wp_case_record :=
  lazymatch goal with
  | |- wp ?p _ _ =>
      let x := stuck_in p in
      lazymatch x with
      | RouteTables ?a => is_var a; destruct a; cbn
      | SecurityGroups ?a => is_var a; destruct a; cbn
      | GroupName ?a => is_var a; destruct a; cbn
      end
  end.

Ltac guard_exec :=
  repeat first
    [ guard_exit
    | assumption
    | guard_loop
    | progress cbn
    | lazymatch goal with |- forall _, _ => intro; guard_assert end
    | progress unfold deref
    | progress unfold isDefault
    | wp_case_record
    | wp_case ].

Lemma DeleteVPC_teardown_guards region vpcID h :
  guarded h -> continues_after_skip h ->
  wp (DeleteVPC region vpcID) h (fun _ h' => teardown_guards h').
Proof.
  intros Hg Hc. unfold DeleteVPC, wrapped, and_then. cbn.
  intros cfg. guard_assert. destruct cfg as [[]|e]; cbn; [|guard_exit].
  intros described. guard_assert. destruct described as [out|e]; cbn; [|guard_exit].
  apply wp_bind.
  apply wp_for_range with (I := fun _ h' => teardown_guards h').
  - split; [assumption|]. apply continues_snoc. reflexivity.
  - intros done eni rest h' _ [Hg' Hc'].
    unfold detachAndDeleteInterface. guard_exec.
  - intros h' [Hg' Hc']. cbn. guard_exec.
Qed.

Lemma skipped_route_table_continues h pre rtbID out post :
  teardown_guards h ->
  h = pre ++ Ev (describe_route_table rtbID) (Ok out) :: post ->
  main_described out = true ->
  exists next post', post = next :: post' /\ is_DeleteRouteTable (ev_call next) = false.
Proof.
  intros [[Hrt _] Hcont] Hh Hmain. destruct post as [|next post'].
  - apply Hcont in Hh. cbn in Hh. congruence.
  - exists next, post'. split; [reflexivity|].
    destruct next as [c r]. destruct c; try reflexivity. exfalso.
    change (pre ++ Ev (describe_route_table rtbID) (Ok out)
              :: Ev (ec2_DeleteRouteTable routeTableId) r :: post')
      with (pre ++ [Ev (describe_route_table rtbID) (Ok out)]
              ++ Ev (ec2_DeleteRouteTable routeTableId) r :: post') in Hh.
    rewrite app_assoc in Hh.
    destruct (Hrt _ _ _ _ Hh) as (pre' & out' & Heq & Hmain').
    apply app_inj_tail in Heq as [_ Hev].
    pose proof (Ev_call_inj _ _ _ _ Hev) as Hc. simplify_eq Hc. intros ->.
    apply Ev_inj in Hev. simplify_eq Hev. intros ->. congruence.
Qed.

Lemma skipped_security_group_continues h pre sgID out post :
  teardown_guards h ->
  h = pre ++ Ev (describe_security_group sgID) (Ok out) :: post ->
  default_described out = true ->
  exists next post',
    post = next :: post' /\ is_DeleteSecurityGroup (ev_call next) = false.
Proof.
  intros [[_ Hsg] Hcont] Hh Hdefault. destruct post as [|next post'].
  - apply Hcont in Hh. cbn in Hh. congruence.
  - exists next, post'. split; [reflexivity|].
    destruct next as [c r]. destruct c; try reflexivity. exfalso.
    change (pre ++ Ev (describe_security_group sgID) (Ok out)
              :: Ev (ec2_DeleteSecurityGroup groupId) r :: post')
      with (pre ++ [Ev (describe_security_group sgID) (Ok out)]
              ++ Ev (ec2_DeleteSecurityGroup groupId) r :: post') in Hh.
    rewrite app_assoc in Hh.
    destruct (Hsg _ _ _ _ Hh) as (pre' & out' & Heq & Hdefault').
    apply app_inj_tail in Heq as [_ Hev].
    pose proof (Ev_call_inj _ _ _ _ Hev) as Hc. simplify_eq Hc. intros ->.
    apply Ev_inj in Hev. simplify_eq Hev. intros ->. congruence.
Qed.

(** C4. In every run of [DeleteVPC], a delete-route-table call comes right
    after a successful describe of the same table that shows no
    association with the main flag, and a delete-security-group call right
    after a successful describe of the same group that shows a name other
    than "default": a table described as main and a group described as
    "default" are never passed to the delete operations.  After the
    describe of such a table or group the run goes on: another call
    follows, and it is not a delete of a route table (of a security
    group). *)
Theorem DeleteVPC_protects_main_and_default
    W (gw : Gateway W) (w : W) (region vpcID : string) :
  let t := trace (run (DeleteVPC region vpcID) gw w) in
  (forall pre rtbID answer post,
     t = pre ++ Ev (ec2_DeleteRouteTable rtbID) answer :: post ->
     exists pre' out,
       pre = pre' ++ [Ev (describe_route_table rtbID) (Ok out)]
       /\ main_described out = false)
  /\ (forall pre sgID answer post,
        t = pre ++ Ev (ec2_DeleteSecurityGroup sgID) answer :: post ->
        exists pre' out,
          pre = pre' ++ [Ev (describe_security_group sgID) (Ok out)]
          /\ default_described out = false)
  /\ (forall pre rtbID out post,
        t = pre ++ Ev (describe_route_table rtbID) (Ok out) :: post ->
        main_described out = true ->
        exists next post',
          post = next :: post' /\ is_DeleteRouteTable (ev_call next) = false)
  /\ (forall pre sgID out post,
        t = pre ++ Ev (describe_security_group sgID) (Ok out) :: post ->
        default_described out = true ->
        exists next post',
          post = next :: post' /\ is_DeleteSecurityGroup (ev_call next) = false).
Proof.
  intros t.
  assert (Hguards : teardown_guards t).
  { exact (wp_run (DeleteVPC region vpcID) [] _
             (DeleteVPC_teardown_guards region vpcID [] guarded_nil continues_nil)
             W gw w). }
  split; [apply Hguards|]. split; [apply Hguards|]. split.
  - intros pre rtbID out post. now apply skipped_route_table_continues.
  - intros pre sgID out post. now apply skipped_security_group_continues.
Qed.

(** C4 on the populated network: "rtb-1" is deleted right after its
    describe, the main table "rtb-main" is described and passed over. *)
Lemma DeleteVPC_protects_main_witness :
  let t := trace (run (DeleteVPC "eu-west-2" "vpc-1") populated_network tt) in
  (exists pre' out,
     take 17 t = pre' ++ [Ev (describe_route_table "rtb-1") (Ok out)]
     /\ main_described out = false)
  /\ (exists next post',
        drop 16 t = next :: post' /\ is_DeleteRouteTable (ev_call next) = false).
Proof.
  intros t.
  destruct (DeleteVPC_protects_main_and_default unit populated_network tt
              "eu-west-2" "vpc-1") as (Hrt & _ & Hskip & _).
  split.
  - apply (Hrt (take 17 t) "rtb-1" (Ok tt) (drop 18 t)). reflexivity.
  - apply (Hskip (take 15 t) "rtb-main"
             {| RouteTables :=
                  [ {| RouteTableId := Some "rtb-main";
                       Associations := [ {| Main := Some true |} ] |} ] |}
             (drop 16 t)); reflexivity.
Defined.

(** * Further properties of the embedded code *)

(** ** Reasoning tools *)

(** The history before a program starts is a frame: the program neither
    reads nor changes it. *)
Lemma wp_prefix {A} (p : Prog A) h1 h2 (Q : Outcome A -> list Event -> Prop) :
  wp p (h1 ++ h2) Q <-> wp p h2 (fun o t => Q o (h1 ++ t)).
Proof.
  revert h2. induction p as [a|e|m|c k IH]; intros h2; simpl; try tauto.
  split; intros H r; specialize (H r).
  - apply IH. rewrite app_assoc. exact H.
  - apply IH in H. rewrite app_assoc in H. exact H.
Qed.

Lemma wp_frame {A} (p : Prog A) h (Q : Outcome A -> list Event -> Prop) :
  wp p [] (fun o t => Q o (h ++ t)) -> wp p h Q.
Proof. intros H. apply wp_prefix in H. rewrite app_nil_r in H. exact H. Qed.

Lemma wp_conj {A} (p : Prog A) h (Q Q' : Outcome A -> list Event -> Prop) :
  wp p h Q -> wp p h Q' -> wp p h (fun o h' => Q o h' /\ Q' o h').
Proof.
  revert h. induction p as [a|e|m|c k IH]; intros h H H'; simpl in *; auto.
Qed.

(** Using a fact proved about [p] run from the empty history inside a
    larger program. *)
Lemma wp_bind_frame {A B} (p : Prog A) (f : A -> Prog B) h
    (P : Outcome A -> list Event -> Prop) (Q : Outcome B -> list Event -> Prop) :
  wp p [] P ->
  (forall o t, P o t -> after f Q o (h ++ t)) ->
  wp (p ≫= f) h Q.
Proof.
  intros Hp HQ. apply wp_bind, wp_frame.
  eapply wp_mono; [|exact Hp]. auto.
Qed.

Lemma reported_failed ev cause : reported ev = Some cause -> failed ev = true.
Proof.
  destruct ev as [c r]. destruct c; simpl in *; try discriminate;
    destruct r; simpl; congruence.
Qed.

(** Splitting a history at an event. *)
Lemma app_split_event (h t pre post : list Event) ev :
  h ++ t = pre ++ ev :: post ->
  (exists post', h = pre ++ ev :: post' /\ post = post' ++ t)
  \/ (exists pre', pre = h ++ pre' /\ t = pre' ++ ev :: post).
Proof.
  revert pre. induction h as [|x h IH]; intros pre Heq; simpl in *.
  - right. exists pre. auto.
  - destruct pre as [|y pre]; simpl in *.
    + injection Heq as -> <-. left. exists h. auto.
    + injection Heq as -> Heq. destruct (IH _ Heq) as [(post' & -> & ->)|(pre' & -> & ->)].
      * left. exists post'. auto.
      * right. exists pre'. auto.
Qed.

(** Break a postcondition into its clauses. *)
Ltac clauses :=
  repeat first
    [ progress intros
    | match goal with |- _ /\ _ => split | |- _ <-> _ => split end ].

(** Case analysis on [H : Ev c r ∈ e1 :: ... :: en :: t]: the events of
    other calls are discarded, an event of the same call gives equations,
    and the last case is membership in the tail [t]. *)
Ltac in_history H :=
  repeat first
    [ apply elem_of_nil in H; destruct H
    | apply elem_of_cons in H as [H|H];
      [ first [ other_event H | same_event H ] | ] ].

(** The concrete prefix [e1; ...; en] of a history [e1 :: ... :: en :: t]. *)
Ltac prefix_of l t :=
  lazymatch l with
  | t => constr:(@nil Event)
  | ?e :: ?l' => let p := prefix_of l' t in constr:(e :: p)
  end.

(** [Heq : e1 :: ... :: en :: t = pre ++ ev :: post]: either [ev] is one
    of the [ei] (first goal, with [Heq] about the prefix), or the split
    falls into [t] (second goal). *)
Ltac split_at_tail Heq t :=
  lazymatch type of Heq with
  | ?l = _ ++ _ :: _ =>
      let p := prefix_of l t in
      change l with (p ++ t) in Heq;
      let post' := fresh "post" in
      let pre' := fresh "pre" in
      apply app_split_event in Heq as [(post' & Heq & ->)|(pre' & -> & ->)]
  end.

Lemma no_event_in_prefix (P : Event -> Prop) h pre ev post :
  Forall P h -> h = pre ++ ev :: post -> P ev.
Proof.
  intros Hh ->. apply Forall_app in Hh as [_ Hh]. now inversion Hh.
Qed.

(** Facts about the answers of describe-cluster calls on which the
    program has branched. *)
Ltac described :=
  repeat match goal with
    | a : DescribeClusterOutput |- _ => destruct a as [?]
    | c : Cluster |- _ => destruct c as [?]
    | H : DescribeCluster_Cluster _ = _ |- _ => progress cbn in H
    | H : Cluster_Tags _ = _ |- _ => progress cbn in H
    | H : DescribeCluster_Cluster _ ≫= _ = _ |- _ => progress cbn in H
    | H : ?x ≫= _ = Some _ |- _ => is_var x; destruct x as [[?]|]; cbn in H
    | H : ?x = Some _ |- _ => is_var x; subst x
    | H : None = Some _ |- _ => discriminate H
    | H : String.eqb _ _ = true |- _ => apply String.eqb_eq in H; subst
    end.

(** The events of a concrete history before the first create-cluster
    call. *)
Ltac before_CreateCluster l :=
  lazymatch l with
  | Ev (eks_CreateCluster _) _ :: _ => constr:(@nil Event)
  | ?e :: ?l' => let p := before_CreateCluster l' in constr:(e :: p)
  end.

Lemma split_at_only_event (P : Event -> bool) p ev0 rest pre ev post :
  p ++ ev0 :: rest = pre ++ ev :: post ->
  forallb (fun ev => negb (P ev)) p = true ->
  forallb (fun ev => negb (P ev)) rest = true ->
  P ev = true ->
  pre = p /\ ev = ev0 /\ post = rest.
Proof.
  intros Heq Hp Hrest Hev.
  apply app_split_event in Heq as [(post' & -> & ->)|(pre' & -> & Heq)].
  - rewrite forallb_app in Hp. simpl in Hp. rewrite Hev in Hp.
    rewrite andb_false_r in Hp. discriminate.
  - destruct pre' as [|x pre']; simpl in Heq; injection Heq as -> ->.
    + rewrite app_nil_r. auto.
    + rewrite forallb_app in Hrest. simpl in Hrest. rewrite Hev in Hrest.
      rewrite andb_false_r in Hrest. discriminate.
Qed.

Lemma no_such_event (P : Event -> bool) h pre ev post :
  forallb (fun ev => negb (P ev)) h = true -> h = pre ++ ev :: post -> P ev = false.
Proof.
  intros Hh ->. rewrite forallb_app in Hh. simpl in Hh.
  destruct (P ev); [|reflexivity]. rewrite andb_false_r in Hh. discriminate.
Qed.

(** Symbolic execution that stops where [stop] succeeds on the history
    (for instance right after a given call). *)
Ltac wp_exec_until stop :=
  repeat first
    [ match goal with a : unit |- _ => destruct a end
    | progress cbn
    | lazymatch goal with |- wp _ ?h _ => stop h end; fail 1
    | progress intros
    | progress unfold deref
    | wp_case ].

Ltac after_CreateCluster h :=
  lazymatch h with context [eks_CreateCluster] => idtac end.

Lemma Forall_forallb (P : Event -> bool) t :
  Forall (fun ev => P ev = true) t -> forallb P t = true.
Proof. induction 1 as [|x t Hx _ IH]; simpl; [reflexivity|]. now rewrite Hx. Qed.

(** The first create-cluster event of a concrete history. *)
Ltac the_CreateCluster l :=
  lazymatch l with
  | ?e :: ?l' =>
      lazymatch e with
      | Ev (eks_CreateCluster _) _ => constr:(e)
      | _ => the_CreateCluster l'
      end
  end.

(** A fact about a concrete history: an equation that holds by
    computation, the membership of an event, or the existence of an event
    with some property. *)
(** Membership of an event in a concrete history, by its position (the
    proof is the position and a computation). *)
Ltac event_from n :=
  lazymatch n with
  | 64 => fail "no such event"
  | _ =>
      lazymatch goal with
      | |- ?x ∈ ?l =>
          first [ refine (list_elem_of_lookup_2 l n x eq_refl) | event_from (S n) ]
      end
  end.

Ltac history_fact :=
  lazymatch goal with
  | |- _ = _ => first [ eassumption | reflexivity ]
  | |- _ ∈ _ => event_from 0
  | |- exists _, _ => eexists; history_fact
  | |- _ /\ _ => split; history_fact
  | |- _ => progress hnf; history_fact
  end.

(** The last event of a concrete history. *)
Ltac last_of l :=
  lazymatch l with
  | ?e :: ?l' =>
      lazymatch l' with
      | _ :: _ => last_of l'
      | _ => constr:(e)
      end
  end.

(** ** Version Resolver: [GetLatestEKSVersion] *)

Lemma getLatestVersion_maximum versions latest :
  getLatestVersion versions = Some latest ->
  latest ∈ versions /\ forall v, v ∈ versions -> descending latest v.
Proof.
  unfold getLatestVersion. intros Hhead.
  destruct (sort_Slice_spec versions) as [Hsorted Hperm].
  destruct (sort_Slice string_gt versions) as [|first rest]; [discriminate|].
  injection Hhead as ->. split.
  - rewrite <- Hperm. apply list_elem_of_here.
  - intros v Hv. rewrite <- Hperm in Hv.
    apply Sorted_StronglySorted in Hsorted; [|apply _].
    apply elem_of_cons in Hv as [->|Hv].
    + destruct (total descending latest latest); assumption.
    + apply StronglySorted_inv in Hsorted as [_ Hall].
      rewrite Forall_forall in Hall. auto.
Qed.

Lemma getLatestVersion_nonempty versions :
  length versions <> 0 -> exists latest, getLatestVersion versions = Some latest.
Proof.
  unfold getLatestVersion. intros Hne.
  destruct (sort_Slice_spec versions) as [_ Hperm].
  destruct (sort_Slice string_gt versions) as [|first rest]; [|eauto].
  apply Permutation_nil_l in Hperm. subst. destruct (Hne eq_refl).
Qed.

Lemma no_version_listed (infos : list ClusterVersionInformation) :
  length (omap ClusterVersion infos) = 0
  <-> Forall (fun info => ClusterVersion info = None) infos.
Proof.
  induction infos as [|info infos IH]; simpl.
  - split; [constructor|reflexivity].
  - destruct (ClusterVersion info) eqn:Hv; simpl.
    + split; [discriminate|]. intros H. inversion H. congruence.
    + rewrite IH. split; [constructor; assumption|]. intros H. now inversion H.
Qed.

(** X1. [GetLatestEKSVersion] always returns to its caller (the indexing
    [versions[0]] of [getLatestVersion] is guarded by the two emptiness
    checks, so it cannot panic); when it returns a version, the describe
    call succeeded, the version is one of the non-nil versions of the
    answer, and no version of the answer is greater in the byte-wise
    string order; it issues no mutating call. *)
Theorem GetLatestEKSVersion_returns_greatest
    W (gw : Gateway W) (w : W) (region : string) :
  let r := run (GetLatestEKSVersion region) gw w in
  (exists res, outcome r = Returned res)
  /\ (forall latest, outcome r = Returned (Ok latest) ->
        exists out,
          Ev (eks_DescribeClusterVersions true) (Ok out) ∈ trace r
          /\ offers out latest
          /\ (forall v, offers out v -> string_gt v latest = false))
  /\ Forall (fun ev => mutating (ev_call ev) = false) (trace r).
Proof.
  intros r. subst r.
  apply (wp_run (GetLatestEKSVersion region) []
    (fun o h =>
       (exists res, o = Returned res)
       /\ (forall latest, o = Returned (Ok latest) ->
             exists out,
               Ev (eks_DescribeClusterVersions true) (Ok out) ∈ h
               /\ offers out latest
               /\ (forall v, offers out v -> string_gt v latest = false))
       /\ Forall (fun ev => mutating (ev_call ev) = false) h)).
  unfold GetLatestEKSVersion. wp_exec.
  all: try (split; [eauto|]; split; [discriminate|repeat constructor]).
  - split; [eauto|]. split; [|repeat constructor].
    intros latest [= ->]. exists a0. split; [find_event|].
    apply getLatestVersion_maximum in Heqo as [Hin Hmax].
    split; [now apply list_elem_of_omap|].
    intros v Hv. apply Hmax. now apply list_elem_of_omap.
  - apply Nat.eqb_neq in Heqb0.
    apply getLatestVersion_nonempty in Heqb0 as [latest Hlatest]. congruence.
Qed.

(** X2. The failures of [GetLatestEKSVersion]: an answer without any entry
    gives "no available EKS versions found"; an answer whose entries all
    lack the version gives "no valid EKS versions found in the response";
    an answer with at least one version gives a version; a failed describe
    call or configuration load gives the wrapped error. *)
Theorem GetLatestEKSVersion_failures
    W (gw : Gateway W) (w : W) (region : string) :
  let r := run (GetLatestEKSVersion region) gw w in
  (forall out, Ev (eks_DescribeClusterVersions true) (Ok out) ∈ trace r ->
     (ClusterVersions out = [] ->
        outcome r = Returned (Err (ErrorString "no available EKS versions found")))
     /\ (ClusterVersions out <> [] ->
         Forall (fun info => ClusterVersion info = None) (ClusterVersions out) ->
         outcome r =
           Returned (Err (ErrorString "no valid EKS versions found in the response")))
     /\ (Exists (fun info => ClusterVersion info <> None) (ClusterVersions out) ->
         exists latest, outcome r = Returned (Ok latest)))
  /\ (forall e, Ev (eks_DescribeClusterVersions true) (Err e) ∈ trace r ->
        outcome r = Returned (Err (Errorf "failed to fetch EKS cluster versions" e)))
  /\ (forall e, Ev (config_LoadDefaultConfig region) (Err e) ∈ trace r ->
        outcome r = Returned (Err (Errorf "unable to load AWS configuration" e))
        /\ trace r = [Ev (config_LoadDefaultConfig region) (Err e)]).
Proof.
  intros r. subst r.
  apply (wp_run (GetLatestEKSVersion region) []
    (fun o h =>
      (forall out, Ev (eks_DescribeClusterVersions true) (Ok out) ∈ h ->
         (ClusterVersions out = [] ->
            o = Returned (Err (ErrorString "no available EKS versions found")))
         /\ (ClusterVersions out <> [] ->
             Forall (fun info => ClusterVersion info = None) (ClusterVersions out) ->
             o = Returned (Err (ErrorString "no valid EKS versions found in the response")))
         /\ (Exists (fun info => ClusterVersion info <> None) (ClusterVersions out) ->
             exists latest, o = Returned (Ok latest)))
      /\ (forall e, Ev (eks_DescribeClusterVersions true) (Err e) ∈ h ->
            o = Returned (Err (Errorf "failed to fetch EKS cluster versions" e)))
      /\ (forall e, Ev (config_LoadDefaultConfig region) (Err e) ∈ h ->
            o = Returned (Err (Errorf "unable to load AWS configuration" e))
            /\ h = [Ev (config_LoadDefaultConfig region) (Err e)]))).
  unfold GetLatestEKSVersion. wp_exec.
  all: repeat match goal with |- _ /\ _ => split end.
  all: intros; event_facts; eauto.
  all: repeat match goal with |- _ /\ _ => split end; intros.
  all: repeat match goal with
         | H : Nat.eqb _ _ = true |- _ => apply Nat.eqb_eq in H
         | H : Nat.eqb _ _ = false |- _ => apply Nat.eqb_neq in H
         end.
  all: try match goal with
         | H : getLatestVersion _ = None, H' : length _ <> 0 |- _ =>
             apply getLatestVersion_nonempty in H' as [? ?]; congruence
         end.
  all: try match goal with
         | H : length (omap _ _) = 0 |- _ => apply no_version_listed in H
         | H : length (omap _ _) <> 0 |- _ => rewrite no_version_listed in H
         end.
  all: try congruence.
  all: try match goal with
         | H : ClusterVersions ?a = [], H' : context [ClusterVersions ?a] |- _ =>
             rewrite H in H'; simpl in H'
         end.
  all: try congruence.
  all: try match goal with
         | H : Exists _ _, H' : Forall _ _ |- _ =>
             apply Exists_exists in H as (? & ? & ?);
             rewrite Forall_forall in H'; exfalso; eauto
         | H : Exists _ [] |- _ => inversion H
         | H : ~ Forall _ [] |- _ => destruct H; constructor
         end.
  all: try (destruct (ClusterVersions _); simpl in *; [congruence|discriminate]).
  - destruct (ClusterVersions a0); [inversion H|discriminate].
  - eauto.
Qed.

(** ** Cluster queries: [GetVPCIDFromCluster], [CheckClusterTag] *)

(** X3. [GetVPCIDFromCluster] returns a VPC id exactly when the describe call
    succeeded and the tag set of the cluster gives a value to the key
    "VpcId", and then it returns that value.  An answer without cluster
    object or without tag set gives the error "cluster ... does not have
    tags or is malformed" (no panic); a tag set without the key gives
    "vpc-id tag not found on cluster ...".  The function always returns to
    its caller and issues no mutating call. *)
Theorem GetVPCIDFromCluster_reads_VpcId_tag
    W (gw : Gateway W) (w : W) (region clusterName : string) :
  let r := run (GetVPCIDFromCluster region clusterName) gw w in
  let described out := Ev (eks_DescribeCluster clusterName) (Ok out) ∈ trace r in
  (forall vpcID,
     outcome r = Returned (Ok vpcID) <->
     exists cluster,
       described {| DescribeCluster_Cluster := Some cluster |}
       /\ tag_of cluster "VpcId" = Some vpcID)
  /\ (forall out,
        described out -> DescribeCluster_Cluster out ≫= Cluster_Tags = None ->
        outcome r =
          Returned (Err (ErrorString ("cluster " +:+ clusterName
                                        +:+ " does not have tags or is malformed"))))
  /\ (forall cluster tags,
        described {| DescribeCluster_Cluster := Some cluster |} ->
        Cluster_Tags cluster = Some tags -> tags !! "VpcId" = None ->
        outcome r =
          Returned (Err (ErrorString ("vpc-id tag not found on cluster "
                                        +:+ clusterName))))
  /\ (exists res, outcome r = Returned res)
  /\ Forall (fun ev => mutating (ev_call ev) = false) (trace r).
Proof.
  intros r described. subst r described.
  apply (wp_run (GetVPCIDFromCluster region clusterName) []
    (fun o h =>
      (forall vpcID,
         o = Returned (Ok vpcID) <->
         exists cluster,
           Ev (eks_DescribeCluster clusterName)
              (Ok {| DescribeCluster_Cluster := Some cluster |}) ∈ h
           /\ tag_of cluster "VpcId" = Some vpcID)
      /\ (forall out,
            Ev (eks_DescribeCluster clusterName) (Ok out) ∈ h ->
            DescribeCluster_Cluster out ≫= Cluster_Tags = None ->
            o = Returned (Err (ErrorString ("cluster " +:+ clusterName
                                  +:+ " does not have tags or is malformed"))))
      /\ (forall cluster tags,
            Ev (eks_DescribeCluster clusterName)
               (Ok {| DescribeCluster_Cluster := Some cluster |}) ∈ h ->
            Cluster_Tags cluster = Some tags -> tags !! "VpcId" = None ->
            o = Returned (Err (ErrorString ("vpc-id tag not found on cluster "
                                              +:+ clusterName))))
      /\ (exists res, o = Returned res)
      /\ Forall (fun ev => mutating (ev_call ev) = false) h)).
  unfold GetVPCIDFromCluster, tag_of. wp_exec.
  all: try match goal with a : DescribeClusterOutput |- _ => destruct a as [[[tags]|]] end.
  all: clauses; event_facts; eauto.
  all: try (repeat constructor; done).
  all: simpl in *; try congruence.
  eexists. split; [find_event|]. exact Heqo0.
Qed.

(** X4. [CheckClusterTag] reads [output.Cluster.Tags] without checking the
    cluster pointer: when the describe call succeeds with an answer that
    carries no cluster object, it panics with a nil dereference instead of
    returning [false] or an error, and makes no further call. *)
Theorem CheckClusterTag_panics_without_cluster
    W (gw : Gateway W) (w w1 w2 : W) (region clusterName tagName tagValue : string) :
  gw (config_LoadDefaultConfig region) w = (Ok tt, w1) ->
  gw (eks_DescribeCluster clusterName) w1
    = (Ok {| DescribeCluster_Cluster := None |}, w2) ->
  let r := run (CheckClusterTag region clusterName tagName tagValue) gw w in
  outcome r = Panicked nil_dereference
  /\ trace r =
       [ Ev (config_LoadDefaultConfig region) (Ok tt);
         Ev (eks_DescribeCluster clusterName) (Ok {| DescribeCluster_Cluster := None |}) ].
Proof.
  intros Hcfg Hdescribe r. subst r. unfold CheckClusterTag. cbn.
  rewrite Hcfg. cbn. rewrite Hdescribe. cbn. split; reflexivity.
Qed.

Lemma CheckClusterTag_without_cluster_witness :
  outcome (run (CheckClusterTag "eu-west-2" "Sandbox-demo" "CreatedBy" "EKS-Sandbox-Tool")
             describe_without_cluster tt)
  = Panicked nil_dereference.
Proof.
  apply (CheckClusterTag_panics_without_cluster unit describe_without_cluster
           tt tt tt "eu-west-2" "Sandbox-demo" "CreatedBy" "EKS-Sandbox-Tool"
           eq_refl eq_refl).
Defined.

(** ** Tagging at creation and the checks of the delete action *)

(** X5. What [CreateEKSCluster] writes is what the delete action reads: on a
    registry of clusters that does not yet hold the name, the cluster is
    created, and afterwards [CheckClusterTag] finds the provenance tag and
    the isolated-hosting classification, and [GetVPCIDFromCluster] returns
    the VPC id that was passed at creation.  A cluster created by the
    earlier [CreateEKSCluster] of [src/aws2.js] carries the provenance tag
    only. *)
Theorem created_cluster_passes_the_tag_checks
    (clusters : gmap string (gmap string string))
    (region clusterName accountID : string) (subnetIDs securityGroupIDs : list string)
    (k8sVersion vpcId : string) (autoMode : bool) :
  clusters !! clusterName = None ->
  let created :=
    run (CreateEKSCluster region clusterName accountID subnetIDs securityGroupIDs
           k8sVersion vpcId autoMode) cluster_registry clusters in
  let check tagName tagValue :=
    outcome (run (CheckClusterTag region clusterName tagName tagValue)
               cluster_registry (world created)) in
  outcome created = Returned (Ok tt)
  /\ check "CreatedBy" "EKS-Sandbox-Tool" = Returned (Ok true)
  /\ check "HostingVPC" "isolated" = Returned (Ok true)
  /\ outcome (run (GetVPCIDFromCluster region clusterName)
                cluster_registry (world created)) = Returned (Ok vpcId)
  /\ (let created2 :=
        run (Aws2.CreateEKSCluster region clusterName accountID subnetIDs
               securityGroupIDs k8sVersion) cluster_registry clusters in
      let check2 tagName tagValue :=
        outcome (run (CheckClusterTag region clusterName tagName tagValue)
                   cluster_registry (world created2)) in
      outcome created2 = Returned (Ok tt)
      /\ check2 "CreatedBy" "EKS-Sandbox-Tool" = Returned (Ok true)
      /\ check2 "HostingVPC" "isolated" = Returned (Ok false)).
Proof.
  intros Hfree created check. subst created check.
  unfold CreateEKSCluster, Aws2.CreateEKSCluster, CheckClusterTag,
    GetVPCIDFromCluster. cbn. rewrite Hfree. cbn.
  rewrite !lookup_insert_eq. cbn.
  repeat first [ rewrite lookup_insert_eq
               | rewrite lookup_insert_ne by discriminate
               | rewrite lookup_empty ].
  cbn. repeat split.
Qed.

Lemma created_cluster_witness :
  outcome (run (GetVPCIDFromCluster "eu-west-2" "Sandbox-demo") cluster_registry
             (world (run (CreateEKSCluster "eu-west-2" "Sandbox-demo" "123456789012"
                            ["subnet-a"; "subnet-b"] ["sg-1"] "1.31" "vpc-1" true)
                       cluster_registry ∅)))
  = Returned (Ok "vpc-1").
Proof.
  apply (created_cluster_passes_the_tag_checks ∅ "eu-west-2" "Sandbox-demo"
           "123456789012" ["subnet-a"; "subnet-b"] ["sg-1"] "1.31" "vpc-1" true).
  apply lookup_empty.
Defined.

(** ** Loops over requests: [EnableAutoAssignPublicIP], [InstallAddons] *)

(** X6. [EnableAutoAssignPublicIP] issues one request per subnet, in the
    order of the list, and stops at the first request that fails.  When it
    returns without error, the calls of the run are the configuration load
    followed by one successful request for each subnet.  When it returns
    an error, either the configuration load failed and nothing else was
    called, or the requests for a prefix of the list succeeded, the next
    one failed, and the error names that subnet; the subnets after it were
    not touched.  It never panics or exits. *)
Theorem EnableAutoAssignPublicIP_in_order
    W (gw : Gateway W) (w : W) (region : string) (subnets : list string) :
  let r := run (EnableAutoAssignPublicIP region subnets) gw w in
  let loaded := Ev (config_LoadDefaultConfig region) (Ok tt) in
  match outcome r with
  | Returned (Ok _) => trace r = loaded :: map enabled subnets
  | Returned (Err err) =>
      (exists cause,
         trace r = [Ev (config_LoadDefaultConfig region) (Err cause)]
         /\ err = Errorf "unable to load AWS configuration" cause)
      \/ (exists done subnetID rest cause,
            subnets = done ++ subnetID :: rest
            /\ trace r = loaded :: map enabled done
                           ++ [Ev (ec2_ModifySubnetAttribute subnetID true) (Err cause)]
            /\ err = Errorf ("unable to enable auto-assign public IPv4 for subnet "
                               +:+ subnetID) cause)
  | _ => False
  end.
Proof.
  intros r loaded. subst r loaded.
  apply (wp_run (EnableAutoAssignPublicIP region subnets) []
    (fun o h =>
       match o with
       | Returned (Ok _) =>
           h = Ev (config_LoadDefaultConfig region) (Ok tt) :: map enabled subnets
       | Returned (Err err) =>
           (exists cause,
              h = [Ev (config_LoadDefaultConfig region) (Err cause)]
              /\ err = Errorf "unable to load AWS configuration" cause)
           \/ (exists done subnetID rest cause,
                 subnets = done ++ subnetID :: rest
                 /\ h = Ev (config_LoadDefaultConfig region) (Ok tt) :: map enabled done
                          ++ [Ev (ec2_ModifySubnetAttribute subnetID true) (Err cause)]
                 /\ err = Errorf ("unable to enable auto-assign public IPv4 for subnet "
                                    +:+ subnetID) cause)
       | _ => False
       end)).
  unfold EnableAutoAssignPublicIP. cbn. intros [[]|cause]; cbn; [|left; eauto].
  apply wp_for_range
    with (I := fun done h =>
                 h = Ev (config_LoadDefaultConfig region) (Ok tt) :: map enabled done).
  - reflexivity.
  - intros done subnetID rest h Hsubnets ->. cbn. intros [[]|cause]; cbn.
    + rewrite map_app. reflexivity.
    + right. exists done, subnetID, rest, cause. auto.
  - intros h ->. reflexivity.
Qed.

(** X7. [InstallAddons] installs coredns, kube-proxy and vpc-cni in this
    order and stops at the first installation that fails: the addons
    before it stay installed (nothing is rolled back), the addons after it
    are not attempted, and the error names the addon that failed. *)
Theorem InstallAddons_in_order
    W (gw : Gateway W) (w : W) (region clusterName : string) :
  let r := run (InstallAddons region clusterName) gw w in
  let loaded := Ev (config_LoadDefaultConfig region) (Ok tt) in
  match outcome r with
  | Returned (Ok _) =>
      trace r = loaded :: map (installed clusterName) ["coredns"; "kube-proxy"; "vpc-cni"]
  | Returned (Err err) =>
      (exists cause,
         trace r = [Ev (config_LoadDefaultConfig region) (Err cause)]
         /\ err = Errorf "unable to load AWS configuration" cause)
      \/ (exists done addon rest cause,
            ["coredns"; "kube-proxy"; "vpc-cni"] = done ++ addon :: rest
            /\ trace r = loaded :: map (installed clusterName) done
                           ++ [Ev (eks_CreateAddon clusterName addon) (Err cause)]
            /\ err = Errorf ("failed to install addon " +:+ addon) cause)
  | _ => False
  end.
Proof.
  intros r loaded. subst r loaded.
  change ["coredns"; "kube-proxy"; "vpc-cni"] with addons.
  unfold InstallAddons. generalize addons as xs. intros xs.
  match goal with
  | |- match outcome (run ?p _ _) with _ => _ end =>
      apply (wp_run p []
        (fun o h =>
           match o with
           | Returned (Ok _) =>
               h = Ev (config_LoadDefaultConfig region) (Ok tt)
                     :: map (installed clusterName) xs
           | Returned (Err err) =>
               (exists cause,
                  h = [Ev (config_LoadDefaultConfig region) (Err cause)]
                  /\ err = Errorf "unable to load AWS configuration" cause)
               \/ (exists done addon rest cause,
                     xs = done ++ addon :: rest
                     /\ h = Ev (config_LoadDefaultConfig region) (Ok tt)
                              :: map (installed clusterName) done
                              ++ [Ev (eks_CreateAddon clusterName addon) (Err cause)]
                     /\ err = Errorf ("failed to install addon " +:+ addon) cause)
           | _ => False
           end))
  end.
  cbn. intros [[]|cause]; cbn; [|left; eauto].
  apply wp_for_range
    with (I := fun done h =>
                 h = Ev (config_LoadDefaultConfig region) (Ok tt)
                       :: map (installed clusterName) done).
  - reflexivity.
  - intros done addon rest h Hxs ->. cbn. intros [[]|cause]; cbn.
    + rewrite map_app. reflexivity.
    + right. exists done, addon, rest, cause. auto.
  - intros h ->. reflexivity.
Qed.

(** ** Network teardown: [DeleteVPC] *)

Lemma DeleteVPC_footprint region vpcID :
  all_calls (teardown_call vpcID) (DeleteVPC region vpcID).
Proof.
  unfold DeleteVPC, wrapped, and_then, ListInternetGateways, ListSubnets,
    ListRouteTables, ListSecurityGroups, detachAndDeleteInterface,
    detachAndDeleteGateway, deleteSubnet, deleteRouteTableUnlessMain,
    deleteSecurityGroupUnlessDefault.
  repeat first
    [ reflexivity
    | exact I
    | progress intros
    | progress cbn
    | progress unfold deref, isDefault
    | apply all_calls_for_range
    | apply all_calls_bind
    | solve [ left; reflexivity ]
    | solve [ right; eexists; reflexivity ]
    | match goal with
      | |- _ /\ _ => split
      | |- all_calls _ (match ?x with _ => _ end) => destruct x
      | |- all_calls _ (if ?x then _ else _) => destruct x
      end ].
Qed.

(** Leaves of the symbolic execution of a fail-fast function. *)
Ltac clean_history :=
  unfold clean in *;
  repeat first
    [ assumption
    | apply Forall_app; split
    | constructor; [reflexivity|]
    | solve [ constructor ] ].

Ltac failed_last_history :=
  first
    [ eexists _, _; split; [reflexivity|]; split; [clean_history|reflexivity]
    | exists []; eexists; split; [reflexivity|]; split; [clean_history|reflexivity]
    | eexists [_]; eexists; split; [reflexivity|]; split; [clean_history|reflexivity] ].

(** A loop all of whose steps keep the history clean. *)
Ltac clean_loop :=
  lazymatch goal with
  | |- wp (bind (for_range _ _) _) _ _ =>
      apply wp_bind;
      apply wp_for_range with (I := fun _ h' => clean h');
      [ clean_history
      | let Hc := fresh "Hclean" in intros ? ? ? ? _ Hc
      | let Hc := fresh "Hclean" in intros ? Hc ]
  | |- wp (mbind _ (for_range _ _)) _ _ =>
      apply wp_bind;
      apply wp_for_range with (I := fun _ h' => clean h');
      [ clean_history
      | let Hc := fresh "Hclean" in intros ? ? ? ? _ Hc
      | let Hc := fresh "Hclean" in intros ? Hc ]
  end.

Lemma DeleteVPC_fail_fast region vpcID :
  wp (DeleteVPC region vpcID) [] (teardown_result vpcID).
Proof.
  unfold DeleteVPC, wrapped, and_then, ListInternetGateways, ListSubnets,
    ListRouteTables, ListSecurityGroups, detachAndDeleteInterface,
    detachAndDeleteGateway, deleteSubnet, deleteRouteTableUnlessMain,
    deleteSecurityGroupUnlessDefault.
  repeat first [ clean_loop | progress wp_exec ].
  all: unfold teardown_result.
  all: repeat match goal with a : unit |- _ => destruct a end.
  all: try solve [ clean_history ].
  all: try solve [ eexists _, _; split; [reflexivity|]; failed_last_history ].
  all: try solve [ left; clean_history ].
  all: try solve [ right; eexists; failed_last_history ].
  all: try solve [ split; [clean_history|]; eexists; reflexivity ].
Qed.

(** What the delete action of [main] relies on: the calls of [DeleteVPC]
    and the way it ends. *)
Lemma DeleteVPC_summary region vpcID :
  wp (DeleteVPC region vpcID) []
     (fun o t => Forall (fun ev => teardown_call vpcID (ev_call ev)) t
                 /\ teardown_result vpcID o t).
Proof.
  apply wp_conj; [|apply DeleteVPC_fail_fast].
  eapply wp_mono; [|apply all_calls_wp, DeleteVPC_footprint].
  intros o h (t & -> & Ht). exact Ht.
Qed.

(** X8. [DeleteVPC] stops at the first call that fails.  When it returns
    without error, no call failed and the last call is the successful
    deletion of the VPC.  When it returns an error, the last call of the
    run failed, no earlier call did, and the error is the error of that
    call under one message.  A panic happens with no failed call or right
    after the one failed call (when the id of a failing interface is nil).
    [DeleteVPC] never exits the process itself. *)
Theorem DeleteVPC_stops_at_first_failure
    W (gw : Gateway W) (w : W) (region vpcID : string) :
  let r := run (DeleteVPC region vpcID) gw w in
  match outcome r with
  | Returned (Ok _) =>
      Forall (fun ev => failed ev = false) (trace r)
      /\ exists t, trace r = t ++ [Ev (ec2_DeleteVpc vpcID) (Ok tt)]
  | Returned (Err err) =>
      exists message cause t ev,
        err = Errorf message cause
        /\ trace r = t ++ [ev]
        /\ reported ev = Some cause
        /\ Forall (fun ev => failed ev = false) t
  | Panicked _ =>
      Forall (fun ev => failed ev = false) (trace r)
      \/ exists t ev,
           trace r = t ++ [ev] /\ failed ev = true
           /\ Forall (fun ev => failed ev = false) t
  | Exited _ => False
  end.
Proof.
  intros r. subst r.
  pose proof (wp_run _ _ _ (DeleteVPC_fail_fast region vpcID) W gw w) as H.
  simpl in H. unfold teardown_result, failed_last, clean in H.
  destruct (outcome _) as [[[]|err]|e|m]; auto.
  - destruct H as (message & cause & -> & t & ev & Ht & Hclean & Hev).
    exists message, cause, t, ev. auto.
  - destruct H as [H|(cause & t & ev & Ht & Hclean & Hev)]; [auto|].
    right. exists t, ev. split; [exact Ht|]. split; [|exact Hclean].
    eapply reported_failed, Hev.
Qed.

(** X9. [DeleteVPC] touches nothing but the given VPC: every call of a run is
    the configuration load, a listing filtered by the VPC id, the describe
    of a single route table or security group, or a detach or delete
    request; gateway detachment and VPC deletion name the given VPC.  It
    never prompts the operator, and every mutating call is a detach or
    delete request. *)
Theorem DeleteVPC_touches_only_its_vpc
    W (gw : Gateway W) (w : W) (region vpcID : string) :
  Forall (fun ev =>
            teardown_call vpcID (ev_call ev)
            /\ prompting (ev_call ev) = false
            /\ mutating (ev_call ev) = deleting (ev_call ev))
         (trace (run (DeleteVPC region vpcID) gw w)).
Proof.
  pose proof (wp_run _ _ _ (DeleteVPC_summary region vpcID) W gw w) as [H _].
  simpl in H. eapply Forall_impl; [exact H|].
  intros [c r] Hc. split; [exact Hc|].
  destruct c; simpl in *; try destruct Hc; auto.
Qed.

(** ** [DeleteVPC]: what a successful run has removed *)

(** A fact about histories that stays true when the history grows. *)
Definition lasting {X} (R : X -> list Event -> Prop) : Prop :=
  forall x t t', R x t -> t ⊆ t' -> R x t'.

Lemma for_range_each {X} (R : X -> list Event -> Prop) (xs : list X)
    (body : X -> Prog (result unit)) :
  lasting R ->
  (forall x, wp (body x) [] (fun o t => forall u, o = Returned (Ok u) -> R x t)) ->
  wp (for_range xs body) []
    (fun o t => forall u, o = Returned (Ok u) -> Forall (fun x => R x t) xs).
Proof.
  intros HR Hbody. induction xs as [|x xs IH]; simpl; [constructor|].
  apply (wp_bind_frame _ _ [] _ _ (Hbody x)).
  intros o t Hx. destruct o as [[[]|e]|e|m]; simpl; try discriminate.
  apply wp_frame. eapply wp_mono; [|exact IH].
  intros o t' Hxs u ->. constructor.
  - apply (HR x t); [eauto|]. set_solver.
  - eapply Forall_impl; [eauto|]. intros y Hy. apply (HR y t'); [exact Hy|]. set_solver.
Qed.

Lemma interface_removed_lasting : lasting interface_removed.
Proof.
  intros eni t t' (attachment & Ha & Hdetached & Hdeleted) Hsub.
  exists attachment. auto.
Qed.

Lemma gateway_removed_lasting vpcID : lasting (gateway_removed vpcID).
Proof. intros igwID t t' [Hdetached Hdeleted] Hsub. split; auto. Qed.

Lemma subnet_removed_lasting : lasting subnet_removed.
Proof. intros subnetID t t' Hdeleted Hsub. apply Hsub, Hdeleted. Qed.

Lemma route_table_handled_lasting : lasting route_table_handled.
Proof.
  intros rtbID t t' [Hdeleted|(out & Hdescribed & Hmain)] Hsub; [left; auto|].
  right. exists out. auto.
Qed.

Lemma security_group_handled_lasting : lasting security_group_handled.
Proof.
  intros sgID t t' [Hdeleted|(out & Hdescribed & Hdefault)] Hsub; [left; auto|].
  right. exists out. auto.
Qed.

(** The bodies of the five loops, each run on its own. *)
Ltac loop_body :=
  intros; wp_exec;
  repeat match goal with a : unit |- _ => destruct a end;
  try discriminate;
  try match goal with H : _ = Returned (Ok _) |- _ => discriminate H end.

Lemma detachAndDeleteInterface_removes eni :
  wp (detachAndDeleteInterface eni) []
    (fun o t => forall u, o = Returned (Ok u) -> interface_removed eni t).
Proof.
  unfold detachAndDeleteInterface. loop_body.
  eexists. split; [eassumption|]. split; find_event.
Qed.

Lemma detachAndDeleteGateway_removes vpcID igwID :
  wp (detachAndDeleteGateway vpcID igwID) []
    (fun o t => forall u, o = Returned (Ok u) -> gateway_removed vpcID igwID t).
Proof. unfold detachAndDeleteGateway. loop_body. split; find_event. Qed.

Lemma deleteSubnet_removes subnetID :
  wp (deleteSubnet subnetID) []
    (fun o t => forall u, o = Returned (Ok u) -> subnet_removed subnetID t).
Proof. unfold deleteSubnet, subnet_removed. loop_body. find_event. Qed.

Lemma deleteRouteTableUnlessMain_handles rtbID :
  wp (deleteRouteTableUnlessMain rtbID) []
    (fun o t => forall u, o = Returned (Ok u) -> route_table_handled rtbID t).
Proof.
  unfold deleteRouteTableUnlessMain. loop_body.
  - right. eexists. split; [find_event|].
    unfold main_described. now rewrite Heql.
  - left. find_event.
Qed.

Lemma deleteSecurityGroupUnlessDefault_handles sgID :
  wp (deleteSecurityGroupUnlessDefault sgID) []
    (fun o t => forall u, o = Returned (Ok u) -> security_group_handled sgID t).
Proof.
  unfold deleteSecurityGroupUnlessDefault. loop_body.
  all: first
    [ left; solve [find_event]
    | right; eexists; split; [find_event|];
      unfold default_described;
      repeat match goal with H : _ = _ |- _ => rewrite H end; reflexivity ].
Qed.

(** The summary of the loop over [xs] with the body [body]. *)
Ltac loop_summary xs body :=
  lazymatch body with
  | detachAndDeleteInterface =>
      constr:(for_range_each _ xs body interface_removed_lasting
                detachAndDeleteInterface_removes)
  | detachAndDeleteGateway ?v =>
      constr:(for_range_each _ xs body (gateway_removed_lasting v)
                (detachAndDeleteGateway_removes v))
  | deleteSubnet =>
      constr:(for_range_each _ xs body subnet_removed_lasting deleteSubnet_removes)
  | deleteRouteTableUnlessMain =>
      constr:(for_range_each _ xs body route_table_handled_lasting
                deleteRouteTableUnlessMain_handles)
  | deleteSecurityGroupUnlessDefault =>
      constr:(for_range_each _ xs body security_group_handled_lasting
                deleteSecurityGroupUnlessDefault_handles)
  end.

(** Run the loop at the head of the program from its summary. *)
Ltac run_loop :=
  lazymatch goal with
  | |- wp (bind (for_range ?xs ?body) _) ?h _ =>
      let lemma := loop_summary xs body in
      apply (wp_bind_frame _ _ h _ _ lemma)
  | |- wp (mbind _ (for_range ?xs ?body)) ?h _ =>
      let lemma := loop_summary xs body in
      apply (wp_bind_frame _ _ h _ _ lemma)
  end;
  let o := fresh "o" in
  let t := fresh "t" in
  let Hloop := fresh "Hloop" in
  intros o t Hloop;
  destruct o as [[[]|?]|?|?];
  [ specialize (Hloop tt eq_refl) | clear Hloop .. ]; cbn.

(** Membership in a history built from events and the calls of loops. *)
Ltac in_app :=
  first [ assumption
        | apply list_elem_of_here
        | apply list_elem_of_further; in_app
        | apply elem_of_app; left; in_app
        | apply elem_of_app; right; in_app ].

(** Lift a loop summary to the whole history. *)
Ltac all_removed lasting_lemma :=
  lazymatch goal with
  | |- Forall _ ?xs =>
      lazymatch goal with
      | Hloop : Forall _ (map _ xs) |- _ =>
          apply List.Forall_map in Hloop; eapply Forall_impl; [exact Hloop|]
      | Hloop : Forall _ xs |- _ => eapply Forall_impl; [exact Hloop|]
      end;
      let x := fresh in
      let Hx := fresh in
      intros x Hx; simpl; eapply lasting_lemma; [exact Hx|];
      let ev := fresh in
      let Hev := fresh in
      intros ev Hev; in_app
  end.

(** X10. A successful teardown leaves nothing of the listings behind.  When
    [DeleteVPC] returns no error, its calls hold a successful listing of
    the interfaces, internet gateways, subnets, route tables and security
    groups of the VPC, and for everything listed a successful removal:
    every interface detached and deleted, every gateway detached from the
    VPC and deleted, every subnet deleted, every route table deleted
    unless its describe showed the main table, every security group
    deleted unless its describe showed the default group; and the VPC
    itself deleted. *)
Theorem DeleteVPC_success_removes_the_network
    W (gw : Gateway W) (w : W) (region vpcID : string) :
  let r := run (DeleteVPC region vpcID) gw w in
  outcome r = Returned (Ok tt) ->
  network_removed vpcID (trace r).
Proof.
  intros r. subst r.
  apply (wp_run (DeleteVPC region vpcID) []
    (fun o h => o = Returned (Ok tt) -> network_removed vpcID h)).
  unfold DeleteVPC, wrapped, and_then.
  repeat first [ run_loop | progress wp_exec ].
  all: try discriminate.
  all: repeat match goal with a : unit |- _ => destruct a end.
  unfold network_removed, describe_interfaces.
  split; [|split; [|split; [|split; [|split]]]].
  - eexists. split; [in_app|]. all_removed interface_removed_lasting.
  - eexists. split; [in_app|]. all_removed (gateway_removed_lasting vpcID).
  - eexists. split; [in_app|]. all_removed subnet_removed_lasting.
  - eexists. split; [in_app|]. all_removed route_table_handled_lasting.
  - eexists. split; [in_app|]. all_removed security_group_handled_lasting.
  - in_app.
Qed.

(** On the populated network: the two subnets are deleted. *)
Lemma DeleteVPC_success_witness :
  network_removed "vpc-1" (trace (run (DeleteVPC "eu-west-2" "vpc-1") populated_network tt)).
Proof.
  apply (DeleteVPC_success_removes_the_network unit populated_network tt
           "eu-west-2" "vpc-1").
  reflexivity.
Defined.

(** ** The delete action of [src/main.go] *)

#[local] Arguments DeleteVPC : simpl never.

Lemma fails_fast_sound {A} (o : Outcome A) h :
  fails_fast h (stopped o) = true ->
  forall pre ev post, h = pre ++ ev :: post -> failed ev = true ->
    post = [] /\ stopped o = true.
Proof.
  induction h as [|x h IH]; intros Hb pre ev post Heq Hev.
  - destruct pre; discriminate.
  - simpl in Hb. destruct pre as [|y pre]; simpl in Heq; injection Heq as -> ->.
    + rewrite Hev in Hb. destruct post; [auto|discriminate].
    + destruct (failed y); [destruct (pre ++ ev :: post) eqn:E; [destruct pre; discriminate|discriminate]|].
      eapply IH; eauto.
Qed.

Lemma clean_fails_fast h b : clean h -> fails_fast h b = true.
Proof.
  induction 1 as [|x h Hx _ IH]; simpl; [reflexivity|]. rewrite Hx. exact IH.
Qed.

Lemma fails_fast_app h t b :
  fails_fast h false = true -> fails_fast t b = true -> fails_fast (h ++ t) b = true.
Proof.
  induction h as [|x h IH]; simpl; [auto|].
  destruct (failed x); [destruct h; discriminate|]. auto.
Qed.

Lemma failed_last_fails_fast cause t : failed_last cause t -> fails_fast t true = true.
Proof.
  intros (h & ev & -> & Hclean & Hev). apply fails_fast_app.
  - now apply clean_fails_fast.
  - simpl. now rewrite (reported_failed _ _ Hev).
Qed.

(** How [DeleteVPC] ends, as seen by a caller that exits on its error. *)
Lemma teardown_fails_fast vpcID o t :
  teardown_result vpcID o t ->
  match o with
  | Returned (Ok _) => fails_fast t false = true
  | _ => fails_fast t true = true
  end.
Proof.
  destruct o as [[[]|err]|e|m]; simpl.
  - intros [H _]. now apply clean_fails_fast.
  - intros (message & cause & _ & H). eapply failed_last_fails_fast, H.
  - intros [].
  - intros [H|[cause H]]; [now apply clean_fails_fast|].
    eapply failed_last_fails_fast, H.
Qed.

(** Running [DeleteVPC] inside a larger program. *)
Ltac run_DeleteVPC :=
  lazymatch goal with
  | |- wp (bind (DeleteVPC ?region ?v) _) ?h _ =>
      apply (wp_bind_frame _ _ h _ _ (DeleteVPC_summary region v))
  | |- wp (mbind _ (DeleteVPC ?region ?v)) ?h _ =>
      apply (wp_bind_frame _ _ h _ _ (DeleteVPC_summary region v))
  end;
  let o := fresh "o" in
  let t := fresh "t" in
  let Hcalls := fresh "Hcalls" in
  let Hend := fresh "Hend" in
  intros o t [Hcalls Hend];
  destruct o as [[[]|?]|?|?]; [ | | destruct Hend | ]; cbn.

Lemma createCluster_asks_no_selection :
  all_calls (fun c => is_Select c = false) MainGo.createCluster.
Proof. unfold MainGo.createCluster, or_fatal. footprint. Qed.

(** X11. The delete action is fail-fast: in a run of [main] in which the
    operator chose "Delete Cluster", a call that fails is the last call
    of the run, and the run does not return normally. *)
Theorem delete_action_fails_fast
    W (gw : Gateway W) (w : W) (options : list string) :
  let r := run MainGo.main gw w in
  Ev (survey_Select actionMessage options) (Ok "Delete Cluster") ∈ trace r ->
  forall pre ev post,
    trace r = pre ++ ev :: post -> failed ev = true ->
    post = [] /\ outcome r <> Returned tt.
Proof.
  intros r. subst r.
  set (Q := fun (o : Outcome unit) h =>
       Ev (survey_Select actionMessage options) (Ok "Delete Cluster") ∈ h ->
       forall pre ev post,
         h = pre ++ ev :: post -> failed ev = true ->
         post = [] /\ o <> Returned tt).
  apply (wp_run MainGo.main [] Q).
  assert (Hleaf : forall o h, fails_fast h (stopped o) = true -> Q o h).
  { intros o h Hb _ pre ev post Heq Hev.
    destruct (fails_fast_sound o h Hb pre ev post Heq Hev) as [-> Hs].
    split; [reflexivity|]. intros ->. discriminate Hs. }
  assert (Hother : forall o a t,
            a <> "Delete Cluster" ->
            Forall (fun ev => is_Select (ev_call ev) = false) t ->
            Q o (Ev (survey_Select actionMessage ["Create Cluster"; "Delete Cluster"])
                    (Ok a) :: t)).
  { intros o a t Ha Ht Hin. apply elem_of_cons in Hin as [Hin|Hin].
    - same_event Hin. congruence.
    - rewrite Forall_forall in Ht. apply Ht in Hin. discriminate Hin. }
  clearbody Q.
  unfold MainGo.main, MainGo.deleteCluster, MainGo.afterWarning, or_fatal.
  repeat first [ run_DeleteVPC | progress wp_exec ].
  all: try (apply Hleaf; reflexivity).
  all: try (apply Hleaf; cbn; exact (teardown_fails_fast _ _ _ Hend)).
  eapply wp_footprint; [apply createCluster_asks_no_selection|].
  intros o t Ht. apply Hother; [|exact Ht].
  apply String.eqb_eq in Heqb. subst a. discriminate.
Qed.

(** The delete action on a run in which the deletion of the cluster is
    denied: the denied call is the last one, and the run exits. *)
Lemma delete_action_fails_fast_witness :
  let r := run MainGo.main deletion_denied tt in
  drop 13 (trace r) = [Ev (eks_DeleteCluster "Sandbox-demo")
                          (Err (ApiError "AccessDeniedException"))]
  /\ outcome r <> Returned tt.
Proof.
  intros r.
  destruct (delete_action_fails_fast unit deletion_denied tt
              ["Create Cluster"; "Delete Cluster"]
              ltac:(vm_compute; find_event)
              (take 13 (trace r))
              (Ev (eks_DeleteCluster "Sandbox-demo")
                  (Err (ApiError "AccessDeniedException")))
              (drop 14 (trace r)) eq_refl eq_refl) as [Hpost Hout].
  split; [reflexivity|exact Hout].
Defined.


#[local] Arguments DeleteVPC : simpl never.

Lemma teardown_call_tail vpcID t ev :
  Forall (fun ev => teardown_call vpcID (ev_call ev)) t -> ev ∈ t ->
  teardown_call vpcID (ev_call ev).
Proof. intros Ht Hin. rewrite Forall_forall in Ht. auto. Qed.

(** [H : Ev c r ∈ t] for the calls [t] of [DeleteVPC]. *)
Ltac in_teardown H :=
  lazymatch goal with
  | Hcalls : Forall (fun ev => teardown_call ?v (ev_call ev)) ?t |- _ =>
      lazymatch type of H with
      | _ ∈ t => apply (teardown_call_tail v t _ Hcalls) in H; simpl in H
      end
  end.

Lemma createCluster_deletes_no_cluster :
  all_calls (fun c => is_DeleteCluster c = false) MainGo.createCluster.
Proof. unfold MainGo.createCluster, or_fatal. footprint. Qed.

Lemma teardown_deletes_no_cluster vpcID t :
  Forall (fun ev => teardown_call vpcID (ev_call ev)) t ->
  List.filter (fun ev => is_DeleteCluster (ev_call ev)) t = [].
Proof.
  induction 1 as [|[c r] t Hc _ IH]; simpl; [reflexivity|].
  destruct c; simpl in *; try destruct Hc; exact IH.
Qed.

(** X12. The delete action deletes no cluster but the one the operator
    selected: every delete-cluster call of a run of [main] names the
    answer to the cluster selection, which offered the clusters of a
    non-empty listing; and a run issues at most one delete-cluster
    call. *)
Theorem main_deletes_only_the_selected_cluster
    W (gw : Gateway W) (w : W) (name : string) (answer : result unit) :
  let r := run MainGo.main gw w in
  Ev (eks_DeleteCluster name) answer ∈ trace r ->
  (exists clusters,
     Ev eks_ListClusters (Ok {| Clusters := clusters |}) ∈ trace r
     /\ clusters <> []
     /\ Ev (survey_Select selectClusterMessage clusters) (Ok name) ∈ trace r)
  /\ length (List.filter (fun ev => is_DeleteCluster (ev_call ev)) (trace r)) = 1.
Proof.
  intros r. subst r.
  set (Q := fun (o : Outcome unit) h =>
       Ev (eks_DeleteCluster name) answer ∈ h ->
       (exists clusters,
          Ev eks_ListClusters (Ok {| Clusters := clusters |}) ∈ h
          /\ clusters <> []
          /\ Ev (survey_Select selectClusterMessage clusters) (Ok name) ∈ h)
       /\ length (List.filter (fun ev => is_DeleteCluster (ev_call ev)) h) = 1).
  apply (wp_run MainGo.main [] Q).
  unfold MainGo.main, MainGo.deleteCluster, MainGo.afterWarning, or_fatal.
  subst Q.
  repeat first [ run_DeleteVPC | progress wp_exec ].
  all: try match goal with
         | |- wp MainGo.createCluster _ _ =>
             eapply wp_footprint; [apply createCluster_deletes_no_cluster|];
             intros o t Ht Hin; apply elem_of_cons in Hin as [Hin|Hin];
             [ other_event Hin
             | rewrite Forall_forall in Ht; apply Ht in Hin; discriminate Hin ]
         end.
  all: try match goal with
         | H : _ ∈ _ |- _ => in_history H; try (in_teardown H; destruct H)
         end.
  all: try match goal with a : ListClustersOutput |- _ => destruct a as [clusters] end.
  all: simpl in *.
  all: (split;
        [ exists clusters; split; [find_event|]; split; [|find_event];
          intros ->; discriminate
        | try reflexivity ]).
  all: cbn; erewrite teardown_deletes_no_cluster by eassumption; reflexivity.
Qed.

(** On the run that deletes "Sandbox-demo": the cluster deleted is the
    one selected. *)
Lemma main_deletes_selected_witness :
  let r := run MainGo.main delete_sandbox_demo tt in
  length (List.filter (fun ev => is_DeleteCluster (ev_call ev)) (trace r)) = 1.
Proof.
  apply (main_deletes_only_the_selected_cluster unit delete_sandbox_demo tt
           "Sandbox-demo" (Ok tt)).
  vm_compute. find_event.
Defined.


#[local] Arguments DeleteVPC : simpl never.

Lemma createCluster_tears_nothing_down :
  all_calls (fun c => teardown_phase c = None) MainGo.createCluster.
Proof. unfold MainGo.createCluster, or_fatal. footprint. Qed.

(** X13. The network is torn down only with consent.  In a run of [main], a
    detach or delete request on a network resource is issued only after
    the cluster was described with the tag HostingVPC = isolated, was
    described with a VpcId tag, the operator answered yes to the question
    about the VPC, and the cluster itself was deleted with success; and
    the request is one of the teardown of the VPC that the VpcId tag
    names. *)
Theorem network_teardown_needs_consent
    W (gw : Gateway W) (w : W) (pre post : list Event) (ev : Event) :
  let r := run MainGo.main gw w in
  trace r = pre ++ ev :: post ->
  teardown_phase (ev_call ev) <> None ->
  exists name isolated tagged vpcId,
    Ev (eks_DescribeCluster name)
       (Ok {| DescribeCluster_Cluster := Some isolated |}) ∈ pre
    /\ tag_of isolated "HostingVPC" = Some "isolated"
    /\ Ev (eks_DescribeCluster name)
          (Ok {| DescribeCluster_Cluster := Some tagged |}) ∈ pre
    /\ tag_of tagged "VpcId" = Some vpcId
    /\ Ev (survey_Confirm MainGo.deleteVpcMessage true) (Ok true) ∈ pre
    /\ Ev (eks_DeleteCluster name) (Ok tt) ∈ pre
    /\ teardown_call vpcId (ev_call ev).
Proof.
  intros r. subst r. revert pre ev post.
  set (Q := fun (o : Outcome unit) h =>
       forall pre ev post,
       h = pre ++ ev :: post ->
       teardown_phase (ev_call ev) <> None ->
       exists name isolated tagged vpcId,
         Ev (eks_DescribeCluster name)
            (Ok {| DescribeCluster_Cluster := Some isolated |}) ∈ pre
         /\ tag_of isolated "HostingVPC" = Some "isolated"
         /\ Ev (eks_DescribeCluster name)
               (Ok {| DescribeCluster_Cluster := Some tagged |}) ∈ pre
         /\ tag_of tagged "VpcId" = Some vpcId
         /\ Ev (survey_Confirm MainGo.deleteVpcMessage true) (Ok true) ∈ pre
         /\ Ev (eks_DeleteCluster name) (Ok tt) ∈ pre
         /\ teardown_call vpcId (ev_call ev)).
  apply (wp_run MainGo.main [] Q).
  assert (Hquiet : forall o h,
            Forall (fun ev => teardown_phase (ev_call ev) = None) h -> Q o h).
  { intros o h Hh pre ev post -> Hev. apply Forall_app in Hh as [_ Hh].
    inversion Hh; subst. congruence. }
  unfold MainGo.main, MainGo.deleteCluster, MainGo.afterWarning, or_fatal.
  repeat first [ run_DeleteVPC | progress wp_exec ].
  all: try match goal with
         | |- wp MainGo.createCluster _ _ =>
             eapply wp_footprint; [apply createCluster_tears_nothing_down|];
             intros o t Ht; apply Hquiet; constructor; [reflexivity|exact Ht]
         end.
  all: try solve [ apply Hquiet; repeat constructor ].
  all: subst Q; cbn; intros pre ev post Heq Hev.
  all: split_at_tail Heq t.
  all: try solve [ destruct Hev;
                   match goal with
                   | H : _ = _ ++ _ :: _ |- _ =>
                       refine (no_event_in_prefix
                                 (fun ev => teardown_phase (ev_call ev) = None)
                                 _ _ _ _ _ H)
                   end;
                   repeat constructor ].
  all: described.
  all: repeat match goal with a : unit |- _ => destruct a end.
  all: match goal with
       | Hi : ?g !! "HostingVPC" = Some "isolated", Hv : ?g' !! "VpcId" = Some ?v
         |- _ =>
           exists a3, {| Cluster_Tags := Some g |}, {| Cluster_Tags := Some g' |}, v
       end.
  all: cbn; repeat (split; [first [ assumption | solve [find_event] ]|]).
  all: rewrite Forall_forall in Hcalls; apply Hcalls;
       rewrite elem_of_app, elem_of_cons; auto.
Qed.

(** On the run that deletes "Sandbox-demo" with its VPC: the deletion of
    the VPC comes after the consent. *)
Lemma network_teardown_witness :
  let r := run MainGo.main delete_sandbox_demo tt in
  Ev (survey_Confirm MainGo.deleteVpcMessage true) (Ok true) ∈ take 25 (trace r).
Proof.
  intros r.
  destruct (network_teardown_needs_consent unit delete_sandbox_demo tt
              (take 25 (trace r)) (drop 26 (trace r))
              (Ev (ec2_DeleteVpc "vpc-1") (Ok tt)) eq_refl)
    as (name & isolated & tagged & vpcId & _ & _ & _ & _ & Hconsent & _).
  - discriminate.
  - exact Hconsent.
Defined.


#[local] Arguments DeleteVPC : simpl never.

Lemma createCluster_lists_no_clusters :
  all_calls (fun c => is_ListClusters c = false) MainGo.createCluster.
Proof. unfold MainGo.createCluster, or_fatal. footprint. Qed.

(** X14. Nothing to delete.  When the listing of the clusters comes back
    empty, [main] returns normally right after it: the operator is not
    asked to select a cluster, and no mutating call was issued. *)
Theorem empty_listing_ends_the_delete_action
    W (gw : Gateway W) (w : W) (out : ListClustersOutput) :
  let r := run MainGo.main gw w in
  Ev eks_ListClusters (Ok out) ∈ trace r ->
  Clusters out = [] ->
  outcome r = Returned tt
  /\ (exists pre, trace r = pre ++ [Ev eks_ListClusters (Ok out)])
  /\ Forall (fun ev => mutating (ev_call ev) = false) (trace r).
Proof.
  intros r. subst r.
  set (Q := fun (o : Outcome unit) h =>
       Ev eks_ListClusters (Ok out) ∈ h ->
       Clusters out = [] ->
       o = Returned tt
       /\ (exists pre, h = pre ++ [Ev eks_ListClusters (Ok out)])
       /\ Forall (fun ev => mutating (ev_call ev) = false) h).
  apply (wp_run MainGo.main [] Q).
  assert (Hquiet : forall o h,
            Forall (fun ev => is_ListClusters (ev_call ev) = false) h -> Q o h).
  { intros o h Hh Hin. rewrite Forall_forall in Hh. apply Hh in Hin. discriminate Hin. }
  assert (Hlisted : forall o pre (out' : ListClustersOutput) t,
            Clusters out' <> [] ->
            Forall (fun ev => is_ListClusters (ev_call ev) = false) pre ->
            Forall (fun ev => is_ListClusters (ev_call ev) = false) t ->
            Q o (pre ++ Ev eks_ListClusters (Ok out') :: t)).
  { intros o pre out' t Hne Hpre Ht Hin Hempty.
    rewrite elem_of_app, elem_of_cons in Hin. destruct Hin as [Hin|[Hin|Hin]].
    - rewrite Forall_forall in Hpre. apply Hpre in Hin. discriminate Hin.
    - apply Ev_inj in Hin. congruence.
    - rewrite Forall_forall in Ht. apply Ht in Hin. discriminate Hin. }
  assert (Hempty : forall pre (out' : ListClustersOutput),
            Forall (fun ev => is_ListClusters (ev_call ev) = false
                              /\ mutating (ev_call ev) = false) pre ->
            Q (Returned tt) (pre ++ [Ev eks_ListClusters (Ok out')])).
  { intros pre out' Hpre Hin _.
    rewrite elem_of_app, list_elem_of_singleton in Hin. destruct Hin as [Hin|Hin].
    - rewrite Forall_forall in Hpre. apply Hpre in Hin as [Hin _]. discriminate Hin.
    - apply Ev_inj in Hin. injection Hin as ->.
      split; [reflexivity|]. split; [eauto|].
      apply Forall_app. split; [|repeat constructor].
      eapply Forall_impl; [exact Hpre|]. intros ev [_ H]. exact H. }
  assert (Hfailed : forall o pre e,
            Forall (fun ev => is_ListClusters (ev_call ev) = false) pre ->
            Q o (pre ++ [Ev eks_ListClusters (Err e)])).
  { intros o pre e Hpre Hin.
    rewrite elem_of_app, list_elem_of_singleton in Hin. destruct Hin as [Hin|Hin].
    - rewrite Forall_forall in Hpre. apply Hpre in Hin. discriminate Hin.
    - apply Ev_inj in Hin. discriminate Hin. }
  clearbody Q.
  unfold MainGo.main, MainGo.deleteCluster, or_fatal.
  wp_exec.
  all: try match goal with
         | |- wp MainGo.createCluster _ _ =>
             eapply wp_footprint; [apply createCluster_lists_no_clusters|];
             intros o t Ht; apply Hquiet; constructor; [reflexivity|exact Ht]
         end.
  all: try solve [ apply Hquiet; repeat constructor ].
  all: try solve [ apply (Hempty [_; _; _]); repeat constructor ].
  all: try solve [ apply (Hfailed _ [_; _; _]); repeat constructor ].
  all: try match goal with
         | |- wp _ (?e1 :: ?e2 :: ?e3 :: Ev eks_ListClusters (Ok ?o) :: ?t) _ =>
             eapply wp_footprint with (P := fun c => is_ListClusters c = false);
             [ unfold MainGo.afterWarning, or_fatal, DeleteVPC, wrapped, and_then;
               footprint
             | let o' := fresh "o" in
               let t' := fresh "t" in
               let Ht := fresh "Ht" in
               intros o' t' Ht;
               apply (Hlisted o' [e1; e2; e3] o (t ++ t'));
               [ intros Hnil; rewrite Hnil in *; discriminate
               | repeat constructor
               | apply Forall_app; split; [repeat constructor|exact Ht] ] ]
         end.
  all: try solve [ match goal with
         | |- _ _ (?e1 :: ?e2 :: ?e3 :: Ev eks_ListClusters (Ok ?o) :: ?t) =>
             apply (Hlisted _ [e1; e2; e3] o t);
             [ intros Hnil; rewrite Hnil in *; discriminate
             | repeat constructor | repeat constructor ]
         end ].
Qed.

(** On an account without clusters. *)
Lemma empty_listing_witness :
  outcome (run MainGo.main no_clusters tt) = Returned tt.
Proof.
  apply (empty_listing_ends_the_delete_action unit no_clusters tt {| Clusters := [] |}).
  - vm_compute. find_event.
  - reflexivity.
Defined.

#[local] Arguments DeleteVPC : simpl never.

Lemma createCluster_asks_no_vpc_question :
  all_calls (fun c => c <> vpc_question) MainGo.createCluster.
Proof. unfold MainGo.createCluster, or_fatal. footprint. Qed.

(** X15. The answer to the question about the VPC decides what is deleted.
    When the operator has answered the question and [main] returns
    normally, the cluster has been deleted with success.  With the answer
    yes, the run ends with the successful deletion of a VPC; with the
    answer no, no network resource has been detached or deleted. *)
Theorem vpc_question_decides_the_teardown
    W (gw : Gateway W) (w : W) (answer : bool) :
  let r := run MainGo.main gw w in
  Ev vpc_question (Ok answer) ∈ trace r ->
  outcome r = Returned tt ->
  (exists name, Ev (eks_DeleteCluster name) (Ok tt) ∈ trace r)
  /\ (answer = true ->
      exists t vpcId, trace r = t ++ [Ev (ec2_DeleteVpc vpcId) (Ok tt)])
  /\ (answer = false ->
      Forall (fun ev => teardown_phase (ev_call ev) = None) (trace r)).
Proof.
  intros r. subst r.
  apply (wp_run MainGo.main []
    (fun o h =>
       Ev vpc_question (Ok answer) ∈ h ->
       o = Returned tt ->
       (exists name, Ev (eks_DeleteCluster name) (Ok tt) ∈ h)
       /\ (answer = true ->
           exists t vpcId, h = t ++ [Ev (ec2_DeleteVpc vpcId) (Ok tt)])
       /\ (answer = false ->
           Forall (fun ev => teardown_phase (ev_call ev) = None) h))).
  unfold MainGo.main, MainGo.deleteCluster, MainGo.afterWarning, or_fatal,
    vpc_question.
  repeat first [ run_DeleteVPC | progress wp_exec ].
  all: try match goal with
         | |- wp MainGo.createCluster _ _ =>
             eapply wp_footprint; [apply createCluster_asks_no_vpc_question|];
             intros o t Ht Hin; exfalso;
             apply elem_of_cons in Hin as [Hin|Hin];
             [ other_event Hin
             | rewrite Forall_forall in Ht; apply Ht in Hin; destruct (Hin eq_refl) ]
         end.
  all: try match goal with H : _ = Returned tt |- _ => try discriminate H; clear H end.
  all: try match goal with
         | H : _ ∈ _ |- _ => in_history H; try (in_teardown H; destruct H)
         end.
  all: repeat match goal with a : unit |- _ => destruct a end.
  all: (split; [eexists; solve [find_event]|]).
  all: (split; [| solve [ discriminate | intros _; repeat constructor ] ]).
  all: try discriminate.
  all: intros _; destruct Hend as [_ [t' ->]].
  all: match goal with
       | |- exists t vpcId, ?l = _ =>
           match l with
           | context [?t'' ++ [Ev (ec2_DeleteVpc ?v) (Ok tt)]] =>
               let p := prefix_of l (t'' ++ [Ev (ec2_DeleteVpc v) (Ok tt)]) in
               exists (p ++ t''), v; cbn; rewrite <- ?app_assoc; reflexivity
           end
       end.
Qed.

(** On the run in which the operator keeps the VPC: the cluster is
    deleted, the network is not touched. *)
Lemma vpc_question_witness :
  let r := run MainGo.main delete_cluster_keep_vpc tt in
  (exists name, Ev (eks_DeleteCluster name) (Ok tt) ∈ trace r)
  /\ Forall (fun ev => teardown_phase (ev_call ev) = None) (trace r).
Proof.
  intros r.
  destruct (vpc_question_decides_the_teardown unit delete_cluster_keep_vpc tt false
              ltac:(vm_compute; find_event) eq_refl) as (Hdeleted & _ & Hkept).
  split; [exact Hdeleted|exact (Hkept eq_refl)].
Defined.

#[local] Arguments DeleteVPC : simpl never.
#[local] Arguments MainGo.deleteCluster : simpl never.

(** X16. A run either creates or deletes.  In every run of [main], either no
    call is a detach or delete request (the create action), or every
    call that changes remote state is a detach or delete request (the
    delete action): no run both creates and deletes resources. *)
Theorem main_creates_or_deletes W (gw : Gateway W) (w : W) :
  let t := trace (run MainGo.main gw w) in
  Forall (fun ev => deleting (ev_call ev) = false) t
  \/ Forall (fun ev => mutating (ev_call ev) = deleting (ev_call ev)) t.
Proof.
  intros t. subst t.
  apply (wp_run MainGo.main []
    (fun _ h =>
       Forall (fun ev => deleting (ev_call ev) = false) h
       \/ Forall (fun ev => mutating (ev_call ev) = deleting (ev_call ev)) h)).
  unfold MainGo.main, or_fatal. wp_exec.
  - eapply wp_footprint with (P := fun c => deleting c = false).
    + unfold MainGo.createCluster, or_fatal. footprint.
    + intros o t Ht. left. constructor; [reflexivity|exact Ht].
  - eapply wp_footprint with (P := fun c => mutating c = deleting c).
    + unfold MainGo.deleteCluster, MainGo.afterWarning, or_fatal, DeleteVPC,
        wrapped, and_then. footprint.
    + intros o t Ht. right. constructor; [reflexivity|exact Ht].
  - left. repeat constructor.
  - left. repeat constructor.
Qed.

(** ** The create action of [src/main.go]: failures *)

#[local] Arguments DeleteVPC : simpl never.
#[local] Arguments MainGo.deleteCluster : simpl never.

Lemma acts_on_failures_sound pre0 t b :
  acts_on_failures pre0 t b = true ->
  forall pre ev post, t = pre ++ ev :: post -> failed ev = true ->
    if tolerated (pre0 ++ pre) ev then post <> [] else post = [] /\ b = true.
Proof.
  revert pre0. induction t as [|x t IH]; intros pre0 Hb pre ev post Heq Hev.
  - destruct pre; discriminate.
  - simpl in Hb. apply andb_true_iff in Hb as [Hx Hb].
    destruct pre as [|y pre]; simpl in Heq; injection Heq as -> ->.
    + rewrite app_nil_r. rewrite Hev in Hx.
      destruct (tolerated pre0 ev).
      * destruct post; [discriminate|discriminate].
      * destruct post; [|discriminate]. destruct b; [auto|discriminate].
    + specialize (IH _ Hb pre ev post eq_refl Hev).
      rewrite <- app_assoc in IH. exact IH.
Qed.

Lemma plain_history_loads h : forallb plain h = true -> loads_since_route_table h = None.
Proof.
  induction h as [|x h IH]; simpl; [reflexivity|].
  intros H. apply andb_true_iff in H as [Hx Hh]. unfold plain in Hx.
  destruct (route_table_created x); [discriminate|]. auto.
Qed.

Lemma plain_not_tolerated pre ev :
  forallb plain pre = true -> plain ev = true -> tolerated pre ev = false.
Proof.
  intros Hpre Hev. destruct ev as [c r]. unfold plain in Hev.
  destruct c; simpl in *; try reflexivity; try discriminate.
  now rewrite plain_history_loads.
Qed.

(** A history of plain events in which only the last call may have
    failed. *)
Lemma plain_acts_on_failures pre t b :
  forallb plain pre = true -> forallb plain t = true ->
  fails_fast t b = true -> acts_on_failures pre t b = true.
Proof.
  revert pre. induction t as [|x t IH]; intros pre Hpre Ht Hb; simpl; [reflexivity|].
  simpl in Ht, Hb. apply andb_true_iff in Ht as [Hx Ht].
  rewrite (plain_not_tolerated pre x Hpre Hx).
  apply andb_true_intro. split.
  - destruct (failed x); [|now destruct (is_nil t && b)].
    destruct t; [simpl; now rewrite Hb|discriminate].
  - destruct (failed x).
    + destruct t; [reflexivity|discriminate].
    + apply IH; auto. rewrite forallb_app. simpl. now rewrite Hpre, Hx.
Qed.

Lemma teardown_calls_plain vpcID t :
  Forall (fun ev => teardown_call vpcID (ev_call ev)) t -> forallb plain t = true.
Proof.
  induction 1 as [|[c r] t Hc _ IH]; simpl; [reflexivity|].
  rewrite IH, andb_true_r. destruct c; simpl in Hc; try contradiction; reflexivity.
Qed.

(** X17. Which failures stop [main].  In a run of [main], after a failure
    that [main] tolerates (the role exists already; one of the three
    discarded route steps fails) the run goes on with a further call;
    any other failed call is the last call of the run, and the run does
    not return normally. *)
Theorem main_acts_on_failures
    W (gw : Gateway W) (w : W) (pre post : list Event) (ev : Event) :
  let r := run MainGo.main gw w in
  trace r = pre ++ ev :: post ->
  failed ev = true ->
  if tolerated pre ev then post <> []
  else post = [] /\ outcome r <> Returned tt.
Proof.
  intros r. subst r. revert pre ev post.
  set (Q := fun (o : Outcome unit) h =>
       forall pre ev post,
       h = pre ++ ev :: post -> failed ev = true ->
       if tolerated pre ev then post <> []
       else post = [] /\ o <> Returned tt).
  apply (wp_run MainGo.main [] Q).
  assert (Hleaf : forall o h, acts_on_failures [] h (stopped o) = true -> Q o h).
  { intros o h Hb pre ev post Heq Hev.
    pose proof (acts_on_failures_sound [] h _ Hb pre ev post Heq Hev) as H.
    simpl in H. destruct (tolerated pre ev); [exact H|].
    destruct H as [-> Hs]. split; [reflexivity|]. intros ->. discriminate Hs. }
  clearbody Q.
  unfold MainGo.main, MainGo.createCluster, or_fatal.
  wp_exec.
  all: try solve [ apply Hleaf; reflexivity ].
  all: try solve [ match goal with
                   | H : errors_As_EntityAlreadyExists ?e = _ |- _ =>
                       destruct e; try discriminate H
                   end; apply Hleaf; reflexivity ].
  unfold MainGo.deleteCluster, MainGo.afterWarning, or_fatal.
  repeat first [ run_DeleteVPC | progress wp_exec ].
  all: try solve [ apply Hleaf; reflexivity ].
  all: apply Hleaf; apply plain_acts_on_failures;
       [ reflexivity
       | cbn; exact (teardown_calls_plain _ _ Hcalls)
       | cbn; exact (teardown_fails_fast _ _ _ Hend) ].
Qed.

(** On the run in which the three route steps fail: the failure of the
    route creation is tolerated, and the run goes on. *)
Lemma main_acts_on_failures_witness :
  drop 30 (trace (run MainGo.main route_calls_fail tt)) <> [].
Proof.
  exact (main_acts_on_failures unit route_calls_fail tt
           (take 29 (trace (run MainGo.main route_calls_fail tt)))
           (drop 30 (trace (run MainGo.main route_calls_fail tt)))
           (Ev (ec2_CreateRoute "rtb-1" "0.0.0.0/0" "igw-1")
               (Err (ApiError "InvalidGatewayID.NotFound")))
           eq_refl eq_refl).
Defined.

(** ** The create action of [src/main.go]: what is created *)

#[local] Arguments DeleteVPC : simpl never.
#[local] Arguments MainGo.deleteCluster : simpl never.

Lemma deleteCluster_creates_no_cluster :
  all_calls (fun c => is_CreateCluster c = false) MainGo.deleteCluster.
Proof.
  unfold MainGo.deleteCluster, MainGo.afterWarning, or_fatal, DeleteVPC,
    wrapped, and_then. footprint.
Qed.

(** The facts that hold when [main] issues the create-cluster call. *)
Lemma cluster_request_facts :
  wp MainGo.main []
    (fun _ h =>
       forall pre post input answer,
         h = pre ++ Ev (eks_CreateCluster input) answer :: post ->
         in_own_network pre input /\ follows_the_answers pre input).
Proof.
  set (Q := fun (o : Outcome unit) h =>
       forall pre post input answer,
         h = pre ++ Ev (eks_CreateCluster input) answer :: post ->
         in_own_network pre input /\ follows_the_answers pre input).
  assert (Hquiet : forall o h,
            forallb (fun ev => negb (is_CreateCluster (ev_call ev))) h = true -> Q o h).
  { intros o h Hh pre post input answer Heq.
    pose proof (no_such_event (fun ev => is_CreateCluster (ev_call ev)) _ _ _ _ Hh Heq) as H.
    discriminate H. }
  assert (Hleaf : forall o p i a t,
            forallb (fun ev => negb (is_CreateCluster (ev_call ev))) p = true ->
            Forall (fun ev => is_CreateCluster (ev_call ev) = false) t ->
            in_own_network p i /\ follows_the_answers p i ->
            Q o ((p ++ [Ev (eks_CreateCluster i) a]) ++ t)).
  { intros o p i a t Hp Ht Hfacts pre post input answer Heq.
    rewrite <- app_assoc in Heq. simpl in Heq.
    apply (split_at_only_event (fun ev => is_CreateCluster (ev_call ev)))
      in Heq as (-> & Heq & ->); [|exact Hp| |reflexivity].
    - same_event Heq. exact Hfacts.
    - apply Forall_forallb. eapply Forall_impl; [exact Ht|].
      intros ev H. simpl. now rewrite H. }
  clearbody Q.
  unfold MainGo.main, MainGo.createCluster, or_fatal.
  wp_exec_until after_CreateCluster.
  all: try solve [ apply Hquiet; lazy; reflexivity ].
  all: try lazymatch goal with
         | |- wp ?p _ _ =>
             is_const p;
             eapply wp_footprint; [apply deleteCluster_creates_no_cluster|];
             intros o t Ht; apply Hquiet; cbn;
             apply Forall_forallb; eapply Forall_impl; [exact Ht|];
             intros ev H; simpl; now rewrite H
         end.
  all: eapply wp_footprint with (P := fun c => is_CreateCluster c = false);
       [ solve [ footprint ] | intros o t Ht ].
  all: match goal with
       | |- _ _ (?l ++ _) =>
           let p := before_CreateCluster l in
           let e := the_CreateCluster l in
           lazymatch e with
           | Ev (eks_CreateCluster ?i) ?a =>
               refine (Hleaf o p i a t _ Ht _); [reflexivity|]
           end
       end.
  all: clear Hquiet Hleaf.
  all: split; history_fact.
Qed.



(** X19. The cluster follows the answers of the operator.  When [main] issues
    the create-cluster call, the name of the cluster is "Sandbox-"
    followed by the name the operator entered; its version is the
    operator's answer to the version question, whose default was the
    latest version of the describe answer; the three auto-mode blocks are
    enabled exactly when the operator chose auto mode; the role of the
    cluster is EKSClusterRole in the account of the caller, and both
    managed policies have been attached to this role with success. *)
Theorem cluster_follows_the_answers
    W (gw : Gateway W) (w : W) (pre post : list Event)
    (input : CreateClusterInput) (answer : result unit) :
  let r := run MainGo.main gw w in
  trace r = pre ++ Ev (eks_CreateCluster input) answer :: post ->
  exists name version latest auto identity versions,
    CreateCluster_Name input = "Sandbox-" +:+ name
    /\ CreateCluster_Version input = version
    /\ RoleArn input
       = "arn:aws:iam::" +:+ aws_ToString (Account identity) +:+ ":role/EKSClusterRole"
    /\ ComputeConfig input = (if auto : bool then Some true else None)
    /\ ElasticLoadBalancing input = (if auto : bool then Some true else None)
    /\ BlockStorage input = (if auto : bool then Some true else None)
    /\ getLatestVersion (omap ClusterVersion (ClusterVersions versions)) = Some latest
    /\ Ev (eks_DescribeClusterVersions true) (Ok versions) ∈ pre
    /\ Ev (survey_Input "Enter the name of the EKS cluster:" "" true) (Ok name) ∈ pre
    /\ Ev (survey_Input "Enter the Kubernetes version default:" latest false)
          (Ok version) ∈ pre
    /\ Ev (survey_Confirm autoModeMessage false) (Ok auto) ∈ pre
    /\ Ev sts_GetCallerIdentity (Ok identity) ∈ pre
    /\ attached "EKSClusterRole" "arn:aws:iam::aws:policy/AmazonEKSClusterPolicy" ∈ pre
    /\ attached "EKSClusterRole"
         "arn:aws:iam::aws:policy/AmazonEKSVPCResourceController" ∈ pre.
Proof.
  intros r Heq.
  exact (proj2 (wp_run _ _ _ cluster_request_facts W gw w pre post input answer Heq)).
Qed.

(** On the run that creates "Sandbox-demo" with its addons. *)
Lemma cluster_answers_witness :
  exists name,
    Ev (survey_Input "Enter the name of the EKS cluster:" "" true) (Ok name)
      ∈ take 37 (trace (run MainGo.main create_with_addons tt)).
Proof.
  destruct (cluster_follows_the_answers unit create_with_addons tt
              (take 37 (trace (run MainGo.main create_with_addons tt)))
              (drop 38 (trace (run MainGo.main create_with_addons tt)))
              {| CreateCluster_Name := "Sandbox-demo";
                 CreateCluster_Version := "1.31";
                 RoleArn := "arn:aws:iam::123456789012:role/EKSClusterRole";
                 SubnetIds := ["subnet-10.0.1.0/24"; "subnet-10.0.2.0/24"];
                 SecurityGroupIds := ["sg-1"];
                 AuthenticationMode := Some "API_AND_CONFIG_MAP";
                 BootstrapClusterCreatorAdminPermissions := Some true;
                 CreateCluster_Tags := sandbox_tags "vpc-1";
                 ComputeConfig := Some true;
                 ElasticLoadBalancing := Some true;
                 BlockStorage := Some true |}
              (Ok tt) eq_refl)
    as (name & _ & _ & _ & _ & _ & _ & _ & _ & _ & _ & _ & _ & _ & Hname & _).
  exists name. exact Hname.
Defined.

(** ** The create action of [src/main.go]: addons *)

#[local] Arguments DeleteVPC : simpl never.
#[local] Arguments MainGo.deleteCluster : simpl never.
#[local] Arguments InstallAddons : simpl never.

Lemma InstallAddons_footprint region clusterName :
  all_calls (addon_call clusterName) (InstallAddons region clusterName).
Proof.
  unfold InstallAddons, addons. footprint.
  all: solve [repeat constructor].
Qed.

Lemma deleteCluster_installs_no_addon :
  all_calls (fun c => is_CreateAddon c = false) MainGo.deleteCluster.
Proof.
  unfold MainGo.deleteCluster, MainGo.afterWarning, or_fatal, DeleteVPC,
    wrapped, and_then. footprint.
Qed.

(** Stop right after the question about the addons. *)
Ltac after_addons_question h :=
  let e := last_of h in
  lazymatch e with
  | Ev (survey_Confirm ?m _) _ =>
      lazymatch h with context [eks_CreateCluster] => idtac end
  end.

(** X20. Addons go onto the cluster just created.  In a run of [main], an
    addon is installed only after the create-cluster call of the run has
    succeeded and the operator has answered yes to the question about the
    addons; the addon is one of coredns, kube-proxy and vpc-cni, and it is
    installed on the cluster that was created. *)
Theorem addons_follow_the_created_cluster
    W (gw : Gateway W) (w : W) (pre post : list Event)
    (clusterName addon : string) (answer : result unit) :
  let r := run MainGo.main gw w in
  trace r = pre ++ Ev (eks_CreateAddon clusterName addon) answer :: post ->
  (exists input,
     CreateCluster_Name input = clusterName
     /\ Ev (eks_CreateCluster input) (Ok tt) ∈ pre)
  /\ Ev (survey_Confirm addonsMessage false) (Ok true) ∈ pre
  /\ addon ∈ ["coredns"; "kube-proxy"; "vpc-cni"].
Proof.
  intros r. subst r. revert pre post clusterName addon answer.
  set (Q := fun (o : Outcome unit) h =>
       forall pre post clusterName addon answer,
       h = pre ++ Ev (eks_CreateAddon clusterName addon) answer :: post ->
       (exists input,
          CreateCluster_Name input = clusterName
          /\ Ev (eks_CreateCluster input) (Ok tt) ∈ pre)
       /\ Ev (survey_Confirm addonsMessage false) (Ok true) ∈ pre
       /\ addon ∈ ["coredns"; "kube-proxy"; "vpc-cni"]).
  apply (wp_run MainGo.main [] Q).
  assert (Hquiet : forall o h,
            forallb (fun ev => negb (is_CreateAddon (ev_call ev))) h = true -> Q o h).
  { intros o h Hh pre post clusterName addon answer Heq.
    pose proof (no_such_event (fun ev => is_CreateAddon (ev_call ev)) _ _ _ _ Hh Heq) as H.
    discriminate H. }
  assert (Hleaf : forall o p name t,
            forallb (fun ev => negb (is_CreateAddon (ev_call ev))) p = true ->
            (exists input,
               Ev (eks_CreateCluster input) (Ok tt) ∈ p
               /\ CreateCluster_Name input = name) ->
            Ev (survey_Confirm addonsMessage false) (Ok true) ∈ p ->
            Forall (fun ev => addon_call name (ev_call ev)) t ->
            Q o (p ++ t)).
  { intros o p name t Hp (input & Hcreated & Hname) Hasked Ht
           pre post clusterName addon answer Heq.
    apply app_split_event in Heq as [(post' & Heq & _)|(pre' & -> & ->)].
    - pose proof (no_such_event (fun ev => is_CreateAddon (ev_call ev)) _ _ _ _ Hp Heq)
        as H. discriminate H.
    - apply Forall_app in Ht as [_ Ht]. apply Forall_cons in Ht as [Hc _].
      simpl in Hc. destruct Hc as [<- Haddon].
      split; [|split; [|exact Haddon]].
      + exists input. split; [exact Hname|]. apply elem_of_app. now left.
      + apply elem_of_app. now left. }
  clearbody Q.
  unfold MainGo.main, MainGo.createCluster, or_fatal.
  wp_exec_until after_addons_question.
  all: try solve [ apply Hquiet; lazy; reflexivity ].
  all: try lazymatch goal with
         | |- wp ?p _ _ =>
             is_const p;
             eapply wp_footprint; [apply deleteCluster_installs_no_addon|];
             intros o t Ht; apply Hquiet; cbn;
             apply Forall_forallb; eapply Forall_impl; [exact Ht|];
             intros ev H; simpl; now rewrite H
         end.
  all: match goal with
       | |- wp _ (_ ++ [Ev _ ?r]) _ => destruct r as [[|]|?]; cbn
       | |- wp _ ?h _ =>
           let e := last_of h in
           lazymatch e with Ev _ ?r => destruct r as [[|]|?]; cbn end
       end.
  all: try solve [ apply Hquiet; lazy; reflexivity ].
  all: match goal with
       | |- wp (_ ≫= _) ?h _ =>
           apply (wp_bind_frame _ _ h _ _
                    (all_calls_wp _ _ [] (InstallAddons_footprint _ _)));
           intros o t (t' & -> & Ht); simpl;
           destruct o as [[[]|?]|?|?]; cbn
       end.
  all: lazymatch goal with
       | Ht : Forall (fun ev => addon_call ?name _) ?t |- ?Q0 ?o ?l =>
           let p := prefix_of l t in
           change (Q0 o (p ++ t));
           apply (Hleaf o p name t); [ lazy; reflexivity | | | exact Ht ]
       end.
  all: history_fact.
Qed.

(** On the run that creates "Sandbox-demo" with its addons. *)
Lemma addons_witness :
  Ev (survey_Confirm addonsMessage false) (Ok true)
    ∈ take 40 (trace (run MainGo.main create_with_addons tt)).
Proof.
  apply (addons_follow_the_created_cluster unit create_with_addons tt
           (take 40 (trace (run MainGo.main create_with_addons tt)))
           (drop 41 (trace (run MainGo.main create_with_addons tt)))
           "Sandbox-demo" "coredns" (Ok tt) eq_refl).
Defined.

(** ** The delete action of [src/unnamed/part_002] *)

#[local] Arguments DeleteVPC : simpl never.

Lemma last_cons_some (ev x : Event) l : last l = Some x -> last (ev :: l) = Some x.
Proof. destruct l; [discriminate|]. exact id. Qed.

Lemma last_app_some (t l : list Event) x : last l = Some x -> last (t ++ l) = Some x.
Proof.
  intros Hl. induction t as [|ev t IH]; [exact Hl|].
  simpl. apply last_cons_some, IH.
Qed.

(** X21. In [src/unnamed/part_002] the delete action ends with the deletion
    of the cluster.  When the delete action returns normally after the
    operator has selected a cluster and has not declined the danger
    confirmation, its last call is the successful deletion of the
    selected cluster: whatever the tags of the cluster say, and after the
    teardown of the network when there is one. *)
Theorem part_002_deletes_the_selected_cluster
    W (gw : Gateway W) (w : W) (options : list string) (cluster : string) :
  let r := run Part002.deleteCluster gw w in
  outcome r = Returned tt ->
  Ev (survey_Select selectClusterMessage options) (Ok cluster) ∈ trace r ->
  Ev danger_prompt (Ok false) ∉ trace r ->
  last (trace r) = Some (Ev (eks_DeleteCluster cluster) (Ok tt)).
Proof.
  intros r. subst r.
  apply (wp_run Part002.deleteCluster []
    (fun o h =>
       o = Returned tt ->
       Ev (survey_Select selectClusterMessage options) (Ok cluster) ∈ h ->
       Ev danger_prompt (Ok false) ∉ h ->
       last h = Some (Ev (eks_DeleteCluster cluster) (Ok tt)))).
  unfold Part002.deleteCluster, or_fatal.
  repeat first [ run_DeleteVPC | progress wp_exec ].
  all: try match goal with
         | H : _ = Returned tt |- _ => first [ discriminate H | clear H ]
         end.
  all: try match goal with
         | Hno : _ ∉ _ |- _ =>
             solve [ exfalso; apply Hno; unfold danger_prompt; event_from 0 ]
         end.
  all: match goal with
       | Hsel : Ev (survey_Select _ _) _ ∈ _ |- _ =>
           in_history Hsel;
           try (history_cases Hsel;
                first [ other_event Hsel | in_teardown Hsel; destruct Hsel ])
       end.
  all: repeat match goal with a : unit |- _ => destruct a end.
  all: repeat lazymatch goal with
         | |- last [_] = _ => reflexivity
         | |- Some _ = Some _ => reflexivity
         | |- last (_ :: _) = _ => apply last_cons_some
         | |- last (_ ++ _) = _ => apply last_app_some
         end.
Qed.

(** On the run that deletes "Sandbox-demo". *)
Lemma part_002_deletes_witness :
  last (trace (run Part002.deleteCluster delete_sandbox_demo tt))
  = Some (Ev (eks_DeleteCluster "Sandbox-demo") (Ok tt)).
Proof.
  apply (part_002_deletes_the_selected_cluster unit delete_sandbox_demo tt
           ["Sandbox-demo"] "Sandbox-demo").
  - reflexivity.
  - vm_compute. find_event.
  - vm_compute. intros H. elem_cases H; other_event H.
Defined.

(** ** The reuse path of [src/unnamed/part_000] *)

Lemma accepted_in_history message default h :
  Ev (survey_Confirm message default) (Ok true) ∈ h ->
  forallb (not_accepted message) h = true -> False.
Proof.
  intros Hin Hh. rewrite forallb_forall in Hh.
  apply list_elem_of_In, Hh in Hin. simpl in Hin.
  rewrite String.eqb_refl in Hin. discriminate Hin.
Qed.

Lemma no_prompt_not_accepted message t :
  Forall (fun ev => prompting (ev_call ev) = false) t ->
  forallb (not_accepted message) t = true.
Proof.
  intros Ht. apply Forall_forallb. eapply Forall_impl; [exact Ht|].
  intros [c r] H. destruct c; try reflexivity; discriminate H.
Qed.

Lemma createNew_asks_nothing region clusterName accountID k8sVersion :
  all_calls (fun c => prompting c = false)
    (Part000.createNew region (fun vpcID subnets securityGroups =>
       or_fatal "Error creating EKS Cluster"
         (Aws2.CreateEKSCluster region clusterName accountID subnets securityGroups
            k8sVersion) (fun _ => Ret tt))).
Proof. unfold Part000.createNew, or_fatal. footprint. Qed.

Ltac reuse_fact :=
  lazymatch goal with
  | |- _ <= _ => apply Nat.ltb_ge; eassumption
  | |- _ = _ => reflexivity
  | |- _ ∈ _ => event_from 0
  | |- exists _, _ => eexists; reuse_fact
  | |- _ /\ _ => split; reuse_fact
  | |- _ => progress hnf; reuse_fact
  end.

(** X22. Reusing a network.  When the operator of the [main] of
    [src/unnamed/part_000] answers yes to the question about existing
    resources, the run issues no request that builds a network, and the
    create-cluster request, when the run gets there, names the subnets
    and the security groups that the operator picked: at least two
    subnets, offered from the listing of the subnets of the selected VPC,
    and the groups offered from the listing of its security groups. *)
Theorem reuse_creates_only_the_cluster W (gw : Gateway W) (w : W) :
  let r := run Part000.main gw w in
  Ev (survey_Confirm Part000.reuseMessage false) (Ok true) ∈ trace r ->
  Forall (fun ev => builds_network (ev_call ev) = false) (trace r)
  /\ forall pre input answer post,
       trace r = pre ++ Ev (eks_CreateCluster input) answer :: post ->
       reuses_the_selection pre input.
Proof.
  intros r. subst r.
  set (Q := fun (o : Outcome unit) h =>
       Ev (survey_Confirm Part000.reuseMessage false) (Ok true) ∈ h ->
       Forall (fun ev => builds_network (ev_call ev) = false) h
       /\ forall pre input answer post,
            h = pre ++ Ev (eks_CreateCluster input) answer :: post ->
            reuses_the_selection pre input).
  apply (wp_run Part000.main [] Q).
  assert (Hnever : forall o h,
            forallb (not_accepted Part000.reuseMessage) h = true -> Q o h).
  { intros o h Hh Hin. destruct (accepted_in_history _ _ _ Hin Hh). }
  assert (Hquiet : forall o h,
            forallb (fun ev => negb (builds_network (ev_call ev))) h = true ->
            forallb (fun ev => negb (is_CreateCluster (ev_call ev))) h = true ->
            Q o h).
  { intros o h Hb Hc _. split.
    - apply Forall_forall. intros ev Hin. rewrite forallb_forall in Hb.
      apply list_elem_of_In, Hb in Hin. now destruct (builds_network (ev_call ev)).
    - intros pre input answer post Heq.
      pose proof (no_such_event (fun ev => is_CreateCluster (ev_call ev)) _ _ _ _ Hc Heq)
        as H.
      discriminate H. }
  assert (Hleaf : forall o p i a,
            forallb (fun ev => negb (builds_network (ev_call ev))) p = true ->
            forallb (fun ev => negb (is_CreateCluster (ev_call ev))) p = true ->
            reuses_the_selection p i ->
            Q o (p ++ [Ev (eks_CreateCluster i) a])).
  { intros o p i a Hb Hc Hfacts _. split.
    - apply Forall_app. split; [|repeat constructor].
      apply Forall_forall. intros ev Hin. rewrite forallb_forall in Hb.
      apply list_elem_of_In, Hb in Hin. now destruct (builds_network (ev_call ev)).
    - intros pre input answer post Heq.
      apply (split_at_only_event (fun ev => is_CreateCluster (ev_call ev)))
        in Heq as (-> & Heq & ->); [|exact Hc|reflexivity|reflexivity].
      same_event Heq. exact Hfacts. }
  clearbody Q.
  unfold Part000.main, useExisting, selectExistingResource, selectMultipleSubnets,
    selectMultipleSecurityGroups, or_fatal.
  wp_exec.
  all: try solve [ apply Hnever; lazy; reflexivity ].
  all: try lazymatch goal with
         | |- wp (Part000.createNew _ _) _ _ =>
             eapply wp_footprint; [apply createNew_asks_nothing|];
             intros o t Ht; apply Hnever; rewrite forallb_app;
             apply andb_true_intro; split;
             [ lazy; reflexivity | apply no_prompt_not_accepted, Ht ]
         end.
  all: try solve [ apply Hquiet; lazy; reflexivity ].
  all: lazymatch goal with
       | |- _ _ ?l =>
           let p := before_CreateCluster l in
           let e := the_CreateCluster l in
           lazymatch e with
           | Ev (eks_CreateCluster ?i) ?a =>
               refine (Hleaf _ p i a _ _ _); [lazy; reflexivity|lazy; reflexivity|]
           end
       end.
  all: clear Hnever Hquiet Hleaf.
  all: reuse_fact.
Qed.

(** On the run that reuses "vpc-1" with two of its subnets. *)
Lemma reuse_witness :
  Forall (fun ev => builds_network (ev_call ev) = false)
    (trace (run Part000.main reuse_two_subnets tt)).
Proof.
  apply (reuse_creates_only_the_cluster unit reuse_two_subnets tt).
  vm_compute. find_event.
Defined.

(** ** Helpers of the create action *)

(** X23. [IamOperations] succeeds exactly on the runs where the role is
    available and both policies get attached: it returns no error if and
    only if its calls are the configuration load, the create-role call,
    answered with success or with the already-exists error, and the
    successful attachments of the cluster policy and of the VPC resource
    controller policy, in this order.  It never exits or panics. *)
Theorem IamOperations_succeeds_with_both_policies
    W (gw : Gateway W) (w : W) (region roleName : string) :
  let r := run (IamOperations region roleName) gw w in
  (outcome r = Returned (Ok tt) <->
     exists created,
       role_available created
       /\ trace r
          = [ Ev (config_LoadDefaultConfig region) (Ok tt);
              Ev (iam_CreateRole roleName assumeRolePolicy) created;
              attached roleName "arn:aws:iam::aws:policy/AmazonEKSClusterPolicy";
              attached roleName "arn:aws:iam::aws:policy/AmazonEKSVPCResourceController" ])
  /\ exists res, outcome r = Returned res.
Proof.
  intros r. subst r.
  apply (wp_run (IamOperations region roleName) []
    (fun o h =>
       (o = Returned (Ok tt) <->
          exists created,
            role_available created
            /\ h = [ Ev (config_LoadDefaultConfig region) (Ok tt);
                     Ev (iam_CreateRole roleName assumeRolePolicy) created;
                     attached roleName "arn:aws:iam::aws:policy/AmazonEKSClusterPolicy";
                     attached roleName
                       "arn:aws:iam::aws:policy/AmazonEKSVPCResourceController" ])
       /\ exists res, o = Returned res)).
  unfold IamOperations, attachPolicies, policies, attached.
  wp_exec.
  all: repeat match goal with a : unit |- _ => destruct a end.
  all: split; [|eexists; reflexivity].
  all: split;
       [ first
           [ discriminate
           | intros _; eexists; split; [|reflexivity]; simpl;
             first [ exact I | apply already_exists_test; assumption ] ]
       | intros (created & _ & Heq);
         first
           [ reflexivity
           | exfalso; apply (f_equal length) in Heq; discriminate Heq
           | exfalso; apply (f_equal (fun l => l !! 2)) in Heq;
             cbn in Heq; apply (inj Some) in Heq; other_event Heq
           | exfalso; apply (f_equal (fun l => l !! 3)) in Heq;
             cbn in Heq; apply (inj Some) in Heq; other_event Heq ] ].
Qed.

(** X24. [CreateInternetGateway] hands out only gateways it has attached.  A
    gateway id is returned only after the gateway of the create answer
    was attached to the VPC with success, and it is the id of that
    gateway.  When the attachment fails, its error is returned unchanged
    and the gateway just created is left in place: no run issues a detach
    or delete request. *)
Theorem CreateInternetGateway_returns_attached_gateway
    W (gw : Gateway W) (w : W) (region name vpcID : string) :
  let r := run (CreateInternetGateway region name vpcID) gw w in
  (forall igwID,
     outcome r = Returned (Ok igwID) ->
     exists tags out igw,
       CreateInternetGateway_InternetGateway out = Some igw
       /\ aws_ToString (InternetGatewayId igw) = igwID
       /\ trace r = [ Ev (config_LoadDefaultConfig region) (Ok tt);
                      Ev (ec2_CreateInternetGateway tags) (Ok out);
                      Ev (ec2_AttachInternetGateway igwID vpcID) (Ok tt) ])
  /\ (forall igwID vpc err,
        Ev (ec2_AttachInternetGateway igwID vpc) (Err err) ∈ trace r ->
        outcome r = Returned (Err err)
        /\ exists tags out,
             Ev (ec2_CreateInternetGateway tags) (Ok out) ∈ trace r)
  /\ Forall (fun ev => deleting (ev_call ev) = false) (trace r).
Proof.
  intros r. subst r.
  apply (wp_run (CreateInternetGateway region name vpcID) []
    (fun o h =>
       (forall igwID,
          o = Returned (Ok igwID) ->
          exists tags out igw,
            CreateInternetGateway_InternetGateway out = Some igw
            /\ aws_ToString (InternetGatewayId igw) = igwID
            /\ h = [ Ev (config_LoadDefaultConfig region) (Ok tt);
                     Ev (ec2_CreateInternetGateway tags) (Ok out);
                     Ev (ec2_AttachInternetGateway igwID vpcID) (Ok tt) ])
       /\ (forall igwID vpc err,
             Ev (ec2_AttachInternetGateway igwID vpc) (Err err) ∈ h ->
             o = Returned (Err err)
             /\ exists tags out, Ev (ec2_CreateInternetGateway tags) (Ok out) ∈ h)
       /\ Forall (fun ev => deleting (ev_call ev) = false) h)).
  unfold CreateInternetGateway. wp_exec.
  all: repeat match goal with a : unit |- _ => destruct a end.
  all: split; [|split; [|repeat constructor]].
  all: try solve
         [ intros igwID Ho;
           first
             [ discriminate Ho
             | injection Ho as <-;
               eexists _, _, _; split; [eassumption|]; split; reflexivity ] ].
  all: intros igwID vpc err Hin; in_history Hin.
  all: split; [reflexivity|].
  all: eexists _, _; find_event.
Qed.
